(** * nginx-check: the status-page extractor and the fetcher

    A shallow embedding of package [nginx] of sensu/nginx-check
    ([loadData], [extractMetrics], [addNewMetric] and the metric table),
    together with the parts of the Go standard library the package calls:
    [bufio.Scanner] with [bufio.ScanLines], [strings.TrimSpace],
    [unicode/utf8], [regexp] (the fragment the three line patterns use),
    [strconv.ParseUint] and the conversion [float64(uint64)]; and of
    package [main] ([checkArgs], [executeCheck], [printMetrics]), whose URL
    parser and text encoder are parameters.

    Go strings and byte slices are sequences of bytes: both are modelled as
    [list ascii]; a string literal is read as its bytes through the coercion
    [list_ascii_of_string].  Go's [int], [uint64] and [int64] are [Z], with
    the wrap-around written out where the code can overflow. *)

From Stdlib Require Import ZArith List Ascii String Bool Lia.
From Stdlib Require Import Floats.SpecFloat.
From Stdlib Require Import DecimalString.
From stdpp Require Import gmap strings list.

Local Open Scope Z_scope.

Abbreviation bytes := (list ascii).

Coercion list_ascii_of_string : string >-> list.

(** The numeric value of a byte. *)
Definition byteZ (c : ascii) : Z := Z.of_N (N_of_ascii c).

(** s[n:] and s[:n] of a byte sequence. *)
Abbreviation skipn := List.skipn.
Abbreviation firstn := List.firstn.

(* ================================================================= *)
(** ** unicode/utf8 *)

Module utf8.

Definition RuneError : Z := 0xFFFD.
Definition RuneSelf : Z := 0x80.
Definition UTFMax : Z := 4.

(** Entries of the table [first]: the low three bits give the length of the
    sequence, the high four bits index [acceptRanges]. *)
Definition xx : Z := 0xF1.
Definition as_ : Z := 0xF0.
Definition s1 : Z := 0x02.
Definition s2 : Z := 0x13.
Definition s3 : Z := 0x03.
Definition s4 : Z := 0x23.
Definition s5 : Z := 0x34.
Definition s6 : Z := 0x04.
Definition s7 : Z := 0x44.

Definition first (b : Z) : Z :=
  if b <? 0x80 then as_
  else if b <? 0xC2 then xx
  else if b <? 0xE0 then s1
  else if b =? 0xE0 then s2
  else if b <? 0xED then s3
  else if b =? 0xED then s4
  else if b <? 0xF0 then s3
  else if b =? 0xF0 then s5
  else if b <? 0xF4 then s6
  else if b =? 0xF4 then s7
  else xx.

Definition locb : Z := 0x80.
Definition hicb : Z := 0xBF.

Definition acceptRanges (i : Z) : Z * Z :=
  if i =? 0 then (locb, hicb)
  else if i =? 1 then (0xA0, hicb)
  else if i =? 2 then (locb, 0x9F)
  else if i =? 3 then (0x90, hicb)
  else if i =? 4 then (locb, 0x8F)
  else (0, 0).

Definition mask2 : Z := 0x1F.
Definition mask3 : Z := 0x0F.
Definition mask4 : Z := 0x07.
Definition maskx : Z := 0x3F.

(** [RuneStart b]: b is not a continuation byte. *)
Definition RuneStart (b : ascii) : bool :=
  negb (Z.land (byteZ b) 0xC0 =? 0x80).

(** [DecodeRuneInString s] is the first rune of [s] and its width in bytes;
    [(RuneError, 0)] on the empty string and [(RuneError, 1)] on an invalid
    encoding.  The test [n < sz] of the source is the absence of the byte
    the next step reads: every failing branch returns [(RuneError, 1)]. *)
Definition DecodeRuneInString (s : bytes) : Z * Z :=
  match s with
  | [] => (RuneError, 0)
  | c0 :: t0 =>
    let b0 := byteZ c0 in
    let x := first b0 in
    if as_ <=? x then
      (* ASCII or invalid lead byte: the mask is all zeros or all ones *)
      (if Z.odd x then RuneError else b0, 1)
    else
      let sz := Z.land x 7 in
      let accept := acceptRanges (Z.shiftr x 4) in
      match t0 with
      | [] => (RuneError, 1)
      | c1 :: t1 =>
        let b1 := byteZ c1 in
        if (b1 <? fst accept) || (snd accept <? b1) then (RuneError, 1)
        else if sz <=? 2 then
          (Z.lor (Z.shiftl (Z.land b0 mask2) 6) (Z.land b1 maskx), 2)
        else
          match t1 with
          | [] => (RuneError, 1)
          | c2 :: t2 =>
            let b2 := byteZ c2 in
            if (b2 <? locb) || (hicb <? b2) then (RuneError, 1)
            else if sz <=? 3 then
              (Z.lor (Z.lor (Z.shiftl (Z.land b0 mask3) 12)
                            (Z.shiftl (Z.land b1 maskx) 6))
                     (Z.land b2 maskx), 3)
            else
              match t2 with
              | [] => (RuneError, 1)
              | c3 :: _ =>
                let b3 := byteZ c3 in
                if (b3 <? locb) || (hicb <? b3) then (RuneError, 1)
                else
                  (Z.lor (Z.lor (Z.lor (Z.shiftl (Z.land b0 mask4) 18)
                                       (Z.shiftl (Z.land b1 maskx) 12))
                                (Z.shiftl (Z.land b2 maskx) 6))
                         (Z.land b3 maskx), 4)
              end
          end
      end
  end.

(** The backward scan of [DecodeLastRuneInString] for the start of the last
    rune.  [before] holds the bytes that precede the last byte, nearest
    first; the result is [end - start], the length of the segment
    [s[start:end]] the source then decodes.  The loop looks at no more than
    [UTFMax - 1] bytes and, when none of them starts a rune, leaves [start]
    at [lim - 1], clamped to 0. *)
Definition lastRuneSpan (before : bytes) : nat :=
  match before with
  | [] => 1%nat
  | c1 :: r2 =>
    if RuneStart c1 then 2%nat
    else match r2 with
    | [] => 2%nat
    | c2 :: r3 =>
      if RuneStart c2 then 3%nat
      else match r3 with
      | [] => 3%nat
      | c3 :: r4 =>
        if RuneStart c3 then 4%nat
        else match r4 with
        | [] => 4%nat
        | _ :: _ => 5%nat
        end
      end
    end
  end.

(** [DecodeLastRuneInString] on the reversed string [rs] (last byte
    first): the last rune of the string and its width. *)
Definition DecodeLastRuneInString (rs : bytes) : Z * Z :=
  match rs with
  | [] => (RuneError, 0)
  | c :: before =>
    let r := byteZ c in
    if r <? RuneSelf then (r, 1)
    else
      let span := lastRuneSpan before in
      let '(r, size) := DecodeRuneInString (reverse (firstn span rs)) in
      if negb (size =? Z.of_nat span) then (RuneError, 1) else (r, size)
  end.

End utf8.

(* ================================================================= *)
(** ** unicode *)

Module unicode.

Definition MaxLatin1 : Z := 0xFF.

(** The 16-bit ranges of the table [White_Space] (lo, hi), stride 1. *)
Definition White_Space : list (Z * Z) :=
  [ (0x0009, 0x000d); (0x0020, 0x0020); (0x0085, 0x0085); (0x00a0, 0x00a0);
    (0x1680, 0x1680); (0x2000, 0x200a); (0x2028, 0x2029); (0x202f, 0x202f);
    (0x205f, 0x205f); (0x3000, 0x3000) ].

Definition isExcludingLatin (tab : list (Z * Z)) (r : Z) : bool :=
  existsb (fun '(lo, hi) => (MaxLatin1 <? lo) && (lo <=? r) && (r <=? hi)) tab.

Definition IsSpace (r : Z) : bool :=
  if (0 <=? r) && (r <=? MaxLatin1) then
    (r =? 0x09) || (r =? 0x0A) || (r =? 0x0B) || (r =? 0x0C) || (r =? 0x0D)
    || (r =? 0x20) || (r =? 0x85) || (r =? 0xA0)
  else isExcludingLatin White_Space r.

End unicode.

(* ================================================================= *)
(** ** strings *)

Module gostrings.

(** The table [asciiSpace]. *)
Definition asciiSpace (c : ascii) : bool :=
  let b := byteZ c in
  (b =? 0x09) || (b =? 0x0A) || (b =? 0x0B) || (b =? 0x0C) || (b =? 0x0D)
  || (b =? 0x20).

(** [TrimLeftFunc s f]: the loop of [indexFunc s f false] over the runes
    of [s]; one step decodes a rune and moves past it.  A rune is at least
    one byte wide, so [length s] steps reach the end of [s]. *)
Fixpoint trimLeftLoop (fuel : nat) (f : Z -> bool) (s : bytes) : bytes :=
  match fuel with
  | O => []
  | S fuel' =>
    match s with
    | [] => []
    | _ :: _ =>
      let '(r, size) := utf8.DecodeRuneInString s in
      if f r then trimLeftLoop fuel' f (skipn (Z.to_nat size) s) else s
    end
  end.

Definition TrimLeftFunc (s : bytes) (f : Z -> bool) : bytes :=
  trimLeftLoop (length s) f s.

(** [TrimRightFunc s f]: the loop of [lastIndexFunc s f false] from the end
    of [s].  [rs] is the part [s[0:i]] still to be examined, reversed, and
    [tail] is [s[i:]].  When the rune found at [i] is not trimmed the source
    decodes [s[i:]] again, forwards, to find where to cut. *)
Fixpoint trimRightLoop (fuel : nat) (f : Z -> bool) (rs tail : bytes) : bytes :=
  match fuel with
  | O => []
  | S fuel' =>
    match rs with
    | [] => []
    | _ :: _ =>
      let '(r, size) := utf8.DecodeLastRuneInString rs in
      let n := Z.to_nat size in
      let rest := reverse (firstn n rs) ++ tail in
      if f r then trimRightLoop fuel' f (skipn n rs) rest
      else
        let wid :=
          match rest with
          | c :: _ =>
            if utf8.RuneSelf <=? byteZ c
            then snd (utf8.DecodeRuneInString rest) else 1
          | [] => 1
          end in
        reverse (skipn n rs) ++ firstn (Z.to_nat wid) rest
    end
  end.

Definition TrimRightFunc (s : bytes) (f : Z -> bool) : bytes :=
  trimRightLoop (length s) f (reverse s) [].

Definition TrimFunc (s : bytes) (f : Z -> bool) : bytes :=
  TrimRightFunc (TrimLeftFunc s f) f.

(** The second loop of [TrimSpace], from the end, on the reversed string. *)
Fixpoint trimSpaceStop (rs : bytes) : bytes :=
  match rs with
  | [] => []
  | c :: rs' =>
    if utf8.RuneSelf <=? byteZ c then TrimRightFunc (reverse rs) unicode.IsSpace
    else if asciiSpace c then trimSpaceStop rs'
    else reverse rs
  end.

(** [TrimSpace]: the fast path over ASCII bytes, falling back to the
    rune-aware functions at the first byte that is not ASCII. *)
Fixpoint TrimSpace (s : bytes) : bytes :=
  match s with
  | [] => []
  | c :: s' =>
    if utf8.RuneSelf <=? byteZ c then TrimFunc s unicode.IsSpace
    else if asciiSpace c then TrimSpace s'
    else trimSpaceStop (reverse s)
  end.

(** [trimLeftByte s c]: [s] without its leading bytes [c].  [TrimLeft s
    cutset] is [trimLeftByte s c] when the cutset is the one ASCII byte
    [c], which is how package main calls it. *)
Fixpoint trimLeftByte (s : bytes) (c : ascii) : bytes :=
  match s with
  | b :: s' => if Ascii.eqb b c then trimLeftByte s' c else s
  | [] => s
  end.

End gostrings.


(* ================================================================= *)
(** ** bufio *)

Module bufio.

(** [MaxScanTokenSize]: the size of the largest buffer a [Scanner] made by
    [NewScanner] allocates. *)
Definition MaxScanTokenSize : Z := 64 * 1024.

Definition LF : ascii := "010"%char.
Definition CR : ascii := "013"%char.

(** [bytes.IndexByte data c], -1 when [c] does not occur. *)
Fixpoint IndexByte (data : bytes) (c : ascii) : Z :=
  match data with
  | [] => -1
  | b :: data' =>
    if Ascii.eqb b c then 0
    else let i := IndexByte data' c in if i <? 0 then -1 else i + 1
  end.

(** [dropCR] drops a terminal carriage return from the data. *)
Definition dropCR (data : bytes) : bytes :=
  match reverse data with
  | c :: r => if Ascii.eqb c CR then reverse r else data
  | [] => data
  end.

(** The split function [ScanLines]: the number of bytes to advance and the
    token, [None] asking for more data. *)
Definition ScanLines (data : bytes) (atEOF : bool) : Z * option bytes :=
  if atEOF && (Z.of_nat (length data) =? 0) then (0, None)
  else
    let i := IndexByte data LF in
    if 0 <=? i then
      (* We have a full newline-terminated line. *)
      (i + 1, Some (dropCR (firstn (Z.to_nat i) data)))
    else if atEOF then
      (* A final, non-terminated line. *)
      (Z.of_nat (length data), Some (dropCR data))
    else (0, None).

(** A [Scanner] reading from a [bytes.Reader]: [src] is the input not yet
    consumed (buffered or still in the reader). *)
Record Scanner := { src : bytes; maxTokenSize : Z }.

Definition NewScanner (r : bytes) : Scanner :=
  {| src := r; maxTokenSize := MaxScanTokenSize |}.

(** [Scan] advances to the next token, [None] when the scan stops.  The
    buffer grows until it holds [maxTokenSize] bytes: the split function
    sees at most the first [maxTokenSize] bytes of the remaining input, and
    learns that the input has ended only if the end was read before the
    buffer was full.  With a full buffer and no token the scanner gives up
    with [ErrTooLong] and [Scan] returns false, as it does at the end of
    the input. *)
Definition Scan (s : Scanner) : option (bytes * Scanner) :=
  let buf := firstn (Z.to_nat (maxTokenSize s)) (src s) in
  let atEOF := Z.of_nat (length (src s)) <? maxTokenSize s in
  match ScanLines buf atEOF with
  | (advance, Some token) =>
      Some (token, {| src := skipn (Z.to_nat advance) (src s);
                      maxTokenSize := maxTokenSize s |})
  | (_, None) => None
  end.

End bufio.

(* ================================================================= *)
(** ** fmt and strconv *)

Definition error := bytes.

Module fmt.

(** The verb [%d] on an integer. *)
Definition d (n : Z) : bytes := NilZero.string_of_int (Z.to_int n).

End fmt.

Module strconv.

Definition maxUint64 : Z := 2 ^ 64 - 1.

Inductive Err := ErrRange | ErrSyntax.

Record NumError := { Func : bytes; Num : bytes; NumErr : Err }.

Definition lower (c : Z) : Z := Z.lor c (0x78 - 0x58).

(** [ParseUint s 10 64]: the package calls [ParseUint] with base 10 and bit
    size 64 only, and these two arguments are fixed here.  [n] is a uint64:
    [n *= 10] and [n + d] wrap around. *)
Fixpoint parseLoop (s0 : bytes) (s : bytes) (n : Z) : Z * option NumError :=
  let base := 10 in
  let cutoff := maxUint64 / 10 + 1 in
  let maxVal := maxUint64 in
  match s with
  | [] => (n, None)
  | ch :: s' =>
    let c := byteZ ch in
    let dres :=
      if (0x30 <=? c) && (c <=? 0x39) then Some (c - 0x30)
      else if (0x61 <=? lower c) && (lower c <=? 0x7A) then Some (lower c - 0x61 + 10)
      else None in
    match dres with
    | None => (0, Some {| Func := "ParseUint"%string; Num := s0; NumErr := ErrSyntax |})
    | Some d =>
      if base <=? d then
        (0, Some {| Func := "ParseUint"%string; Num := s0; NumErr := ErrSyntax |})
      else if cutoff <=? n then
        (* n*base overflows *)
        (maxVal, Some {| Func := "ParseUint"%string; Num := s0; NumErr := ErrRange |})
      else
        let n := (n * base) mod 2 ^ 64 in
        let n1 := (n + d) mod 2 ^ 64 in
        if (n1 <? n) || (maxVal <? n1) then
          (* n+d overflows *)
          (maxVal, Some {| Func := "ParseUint"%string; Num := s0; NumErr := ErrRange |})
        else parseLoop s0 s' n1
    end
  end.

Definition ParseUint (s : bytes) : Z * option NumError :=
  match s with
  | [] => (0, Some {| Func := "ParseUint"%string; Num := s; NumErr := ErrSyntax |})
  | _ :: _ => parseLoop s s 0
  end.

Definition hexDigit (n : Z) : ascii :=
  nth (Z.to_nat n) (list_ascii_of_string "0123456789abcdef") "0"%char.

Definition dquote : ascii := "034"%char.
Definition backslash : ascii := "092"%char.

(** [Quote s] on ASCII bytes: the quote and the backslash are escaped,
    printable bytes stand for themselves, control bytes are written with
    their escapes.  A byte above 0x7F is copied (the source consults the
    Unicode tables there); the strings quoted in this package are the
    captures of [\d+], which hold ASCII digits only. *)
Definition quoteByte (ch : ascii) : bytes :=
  let c := byteZ ch in
  if Ascii.eqb ch dquote || Ascii.eqb ch backslash then [backslash; ch]
  else if (0x20 <=? c) && (c <? 0x7F) then [ch]
  else if c =? 0x07 then [backslash; "a"%char]
  else if c =? 0x08 then [backslash; "b"%char]
  else if c =? 0x0C then [backslash; "f"%char]
  else if c =? 0x0A then [backslash; "n"%char]
  else if c =? 0x0D then [backslash; "r"%char]
  else if c =? 0x09 then [backslash; "t"%char]
  else if c =? 0x0B then [backslash; "v"%char]
  else if c <? 0x80 then [backslash; "x"%char; hexDigit (c / 16); hexDigit (c mod 16)]
  else [ch].

Definition Quote (s : bytes) : bytes :=
  [dquote] ++ concat (map quoteByte s) ++ [dquote].

Definition Err_Error (e : Err) : bytes :=
  match e with
  | ErrRange => "value out of range"%string
  | ErrSyntax => "invalid syntax"%string
  end.

Definition NumError_Error (e : NumError) : error :=
  "strconv."%string ++ Func e ++ ": parsing "%string ++ Quote (Num e)
    ++ ": "%string ++ Err_Error (NumErr e).

(** [FormatUint i 10]: the decimal numeral of [i]. *)
Definition FormatUint (i : Z) : bytes :=
  NilZero.string_of_uint (N.to_uint (Z.to_N i)).

End strconv.

(* ================================================================= *)
(** ** regexp *)

Module regexp.

(** The operators of [regexp/syntax] that the three line patterns are made
    of.  A character class is a list of ranges (lo, hi); [OpPlus] repeats a
    character class, which is all the patterns repeat; [OpCapture] carries
    the index of its group. *)
Inductive Regexp :=
| OpLiteral (lit : bytes)
| OpCharClass (cls : list (Z * Z))
| OpPlus (cls : list (Z * Z))
| OpCapture (cap : nat) (sub : Regexp)
| OpConcat (sub1 sub2 : Regexp)
| OpBeginText
| OpEndText.

(** The Perl classes [\d] and [\s]. *)
Definition perl_d : list (Z * Z) := [(0x30, 0x39)].
Definition perl_s : list (Z * Z) := [(0x09, 0x0A); (0x0C, 0x0D); (0x20, 0x20)].

Definition inClass (cls : list (Z * Z)) (c : ascii) : bool :=
  existsb (fun '(lo, hi) => (lo <=? byteZ c) && (byteZ c <=? hi)) cls.

Fixpoint NumSubexp (re : Regexp) : nat :=
  match re with
  | OpCapture cap sub => Nat.max cap (NumSubexp sub)
  | OpConcat sub1 sub2 => Nat.max (NumSubexp sub1) (NumSubexp sub2)
  | _ => 0%nat
  end.

(** [s] starts with [lit]: what is left of [s] after it. *)
Fixpoint stripPrefix (lit s : bytes) : option bytes :=
  match lit, s with
  | [], _ => Some s
  | a :: lit', b :: s' => if Ascii.eqb a b then stripPrefix lit' s' else None
  | _ :: _, [] => None
  end.

Section Matcher.

(** The state of a match: the offset [pos] in the text, the text [s] from
    that offset on, and the submatches found so far.  The matcher is a
    backtracking one: a pattern is matched against a prefix of [s] and the
    continuation [k] is run on what follows; the first success in the order
    of preference is the leftmost-first match. *)
Variable R : Type.

Definition cont := nat -> bytes -> list bytes -> option R.

(** The greedy loop of [OpPlus], after its first character: one more
    character of the class is preferred to stopping. *)
Fixpoint plusLoop (cls : list (Z * Z)) (pos : nat) (s : bytes)
    (caps : list bytes) (k : cont) : option R :=
  match s with
  | c :: s' =>
    if inClass cls c then
      match plusLoop cls (S pos) s' caps k with
      | Some r => Some r
      | None => k pos s caps
      end
    else k pos s caps
  | [] => k pos s caps
  end.

Fixpoint matchAt (re : Regexp) (pos : nat) (s : bytes) (caps : list bytes)
    (k : cont) : option R :=
  match re with
  | OpLiteral lit =>
    match stripPrefix lit s with
    | Some s' => k (pos + length lit)%nat s' caps
    | None => None
    end
  | OpCharClass cls =>
    match s with
    | c :: s' => if inClass cls c then k (S pos) s' caps else None
    | [] => None
    end
  | OpPlus cls =>
    match s with
    | c :: s' => if inClass cls c then plusLoop cls (S pos) s' caps k else None
    | [] => None
    end
  | OpCapture cap sub =>
    matchAt sub pos s caps
      (fun pos' s' caps' => k pos' s' (<[cap := firstn (pos' - pos) s]> caps'))
  | OpConcat sub1 sub2 =>
    matchAt sub1 pos s caps (fun pos' s' caps' => matchAt sub2 pos' s' caps' k)
  | OpBeginText => if Nat.eqb pos 0 then k pos s caps else None
  | OpEndText => match s with [] => k pos s caps | _ :: _ => None end
  end.

End Matcher.

(** The leftmost match: the offsets of the text are tried in order. *)
Fixpoint findFrom (re : Regexp) (pos : nat) (s : bytes) : list bytes :=
  match matchAt (list bytes) (OpCapture 0 re) pos s
          (replicate (S (NumSubexp re)) [])
          (fun _ _ caps => Some caps) with
  | Some caps => caps
  | None =>
    match s with
    | [] => []
    | _ :: s' => findFrom re (S pos) s'
    end
  end.

(** [re.FindStringSubmatch s]: the text of the leftmost match and of its
    groups, nil when there is no match. *)
Definition FindStringSubmatch (re : Regexp) (s : bytes) : list bytes :=
  findFrom re 0 s.

End regexp.

(* ================================================================= *)
(** ** float64 *)

(** IEEE 754 binary64, as specified by [SpecFloat]: 53 bits of precision,
    exponents below 1024. *)
Definition float64 := spec_float.

(** The conversion [float64(v)] of a uint64: [v] rounded to the nearest
    binary64, ties to even. *)
Definition float64_of_uint64 (v : Z) : float64 :=
  binary_normalize 53 1024 v 0 false.

(** The integer a float64 denotes, when it denotes one. *)
Definition float64_to_Z (f : float64) : option Z :=
  match f with
  | S754_zero _ => Some 0
  | S754_finite sg m e =>
    let v :=
      if 0 <=? e then Some (Z.pos m * 2 ^ e)
      else if Z.pos m mod 2 ^ (- e) =? 0 then Some (Z.pos m / 2 ^ (- e))
      else None in
    if sg then option_map Z.opp v else v
  | _ => None
  end.

(* ================================================================= *)
(** ** prometheus/client_model *)

Module dto.

Inductive MetricType :=
| MetricType_COUNTER
| MetricType_GAUGE
| MetricType_SUMMARY
| MetricType_UNTYPED
| MetricType_HISTOGRAM.

Definition MetricType_eqb (a b : MetricType) : bool :=
  match a, b with
  | MetricType_COUNTER, MetricType_COUNTER
  | MetricType_GAUGE, MetricType_GAUGE
  | MetricType_SUMMARY, MetricType_SUMMARY
  | MetricType_UNTYPED, MetricType_UNTYPED
  | MetricType_HISTOGRAM, MetricType_HISTOGRAM => true
  | _, _ => false
  end.

Record LabelPair := { LabelPair_Name : bytes; LabelPair_Value : bytes }.

Record Gauge := { Gauge_Value : float64 }.

Record Counter := { Counter_Value : float64 }.

(** A [Metric]; the fields the package leaves nil other than [Gauge] and
    [Counter] (Summary, Untyped, Histogram) are left out. *)
Record Metric := {
  Label : list LabelPair;
  Metric_Gauge : option Gauge;
  Metric_Counter : option Counter;
  TimestampMs : Z
}.

Record MetricFamily := {
  Name : bytes;
  Help : bytes;
  Type_ : MetricType;
  Metric_ : list Metric
}.

End dto.

(* ================================================================= *)
(** ** net/http, as far as [loadData] looks at it *)

Module http.

Definition StatusOK : Z := 200.

(** A response: its status code and what reading its body to the end
    gives, the bytes read and the error that stopped the read, if any. *)
Record Response := {
  StatusCode : Z;
  Body : bytes * option error
}.

(** What [client.Get url] returns for a client with the given timeout: a
    response or a transport error (connection, DNS, timeout).  The network
    is outside the program: it is a parameter of [loadData]. *)
Definition RoundTrip := bytes -> Z -> Response + error.

End http.

(* ================================================================= *)
(** ** time *)

Module time.

(** An instant, in nanoseconds since the Unix epoch. *)
Definition Time := Z.

Definition UnixMilli (t : Time) : Z := t / 1000000.

(** The clock behind a time source: the instants it will report, call
    after call, and the number of calls made so far. *)
Record Clock := { readings : nat -> Time; calls : nat }.

Definition Now (w : Clock) : Time * Clock :=
  (readings w (calls w), {| readings := readings w; calls := S (calls w) |}).

(** A [Duration] is an int64 count of nanoseconds. *)
Definition Second : Z := 1000000000.

(** The product of two durations, with the wrap-around of int64. *)
Definition Duration_mul (a b : Z) : Z := (a * b + 2 ^ 63) mod 2 ^ 64 - 2 ^ 63.

End time.

(* ================================================================= *)
(** ** package nginx *)

Module nginx.

Record MetricDesc := { help : bytes; metricType : dto.MetricType }.

Definition labelHost : bytes := "host"%string.
Definition labelPort : bytes := "port"%string.

(** ^Active connections: (\d+)$ *)
Definition line1Regex : regexp.Regexp :=
  regexp.OpConcat regexp.OpBeginText
    (regexp.OpConcat (regexp.OpLiteral "Active connections: "%string)
      (regexp.OpConcat (regexp.OpCapture 1 (regexp.OpPlus regexp.perl_d))
        regexp.OpEndText)).

(** ^(\d+)\s+(\d+)\s+(\d+)$ *)
Definition line3Regex : regexp.Regexp :=
  regexp.OpConcat regexp.OpBeginText
    (regexp.OpConcat (regexp.OpCapture 1 (regexp.OpPlus regexp.perl_d))
      (regexp.OpConcat (regexp.OpPlus regexp.perl_s)
        (regexp.OpConcat (regexp.OpCapture 2 (regexp.OpPlus regexp.perl_d))
          (regexp.OpConcat (regexp.OpPlus regexp.perl_s)
            (regexp.OpConcat (regexp.OpCapture 3 (regexp.OpPlus regexp.perl_d))
              regexp.OpEndText))))).

(** ^Reading:\s+(\d+)\s+Writing:\s+(\d+)\s+Waiting:\s+(\d+)$ *)
Definition line4Regex : regexp.Regexp :=
  regexp.OpConcat regexp.OpBeginText
    (regexp.OpConcat (regexp.OpLiteral "Reading:"%string)
      (regexp.OpConcat (regexp.OpPlus regexp.perl_s)
        (regexp.OpConcat (regexp.OpCapture 1 (regexp.OpPlus regexp.perl_d))
          (regexp.OpConcat (regexp.OpPlus regexp.perl_s)
            (regexp.OpConcat (regexp.OpLiteral "Writing:"%string)
              (regexp.OpConcat (regexp.OpPlus regexp.perl_s)
                (regexp.OpConcat (regexp.OpCapture 2 (regexp.OpPlus regexp.perl_d))
                  (regexp.OpConcat (regexp.OpPlus regexp.perl_s)
                    (regexp.OpConcat (regexp.OpLiteral "Waiting:"%string)
                      (regexp.OpConcat (regexp.OpPlus regexp.perl_s)
                        (regexp.OpConcat (regexp.OpCapture 3 (regexp.OpPlus regexp.perl_d))
                          regexp.OpEndText))))))))))).

Definition metricHelp : gmap bytes MetricDesc :=
  list_to_map
    [ ("nginx_active"%string : bytes,
        {| help := "number of active connections"%string; metricType := dto.MetricType_GAUGE |});
      ("nginx_handled"%string : bytes,
        {| help := "handled connections"%string; metricType := dto.MetricType_COUNTER |});
      ("nginx_accepts"%string : bytes,
        {| help := "accepted connections"%string; metricType := dto.MetricType_COUNTER |});
      ("nginx_requests"%string : bytes,
        {| help := "handled requests"%string; metricType := dto.MetricType_COUNTER |});
      ("nginx_reading"%string : bytes,
        {| help := "reading requests"%string; metricType := dto.MetricType_GAUGE |});
      ("nginx_writing"%string : bytes,
        {| help := "writing requests"%string; metricType := dto.MetricType_GAUGE |});
      ("nginx_waiting"%string : bytes,
        {| help := "keep-alive connections"%string; metricType := dto.MetricType_GAUGE |}) ].

(** The variable [nowFn], [time.Now] unless a test replaces it: reading it
    is a call to the clock [w]. *)
Definition nowFn (w : time.Clock) : time.Time * time.Clock := time.Now w.

(** [loadData]: one GET through the client [rt]; the body of the response
    when the status is 200 and the body could be read to its end. *)
Definition loadData (rt : http.RoundTrip) (url : bytes) (timeout : Z)
    : bytes * option error :=
  match rt url timeout with
  | inr err => ([], Some err)
  | inl resp =>
    if negb (http.StatusCode resp =? http.StatusOK) then
      ([], Some ("invalid nginx status code: "%string ++ fmt.d (http.StatusCode resp)))
    else
      let '(body, err) := http.Body resp in
      match err with
      | Some e => ([], Some ("error reading body content: "%string ++ e))
      | None => (body, None)
      end
  end.

Definition addNewCounterMetric (family : dto.MetricFamily) (value : float64)
    (timestampMS : Z) (host port : bytes) : dto.MetricFamily :=
  let counter :=
    {| dto.Label := [ {| dto.LabelPair_Name := labelHost; dto.LabelPair_Value := host |};
                      {| dto.LabelPair_Name := labelPort; dto.LabelPair_Value := port |} ];
       dto.Metric_Gauge := None;
       dto.Metric_Counter := Some {| dto.Counter_Value := value |};
       dto.TimestampMs := timestampMS |} in
  {| dto.Name := dto.Name family; dto.Help := dto.Help family;
     dto.Type_ := dto.Type_ family;
     dto.Metric_ := dto.Metric_ family ++ [counter] |}.

Definition addNewGaugeMetric (family : dto.MetricFamily) (value : float64)
    (timestampMS : Z) (host port : bytes) : dto.MetricFamily :=
  let gauge :=
    {| dto.Label := [ {| dto.LabelPair_Name := labelHost; dto.LabelPair_Value := host |};
                      {| dto.LabelPair_Name := labelPort; dto.LabelPair_Value := port |} ];
       dto.Metric_Gauge := Some {| dto.Gauge_Value := value |};
       dto.Metric_Counter := None;
       dto.TimestampMs := timestampMS |} in
  {| dto.Name := dto.Name family; dto.Help := dto.Help family;
     dto.Type_ := dto.Type_ family;
     dto.Metric_ := dto.Metric_ family ++ [gauge] |}.

Definition addNewMetric (metrics : list dto.MetricFamily) (metricType : bytes)
    (value : Z) (timestampMS : Z) (hostname port : bytes)
    : list dto.MetricFamily :=
  match metricHelp !! metricType with
  | None => metrics
  | Some metricDesc =>
    let family :=
      {| dto.Name := metricType; dto.Help := help metricDesc;
         dto.Type_ := nginx.metricType metricDesc; dto.Metric_ := [] |} in
    let family :=
      if dto.MetricType_eqb (nginx.metricType metricDesc) dto.MetricType_COUNTER then
        addNewCounterMetric family (float64_of_uint64 value) timestampMS hostname port
      else if dto.MetricType_eqb (nginx.metricType metricDesc) dto.MetricType_GAUGE then
        addNewGaugeMetric family (float64_of_uint64 value) timestampMS hostname port
      else family in
    metrics ++ [family]
  end.

(** The loop [for scanner.Scan() { ... }] of [extractMetrics]: the lines of
    the content, trimmed, the empty ones left out.  A call of [Scan] that
    returns a token consumes at least one byte of the input. *)
Fixpoint scanLoop (fuel : nat) (scanner : bufio.Scanner) (lines : list bytes)
    : list bytes :=
  match fuel with
  | O => lines
  | S fuel' =>
    match bufio.Scan scanner with
    | None => lines
    | Some (text, scanner') =>
      let line := gostrings.TrimSpace text in
      scanLoop fuel' scanner'
        (match line with [] => lines | _ :: _ => lines ++ [line] end)
    end
  end.

Definition scanLines (content : bytes) : list bytes :=
  scanLoop (S (length content)) (bufio.NewScanner content) [].

(** lines[i] and the like, on indices the code has checked. *)
Definition at_ (l : list bytes) (i : nat) : bytes := nth i l [].

Definition Errorf_s (prefix : string) (arg : bytes) : error :=
  list_ascii_of_string prefix ++ arg.

(** [extractMetrics] parses the metrics from the nginx status page output
    and returns the metrics; nil and an error on a failure. *)
Definition extractMetrics (w : time.Clock) (content : bytes) (hostname port : bytes)
    : (list dto.MetricFamily * option error) * time.Clock :=
  let metrics : list dto.MetricFamily := [] in
  let '(now, w) := nowFn w in
  let nowMS := time.UnixMilli now in
  let lines := scanLines content in
  ((* make sure there are 4 lines *)
   if negb (Z.of_nat (length lines) =? 4) then
     ([], Some (Errorf_s "4 output lines are expected, got " (fmt.d (Z.of_nat (length lines)))))
   else
   (* First line *)
   let line1Match := regexp.FindStringSubmatch line1Regex (at_ lines 0) in
   if negb (Z.of_nat (length line1Match) =? 2) then
     ([], Some (Errorf_s "unexpected input for line 1: " (at_ lines 0)))
   else
   match strconv.ParseUint (at_ line1Match 1) with
   | (_, Some err) =>
     ([], Some (Errorf_s "invalid number of connections: " (strconv.NumError_Error err)))
   | (active, None) =>
   let metrics := addNewMetric metrics "nginx_active"%string active nowMS hostname port in
   (* Third line *)
   let line3Match := regexp.FindStringSubmatch line3Regex (at_ lines 2) in
   if negb (Z.of_nat (length line3Match) =? 4) then
     ([], Some (Errorf_s "unexpected input for line 3: " (at_ lines 0)))
   else
   match strconv.ParseUint (at_ line3Match 1) with
   | (_, Some err) =>
     ([], Some (Errorf_s "invalid accepts value: " (strconv.NumError_Error err)))
   | (accepts, None) =>
   let metrics := addNewMetric metrics "nginx_accepts"%string accepts nowMS hostname port in
   match strconv.ParseUint (at_ line3Match 2) with
   | (_, Some err) =>
     ([], Some (Errorf_s "invalid handled value: " (strconv.NumError_Error err)))
   | (handled, None) =>
   let metrics := addNewMetric metrics "nginx_handled"%string handled nowMS hostname port in
   match strconv.ParseUint (at_ line3Match 3) with
   | (_, Some err) =>
     ([], Some (Errorf_s "invalid requests value: " (strconv.NumError_Error err)))
   | (requests, None) =>
   let metrics := addNewMetric metrics "nginx_requests"%string requests nowMS hostname port in
   (* Fourth line *)
   let line4Match := regexp.FindStringSubmatch line4Regex (at_ lines 3) in
   if negb (Z.of_nat (length line4Match) =? 4) then
     ([], Some (Errorf_s "unexpected input for line 4: " (at_ lines 0)))
   else
   match strconv.ParseUint (at_ line4Match 1) with
   | (_, Some err) =>
     ([], Some (Errorf_s "invalid reading value: " (strconv.NumError_Error err)))
   | (reading, None) =>
   let metrics := addNewMetric metrics "nginx_reading"%string reading nowMS hostname port in
   match strconv.ParseUint (at_ line4Match 2) with
   | (_, Some err) =>
     ([], Some (Errorf_s "invalid writing value: " (strconv.NumError_Error err)))
   | (writing, None) =>
   let metrics := addNewMetric metrics "nginx_writing"%string writing nowMS hostname port in
   match strconv.ParseUint (at_ line4Match 3) with
   | (_, Some err) =>
     ([], Some (Errorf_s "invalid waiting value: " (strconv.NumError_Error err)))
   | (waiting, None) =>
   let metrics := addNewMetric metrics "nginx_waiting"%string waiting nowMS hostname port in
   (metrics, None)
   end end end end end end end, w).

(** [GetMetrics] loads the data from the NGINX status URL and generates
    the metrics from the content. *)
Definition GetMetrics (rt : http.RoundTrip) (w : time.Clock)
    (url hostname port : bytes) (timeout : Z)
    : (list dto.MetricFamily * option error) * time.Clock :=
  match loadData rt url timeout with
  | (_, Some err) => (([], Some err), w)
  | (data, None) => extractMetrics w data hostname port
  end.

End nginx.


(* ================================================================= *)
(** ** The payload as text: lines, white space, numerals *)

(** The lines of a payload are what the line feeds separate; [joinLF] puts
    them together again. *)
Fixpoint splitLF (content : bytes) : list bytes :=
  match content with
  | [] => [[]]
  | c :: rest =>
    if Ascii.eqb c bufio.LF then [] :: splitLF rest
    else match splitLF rest with
         | l :: ls => (c :: l) :: ls
         | [] => [[c]]
         end
  end.

Fixpoint joinLF (ls : list bytes) : bytes :=
  match ls with
  | [] => []
  | [l] => l
  | l :: ls' => l ++ bufio.LF :: joinLF ls'
  end.

Definition noLF (l : bytes) : bool :=
  forallb (fun c => negb (Ascii.eqb c bufio.LF)) l.

Definition nonEmpty (l : bytes) : bool :=
  match l with [] => false | _ :: _ => true end.

(** The non-blank lines of a payload, each trimmed: the lines that are
    neither empty nor made of white space only. *)
Definition nonBlankLines (content : bytes) : list bytes :=
  List.filter nonEmpty (map gostrings.TrimSpace (splitLF content)).

(** A line the scanner can hold: shorter than its largest buffer. *)
Definition fitsScanner (l : bytes) : bool :=
  Z.of_nat (length l) <? bufio.MaxScanTokenSize.

(** The lines the scanner delivers: those before the first line that does
    not fit. *)
Fixpoint deliverable (ls : list bytes) : list bytes :=
  match ls with
  | [] => []
  | l :: ls' => if fitsScanner l then l :: deliverable ls' else []
  end.

(** White space: a string all of whose runes are white space for
    [unicode.IsSpace]. *)
Definition IsSpaceString (ws : bytes) : bool :=
  negb (nonEmpty (gostrings.TrimLeftFunc ws unicode.IsSpace)).

(** The line [l] with white space [lead] before it and [trail] after it. *)
Definition padLine (p : bytes * bytes) (l : bytes) : bytes :=
  fst p ++ l ++ snd p.

Fixpoint padLines (ps : list (bytes * bytes)) (ls : list bytes) : list bytes :=
  match ps, ls with
  | p :: ps', l :: ls' => padLine p l :: padLines ps' ls'
  | _, _ => ls
  end.

Definition isDigit (c : ascii) : bool := (0x30 <=? byteZ c) && (byteZ c <=? 0x39).

(** A decimal numeral and the number it writes. *)
Definition isNumeral (s : bytes) : bool := nonEmpty s && forallb isDigit s.

Definition decStep (n : Z) (c : ascii) : Z := 10 * n + (byteZ c - 0x30).

Definition decimalValue (s : bytes) : Z := fold_left decStep s 0.

(** The error of [extractMetrics] for a field that does not parse:
    the message of the field, then the error of [ParseUint]. *)
Definition rangeError (prefix : string) (num : bytes) : error :=
  nginx.Errorf_s prefix
    (strconv.NumError_Error
       {| strconv.Func := "ParseUint"%string; strconv.Num := num;
          strconv.NumErr := strconv.ErrRange |}).

(** The first of the fields, in the order the code parses them, whose
    numeral does not fit a uint64. *)
Definition firstOverflow (fields : list (string * bytes)) : option (string * bytes) :=
  List.find (fun f => strconv.maxUint64 <? decimalValue (snd f)) fields.

(** A line the code accepts in position 1, 3 or 4: the pattern matches
    with [n] groups and every group parses. *)
Definition lineValid (re : regexp.Regexp) (n : nat) (l : bytes) : bool :=
  let m := regexp.FindStringSubmatch re l in
  Nat.eqb (length m) (S n)
  && forallb (fun x => match strconv.ParseUint x with (_, None) => true | _ => false end)
             (tl m).

(** The sample of a record: the value its one [Metric] carries, with the
    field that carries it. *)
Inductive Sample := GaugeSample (v : float64) | CounterSample (v : float64).

Definition sampleOf (m : dto.Metric) : option Sample :=
  match dto.Metric_Gauge m, dto.Metric_Counter m with
  | Some g, None => Some (GaugeSample (dto.Gauge_Value g))
  | None, Some c => Some (CounterSample (dto.Counter_Value c))
  | _, _ => None
  end.

Definition sampleValue (s : Sample) : float64 :=
  match s with GaugeSample v => v | CounterSample v => v end.

(** The integers the records of a result carry, record by record. *)
Definition valuesOf (ms : list dto.MetricFamily) : list (list (option Z)) :=
  map (fun f => map (fun m => match sampleOf m with
                              | Some s => float64_to_Z (sampleValue s)
                              | None => None
                              end) (dto.Metric_ f)) ms.

(* ================================================================= *)
(** ** The inputs of the tests of the package *)

Definition NL : bytes := [bufio.LF].
Definition outputLine1Ok : bytes := "Active connections: 33"%string.
Definition outputLine2Ok : bytes := "server accepts handled requests"%string.
Definition outputLine3Ok : bytes := "1237 89 91"%string.
Definition outputLine4Ok : bytes := "Reading: 55 Writing: 767 Waiting: 1234"%string.
Definition allLinesOk : bytes :=
  outputLine1Ok ++ NL ++ outputLine2Ok ++ NL ++ outputLine3Ok ++ NL
    ++ outputLine4Ok ++ NL.

Definition hostname : bytes := "myhost.sensu.local"%string.
Definition port : bytes := "3456"%string.

(** The record [TestExtractMetrics] expects for a key and a value. *)
Definition expectedMetric (key : bytes) (value : float64) (nowMS : Z)
    : option dto.MetricFamily :=
  match nginx.metricHelp !! key with
  | None => None
  | Some details =>
    let label :=
      [ {| dto.LabelPair_Name := nginx.labelHost; dto.LabelPair_Value := hostname |};
        {| dto.LabelPair_Name := nginx.labelPort; dto.LabelPair_Value := port |} ] in
    let dtoMetric :=
      match nginx.metricType details with
      | dto.MetricType_COUNTER =>
        {| dto.Label := label; dto.Metric_Gauge := None;
           dto.Metric_Counter := Some {| dto.Counter_Value := value |};
           dto.TimestampMs := nowMS |}
      | dto.MetricType_GAUGE =>
        {| dto.Label := label;
           dto.Metric_Gauge := Some {| dto.Gauge_Value := value |};
           dto.Metric_Counter := None; dto.TimestampMs := nowMS |}
      | _ =>
        {| dto.Label := label; dto.Metric_Gauge := None;
           dto.Metric_Counter := None; dto.TimestampMs := nowMS |}
      end in
    Some {| dto.Name := key; dto.Help := nginx.help details;
            dto.Type_ := nginx.metricType details; dto.Metric_ := [dtoMetric] |}
  end.

(** A clock for the examples: the n-th call reports n+5 milliseconds. *)
Definition testClock : time.Clock :=
  {| time.readings := fun n => 1000000 * Z.of_nat n + 5000000; time.calls := 0 |}.

(** A line of 65536 bytes, the size of the scanner's largest buffer. *)
Definition longLine : bytes :=
  List.repeat "a"%char (Z.to_nat bufio.MaxScanTokenSize).

(** The records of a successful extraction, for the seven parsed values. *)
Definition labelsOf (host port : bytes) : list dto.LabelPair :=
  [ {| dto.LabelPair_Name := nginx.labelHost; dto.LabelPair_Value := host |};
    {| dto.LabelPair_Name := nginx.labelPort; dto.LabelPair_Value := port |} ].

Definition gaugeFamily (name help : string) (value : Z) (ts : Z) (host port : bytes)
    : dto.MetricFamily :=
  {| dto.Name := name; dto.Help := help; dto.Type_ := dto.MetricType_GAUGE;
     dto.Metric_ :=
       [ {| dto.Label := labelsOf host port;
            dto.Metric_Gauge := Some {| dto.Gauge_Value := float64_of_uint64 value |};
            dto.Metric_Counter := None; dto.TimestampMs := ts |} ] |}.

Definition counterFamily (name help : string) (value : Z) (ts : Z) (host port : bytes)
    : dto.MetricFamily :=
  {| dto.Name := name; dto.Help := help; dto.Type_ := dto.MetricType_COUNTER;
     dto.Metric_ :=
       [ {| dto.Label := labelsOf host port; dto.Metric_Gauge := None;
            dto.Metric_Counter := Some {| dto.Counter_Value := float64_of_uint64 value |};
            dto.TimestampMs := ts |} ] |}.

Definition sevenRecords (ts : Z) (host port : bytes)
    (active accepts handled requests reading writing waiting : Z)
    : list dto.MetricFamily :=
  [ gaugeFamily "nginx_active" "number of active connections" active ts host port;
    counterFamily "nginx_accepts" "accepted connections" accepts ts host port;
    counterFamily "nginx_handled" "handled connections" handled ts host port;
    counterFamily "nginx_requests" "handled requests" requests ts host port;
    gaugeFamily "nginx_reading" "reading requests" reading ts host port;
    gaugeFamily "nginx_writing" "writing requests" writing ts host port;
    gaugeFamily "nginx_waiting" "keep-alive connections" waiting ts host port ].

(** The reading of the clock an invocation starts with, in milliseconds,
    and the clock after that one reading. *)
Definition firstReading (w : time.Clock) : Z :=
  time.UnixMilli (time.readings w (time.calls w)).

Definition afterOneCall (w : time.Clock) : time.Clock :=
  {| time.readings := time.readings w; time.calls := S (time.calls w) |}.

(** What a match of [re] is: it takes the state (pos, s, caps) of the
    matcher to the state (pos', s', caps'). *)
Fixpoint matches (re : regexp.Regexp) (pos : nat) (s : bytes) (caps : list bytes)
    (pos' : nat) (s' : bytes) (caps' : list bytes) : Prop :=
  match re with
  | regexp.OpLiteral lit =>
      s = lit ++ s' /\ pos' = (pos + length lit)%nat /\ caps' = caps
  | regexp.OpCharClass cls =>
      exists c, s = c :: s' /\ regexp.inClass cls c = true
        /\ pos' = S pos /\ caps' = caps
  | regexp.OpPlus cls =>
      exists m, nonEmpty m = true /\ forallb (regexp.inClass cls) m = true
        /\ s = m ++ s' /\ pos' = (pos + length m)%nat /\ caps' = caps
  | regexp.OpCapture cap sub =>
      exists caps0, matches sub pos s caps pos' s' caps0
        /\ caps' = <[cap := firstn (pos' - pos) s]> caps0
  | regexp.OpConcat sub1 sub2 =>
      exists pos1 s1 caps1, matches sub1 pos s caps pos1 s1 caps1
        /\ matches sub2 pos1 s1 caps1 pos' s' caps'
  | regexp.OpBeginText => pos = 0%nat /\ pos' = pos /\ s' = s /\ caps' = caps
  | regexp.OpEndText => s = [] /\ pos' = pos /\ s' = s /\ caps' = caps
  end.

(** The fields of the status page in the order the code parses them, each
    with the message the code gives its error. *)
Definition fieldsOf (active accepts handled requests reading writing waiting : bytes)
    : list (string * bytes) :=
  [ ("invalid number of connections: "%string, active);
    ("invalid accepts value: "%string, accepts);
    ("invalid handled value: "%string, handled);
    ("invalid requests value: "%string, requests);
    ("invalid reading value: "%string, reading);
    ("invalid writing value: "%string, writing);
    ("invalid waiting value: "%string, waiting) ].

(** What [extractMetrics] returns when its three patterns have matched
    with the groups given: the seven records when every numeral fits a
    uint64, and otherwise the error of the first field that does not. *)
Definition outcomeOf (ts : Z) (host port : bytes)
    (active accepts handled requests reading writing waiting : bytes)
    : list dto.MetricFamily * option error :=
  match firstOverflow
          (fieldsOf active accepts handled requests reading writing waiting) with
  | Some (prefix, num) => ([], Some (rangeError prefix num))
  | None =>
    (sevenRecords ts host port (decimalValue active) (decimalValue accepts)
       (decimalValue handled) (decimalValue requests) (decimalValue reading)
       (decimalValue writing) (decimalValue waiting), None)
  end.

(** What can follow a rune without changing how it decodes: nothing, or a
    byte that starts a rune. *)
Definition startsRune (t : bytes) : bool :=
  match t with
  | [] => true
  | c :: _ => utf8.RuneStart c
  end.

(** [e] is the complete encoding of the rune [r]: it decodes to [r]
    whatever follows it, its first byte starts a rune and the others are
    continuation bytes. *)
Definition validEnc (e : bytes) (r : Z) : Prop :=
  startsRune e = true
  /\ forallb (fun c => negb (utf8.RuneStart c)) (tl e) = true
  /\ (1 <= length e <= 4)%nat
  /\ (length e = 1%nat -> exists c, e = [c] /\ byteZ c < 0x80)
  /\ forall t, utf8.DecodeRuneInString (e ++ t) = (r, Z.of_nat (length e)).

(** The encoding of one white space rune. *)
Definition spaceEnc (e : bytes) : Prop :=
  exists r, validEnc e r /\ unicode.IsSpace r = true.

(** The width [TrimRightFunc] cuts at: that of the rune that starts [rest],
    decoded forwards. *)
Definition cutWidth (rest : bytes) : Z :=
  match rest with
  | c :: _ =>
    if utf8.RuneSelf <=? byteZ c
    then snd (utf8.DecodeRuneInString rest) else 1
  | [] => 1
  end.

(** The white space the test "happy output with spaces" puts around the
    four lines. *)
Definition spacesOfTest : list (bytes * bytes) :=
  [ ("   "%string : bytes, "  "%string : bytes);
    ("  "%string : bytes, " "%string : bytes);
    ("  "%string : bytes, "   "%string : bytes);
    ("  "%string : bytes, "  "%string : bytes) ].

(** White space that is not ASCII: a tab and a no-break space (U+00A0)
    before a line, an ideographic space (U+3000) and a carriage return
    after it. *)
Definition unicodeSpaces : bytes * bytes :=
  ([ "009"%char; "194"%char; "160"%char ],
   [ "227"%char; "128"%char; "128"%char; "013"%char ]).

(** White space with line feeds in it: blank lines before and after. *)
Definition blankLines : bytes * bytes :=
  ([ "010"%char; " "%char; "010"%char; "009"%char ],
   [ " "%char; "013"%char; "010"%char; "010"%char; " "%char ]).

(* ================================================================= *)
(** ** sensu-plugin-sdk, net/url and expfmt, as far as package main looks
       at them *)

Module sensu.

Definition CheckStateOK : Z := 0.
Definition CheckStateWarning : Z := 1.
Definition CheckStateCritical : Z := 2.

End sensu.

Module url.

(** A parsed URL, as [checkArgs] reads it: what its methods [Hostname] and
    [Port] return. *)
Record URL := { Hostname : bytes; Port : bytes }.

(** [url.Parse]: the URL, or the text of the error.  The parser is outside
    the program: it is a parameter of package main. *)
Definition Parser := bytes -> URL + error.

End url.

Module expfmt.

(** An encoder of the text format writing to a buffer: what [Encode]
    writes to the buffer for a family, and the error it returns, if any.
    The encoder is outside the program: it is a parameter of package
    main. *)
Definition Encoder := dto.MetricFamily -> bytes * option error.

End expfmt.

(* ================================================================= *)
(** ** package main *)

Module main.

(** The plugin config: the values of the options, a uint32 for the port
    and for the timeout.  The embedded [sensu.PluginConfig] (name,
    description, keyspace) is read by the SDK only and left out. *)
Record Config := {
  hostname : bytes;
  port : Z;
  statusPath : bytes;
  url : bytes;
  timeout : Z
}.

(** The package variables that [checkArgs] sets and [executeCheck] reads. *)
Record Vars := { nginxUrl : bytes; nginxHostname : bytes; nginxPort : bytes }.

Section Plugin.

Variable Parse : url.Parser.
Variable Get : http.RoundTrip.
Variable Encode : expfmt.Encoder.

(** [checkArgs]: the status and the error it returns, and the package
    variables after the call. *)
Definition checkArgs (plugin : Config) (v : Vars) : (Z * option error) * Vars :=
  if nonEmpty (url plugin) then
    let v := {| nginxUrl := gostrings.TrimSpace (url plugin);
                nginxHostname := nginxHostname v; nginxPort := nginxPort v |} in
    match Parse (nginxUrl v) with
    | inr err =>
      ((sensu.CheckStateCritical,
        Some (nginx.Errorf_s "invalid url provided: " err)), v)
    | inl parsedUrl =>
      ((sensu.CheckStateOK, None),
       {| nginxUrl := nginxUrl v;
          nginxHostname := url.Hostname parsedUrl;
          nginxPort := url.Port parsedUrl |})
    end
  else
    let v := {| nginxUrl :=
                  "http://"%string ++ hostname plugin ++ ":"%string
                    ++ fmt.d (port plugin) ++ "/"%string
                    ++ gostrings.trimLeftByte (statusPath plugin) "/"%char;
                nginxHostname := nginxHostname v; nginxPort := nginxPort v |} in
    match Parse (nginxUrl v) with
    | inr _ =>
      ((sensu.CheckStateCritical,
        Some (nginx.Errorf_s
                "invalid url built from hostname, port and status-path: "
                (nginxUrl v))), v)
    | inl _ =>
      ((sensu.CheckStateOK, None),
       {| nginxUrl := nginxUrl v;
          nginxHostname := hostname plugin;
          nginxPort := strconv.FormatUint (port plugin) |})
    end.

(** [printMetrics]: the families are encoded one by one into a buffer that
    is reset before each, and the buffer is printed; [out] is what the
    process has written to its standard output. *)
Fixpoint printMetrics (metrics : list dto.MetricFamily) (out : bytes)
    : option error * bytes :=
  match metrics with
  | [] => (None, out)
  | family :: metrics' =>
    let '(buf, err) := Encode family in
    match err with
    | Some e => (Some e, out)
    | None => printMetrics metrics' (out ++ buf)
    end
  end.

(** [executeCheck]: the status and the error it returns, the clock and
    the standard output after the call. *)
Definition executeCheck (plugin : Config) (v : Vars) (w : time.Clock) (out : bytes)
    : ((Z * option error) * time.Clock) * bytes :=
  let '((metrics, err), w) :=
    nginx.GetMetrics Get w (nginxUrl v) (nginxHostname v) (nginxPort v)
      (time.Duration_mul (timeout plugin) time.Second) in
  match err with
  | Some e =>
    (((sensu.CheckStateCritical, None), w),
     out ++ nginx.Errorf_s "error generating nginx metrics: " e)
  | None =>
    let '(err, out) := printMetrics metrics out in
    match err with
    | Some e =>
      (((sensu.CheckStateCritical, None), w),
       out ++ nginx.Errorf_s "error printing metrics: " e)
    | None => (((sensu.CheckStateOK, None), w), out)
    end
  end.

End Plugin.

End main.

(* ================================================================= *)
(** ** Relabelling, the grammar of the page, rounding, and the examples
       for package main *)

(** The records [ms] with the labels of every sample replaced by those of
    the host [h] and the port [p]. *)
Definition relabel (h p : bytes) (ms : list dto.MetricFamily) : list dto.MetricFamily :=
  map (fun fam =>
         {| dto.Name := dto.Name fam; dto.Help := dto.Help fam;
            dto.Type_ := dto.Type_ fam;
            dto.Metric_ :=
              map (fun m => {| dto.Label := labelsOf h p;
                               dto.Metric_Gauge := dto.Metric_Gauge m;
                               dto.Metric_Counter := dto.Metric_Counter m;
                               dto.TimestampMs := dto.TimestampMs m |})
                  (dto.Metric_ fam) |}) ms.

(** A server that answers every request with the status [code] and the
    body [body]. *)
Definition serverOf (code : Z) (body : bytes) : http.RoundTrip :=
  fun _ _ => inl {| http.StatusCode := code; http.Body := (body, None) |}.

(** A run of the white space the patterns accept between fields: one or
    more bytes of the class [\s]. *)
Definition blankRun (s : bytes) : bool :=
  nonEmpty s && forallb (regexp.inClass regexp.perl_s) s.

(** The text [s] does not go on with a byte of the class [cls]. *)
Definition stopsAt (cls : list (Z * Z)) (s : bytes) : bool :=
  match s with
  | [] => true
  | c :: _ => negb (regexp.inClass cls c)
  end.

(** A match in which every repetition takes all the bytes of its class
    that the text offers: the match the matcher tries first. *)
Fixpoint greedyMatch (re : regexp.Regexp) (pos : nat) (s : bytes) (caps : list bytes)
    (pos' : nat) (s' : bytes) (caps' : list bytes) : Prop :=
  match re with
  | regexp.OpPlus cls =>
      exists m, s = m ++ s' /\ nonEmpty m = true
        /\ forallb (regexp.inClass cls) m = true /\ stopsAt cls s' = true
        /\ pos' = (pos + length m)%nat /\ caps' = caps
  | regexp.OpCapture cap sub =>
      exists caps0, greedyMatch sub pos s caps pos' s' caps0
        /\ caps' = <[cap := firstn (pos' - pos) s]> caps0
  | regexp.OpConcat sub1 sub2 =>
      exists pos1 s1 caps1, greedyMatch sub1 pos s caps pos1 s1 caps1
        /\ greedyMatch sub2 pos1 s1 caps1 pos' s' caps'
  | _ => matches re pos s caps pos' s' caps'
  end.

(** The four lines of a status page, for the numerals [fields] of its
    seven values in the order of the page: the line of the active
    connections, any second line, the three counters separated by white
    space, and the line of the three states. *)
Definition statusPage (lines fields : list bytes) : Prop :=
  exists l2 s1 s2 s3 s4 s5 s6 s7 a b c d e f g,
    fields = [a; b; c; d; e; f; g]
    /\ lines = [ "Active connections: "%string ++ a; l2; b ++ s1 ++ c ++ s2 ++ d;
                 "Reading:"%string ++ s3 ++ e ++ s4 ++ "Writing:"%string ++ s5 ++ f
                   ++ s6 ++ "Waiting:"%string ++ s7 ++ g ]
    /\ Forall (fun x => isNumeral x = true) fields
    /\ Forall (fun s => blankRun s = true) [s1; s2; s3; s4; s5; s6; s7].

(** The payload of the tests with the line ends of a DOS text, blank lines
    and no line feed after the last line. *)
Definition CRLF : bytes := [bufio.CR; bufio.LF].

Definition allLinesDos : bytes :=
  CRLF ++ outputLine1Ok ++ CRLF ++ outputLine2Ok ++ CRLF ++ CRLF ++ " "%string
    ++ CRLF ++ outputLine3Ok ++ CRLF ++ outputLine4Ok.

(** The distance between the float64 values around the integer [v]: 1 up
    to 2^53, and 2^k for an integer of 53 + k bits. *)
Definition ulp (v : Z) : Z := 2 ^ Z.max 0 (Z.log2 v - 52).

(** [v] rounded to the nearest multiple of [u], to the one with the even
    quotient when [v] is half way between two. *)
Definition roundTo (u v : Z) : Z :=
  let q := v / u in
  let r := v mod u in
  if 2 * r <? u then q * u
  else if u <? 2 * r then (q + 1) * u
  else if Z.even q then q * u else (q + 1) * u.

Definition roundNearestEven (v : Z) : Z := roundTo (ulp v) v.

(** The record of [shr] after [j] shifts of the mantissa [m]: the
    quotient, the last bit shifted out and whether a bit was shifted out
    before it. *)
Definition shifted (m : Z) (j : nat) : shr_record :=
  {| shr_m := m / 2 ^ Z.of_nat j;
     shr_r := match j with
              | O => false
              | S j' => Z.testbit m (Z.of_nat j')
              end;
     shr_s := match j with
              | O => false
              | S j' => negb (m mod 2 ^ Z.of_nat j' =? 0)
              end |}.

(** What the encoder writes for the families [ms], one after the other. *)
Definition encodings (Encode : expfmt.Encoder) (ms : list dto.MetricFamily) : bytes :=
  concat (map (fun family => fst (Encode family)) ms).

Definition startsWithSlash (s : bytes) : bool :=
  match s with
  | c :: _ => Ascii.eqb c "/"%char
  | [] => false
  end.

(** A parser for the examples: it accepts every text and reports the host
    "example" with no port. *)
Definition testParser : url.Parser :=
  fun _ => inl {| url.Hostname := "example"%string; url.Port := [] |}.

(** An encoder for the examples: the name of the family and a line feed;
    it fails on a family without a name. *)
Definition testEncoder : expfmt.Encoder :=
  fun family =>
    match dto.Name family with
    | [] => ([], Some (list_ascii_of_string "no name"))
    | _ :: _ => (dto.Name family ++ NL, None)
    end.

(** The options at their defaults, with slashes before the status path. *)
Definition testConfig : main.Config :=
  {| main.hostname := "localhost"%string; main.port := 81;
     main.statusPath := "//nginx_status"%string; main.url := [];
     main.timeout := 10 |}.

Definition noVars : main.Vars :=
  {| main.nginxUrl := []; main.nginxHostname := []; main.nginxPort := [] |}.

(** The messages of [extractMetrics] for its seven fields, in the order
    it parses them. *)
Definition fieldMessages : list string :=
  [ "invalid number of connections: "%string; "invalid accepts value: "%string;
    "invalid handled value: "%string; "invalid requests value: "%string;
    "invalid reading value: "%string; "invalid writing value: "%string;
    "invalid waiting value: "%string ].

(* ================================================================= *)
(** * Properties *)

(** ** The metric table and the construction of a record *)

Lemma addNewMetric_active ms v ts h p :
  nginx.addNewMetric ms "nginx_active"%string v ts h p
  = ms ++ [gaugeFamily "nginx_active" "number of active connections" v ts h p].
Proof. reflexivity. Qed.

Lemma addNewMetric_accepts ms v ts h p :
  nginx.addNewMetric ms "nginx_accepts"%string v ts h p
  = ms ++ [counterFamily "nginx_accepts" "accepted connections" v ts h p].
Proof. reflexivity. Qed.

Lemma addNewMetric_handled ms v ts h p :
  nginx.addNewMetric ms "nginx_handled"%string v ts h p
  = ms ++ [counterFamily "nginx_handled" "handled connections" v ts h p].
Proof. reflexivity. Qed.

Lemma addNewMetric_requests ms v ts h p :
  nginx.addNewMetric ms "nginx_requests"%string v ts h p
  = ms ++ [counterFamily "nginx_requests" "handled requests" v ts h p].
Proof. reflexivity. Qed.

Lemma addNewMetric_reading ms v ts h p :
  nginx.addNewMetric ms "nginx_reading"%string v ts h p
  = ms ++ [gaugeFamily "nginx_reading" "reading requests" v ts h p].
Proof. reflexivity. Qed.

Lemma addNewMetric_writing ms v ts h p :
  nginx.addNewMetric ms "nginx_writing"%string v ts h p
  = ms ++ [gaugeFamily "nginx_writing" "writing requests" v ts h p].
Proof. reflexivity. Qed.

Lemma addNewMetric_waiting ms v ts h p :
  nginx.addNewMetric ms "nginx_waiting"%string v ts h p
  = ms ++ [gaugeFamily "nginx_waiting" "keep-alive connections" v ts h p].
Proof. reflexivity. Qed.

(** ** The shape of a result of [extractMetrics] *)

(** Evaluation of a call on a given payload, for any clock: the reading of
    the clock is kept as a variable. *)
Ltac run_extract :=
  unfold firstReading, nginx.extractMetrics, nginx.nowFn, time.Now;
  cbv beta iota zeta; cbn [fst snd];
  match goal with
  | |- context [time.UnixMilli ?t] => generalize (time.UnixMilli t); intro
  end;
  vm_compute.

Ltac split_outcome :=
  repeat match goal with
  | |- context [if negb ?c then _ else _] => destruct c; cbn [negb]
  | |- context [match strconv.ParseUint ?x with _ => _ end] =>
      destruct (strconv.ParseUint x) as [? [?|]]
  end.

(** A call of [extractMetrics] reads the clock once, and returns either nil
    with an error or the seven records with no error. *)
Lemma extractMetrics_outcome w content h p :
  snd (nginx.extractMetrics w content h p) = afterOneCall w
  /\ ((exists e, fst (nginx.extractMetrics w content h p) = ([], Some e))
      \/ (exists a b c d e f g,
            fst (nginx.extractMetrics w content h p)
            = (sevenRecords (firstReading w) h p a b c d e f g, None))).
Proof.
  unfold nginx.extractMetrics, nginx.nowFn, time.Now.
  cbv beta iota zeta. cbn [fst snd]. split; [reflexivity|].
  set (lines := nginx.scanLines content).
  split_outcome; try (left; eexists; reflexivity).
  right. do 7 eexists.
  rewrite addNewMetric_active, addNewMetric_accepts, addNewMetric_handled,
    addNewMetric_requests, addNewMetric_reading, addNewMetric_writing,
    addNewMetric_waiting.
  reflexivity.
Qed.

(** C5: all or nothing.  For every payload, host and port, [extractMetrics]
    returns the seven records and no error, or an error and the nil list;
    a list of fewer than seven records is never returned. *)
Theorem extractMetrics_all_or_nothing w content h p :
  let r := fst (nginx.extractMetrics w content h p) in
  (snd r = None /\ length (fst r) = 7%nat)
  \/ (snd r <> None /\ fst r = []).
Proof.
  destruct (extractMetrics_outcome w content h p) as [_ [[e He] | H]].
  - right. rewrite He. cbn. split; [discriminate | reflexivity].
  - left. destruct H as (a & b & c & d & e & f & g & H). rewrite H.
    cbn. split; reflexivity.
Qed.

(** C4: on success the seven records carry one timestamp, the reading of
    the time source made at the start of the call, the only reading the
    call makes; each record holds one sample (a gauge or a counter) and
    the two labels host and port, in this order. *)
Theorem extractMetrics_one_timestamp w content h p ms :
  fst (nginx.extractMetrics w content h p) = (ms, None) ->
  length ms = 7%nat
  /\ Forall (fun fam =>
       exists m, dto.Metric_ fam = [m]
         /\ dto.TimestampMs m = firstReading w
         /\ dto.Label m =
              [ {| dto.LabelPair_Name := "host"%string; dto.LabelPair_Value := h |};
                {| dto.LabelPair_Name := "port"%string; dto.LabelPair_Value := p |} ]
         /\ sampleOf m <> None) ms
  /\ snd (nginx.extractMetrics w content h p) = afterOneCall w.
Proof.
  intros Hok.
  destruct (extractMetrics_outcome w content h p) as [Hclock [[e He] | H]].
  - rewrite He in Hok. discriminate.
  - destruct H as (a & b & c & d & e & f & g & H). rewrite H in Hok.
    injection Hok as <-. split; [reflexivity|]. split; [|exact Hclock].
    unfold sevenRecords.
    repeat (apply Forall_cons; split;
            [eexists; cbn; repeat split; discriminate|]).
    apply Forall_nil_2.
Qed.

Lemma extractMetrics_one_timestamp_witness :
  length (fst (fst (nginx.extractMetrics testClock allLinesOk hostname port))) = 7%nat
  /\ snd (nginx.extractMetrics testClock allLinesOk hostname port)
     = afterOneCall testClock.
Proof.
  pose proof (extractMetrics_one_timestamp testClock allLinesOk hostname port
                (sevenRecords 5 hostname port 33 1237 89 91 55 767 1234)
                ltac:(vm_compute; reflexivity)) as (H1 & _ & H3).
  split; [exact H1 | exact H3].
Defined.

(** ** The scenarios of the tests *)

(** C1: scenario A.  On the status page of the tests, with host
    myhost.sensu.local and port 3456, [extractMetrics] returns no error and
    seven records, named nginx_active, nginx_accepts, nginx_handled,
    nginx_requests, nginx_reading, nginx_writing, nginx_waiting in this
    order, of the types the table [metricHelp] gives them (gauge, counter,
    counter, counter, gauge, gauge, gauge), each with one sample in the
    field of its type, whose values are 33, 1237, 89, 91, 55, 767, 1234,
    and each labelled host=myhost.sensu.local, port=3456.  Every record is
    the one [TestExtractMetrics] expects for its key. *)
Theorem extractMetrics_scenario_A w :
  let r := fst (nginx.extractMetrics w allLinesOk
                  "myhost.sensu.local"%string "3456"%string) in
  let ts := firstReading w in
  snd r = None
  /\ length (fst r) = 7%nat
  /\ map dto.Name (fst r)
     = [ "nginx_active"%string : bytes; "nginx_accepts"%string : bytes;
         "nginx_handled"%string : bytes; "nginx_requests"%string : bytes;
         "nginx_reading"%string : bytes; "nginx_writing"%string : bytes;
         "nginx_waiting"%string : bytes ]
  /\ map dto.Type_ (fst r)
     = [ dto.MetricType_GAUGE; dto.MetricType_COUNTER; dto.MetricType_COUNTER;
         dto.MetricType_COUNTER; dto.MetricType_GAUGE; dto.MetricType_GAUGE;
         dto.MetricType_GAUGE ]
  /\ map (fun fam => nginx.metricHelp !! dto.Name fam) (fst r)
     = map (fun fam => Some {| nginx.help := dto.Help fam;
                               nginx.metricType := dto.Type_ fam |}) (fst r)
  /\ map (fun fam => map sampleOf (dto.Metric_ fam)) (fst r)
     = [ [Some (GaugeSample (float64_of_uint64 33))];
         [Some (CounterSample (float64_of_uint64 1237))];
         [Some (CounterSample (float64_of_uint64 89))];
         [Some (CounterSample (float64_of_uint64 91))];
         [Some (GaugeSample (float64_of_uint64 55))];
         [Some (GaugeSample (float64_of_uint64 767))];
         [Some (GaugeSample (float64_of_uint64 1234))] ]
  /\ valuesOf (fst r)
     = [ [Some 33]; [Some 1237]; [Some 89]; [Some 91]; [Some 55]; [Some 767];
         [Some 1234] ]
  /\ Forall (fun fam =>
       Forall (fun m =>
         dto.Label m
         = [ {| dto.LabelPair_Name := "host"%string;
                dto.LabelPair_Value := "myhost.sensu.local"%string |};
             {| dto.LabelPair_Name := "port"%string;
                dto.LabelPair_Value := "3456"%string |} ]) (dto.Metric_ fam))
       (fst r)
  /\ map Some (fst r)
     = [ expectedMetric "nginx_active"%string (float64_of_uint64 33) ts;
         expectedMetric "nginx_accepts"%string (float64_of_uint64 1237) ts;
         expectedMetric "nginx_handled"%string (float64_of_uint64 89) ts;
         expectedMetric "nginx_requests"%string (float64_of_uint64 91) ts;
         expectedMetric "nginx_reading"%string (float64_of_uint64 55) ts;
         expectedMetric "nginx_writing"%string (float64_of_uint64 767) ts;
         expectedMetric "nginx_waiting"%string (float64_of_uint64 1234) ts ].
Proof.
  assert (H : fst (nginx.extractMetrics w allLinesOk
                     "myhost.sensu.local"%string "3456"%string)
              = (sevenRecords (firstReading w) hostname port
                   33 1237 89 91 55 767 1234, None))
    by (run_extract; reflexivity).
  cbv zeta. rewrite H. cbn [fst snd].
  repeat split; try reflexivity.
  unfold sevenRecords.
  repeat (apply Forall_cons; split;
          [apply Forall_cons; split; [reflexivity | apply Forall_nil_2]|]).
  apply Forall_nil_2.
Qed.

(** C2, at the input of the test "invalid line 3" (and of "invalid line
    4"): line 3 (line 4) does not match its pattern, and the error names
    line 3 (line 4) but shows the text of line 1, not the text of the line
    that did not match. *)
Theorem mismatch_error_shows_line_1 w :
  let line3 : bytes := "huh"%string ++ outputLine3Ok in
  let line4 : bytes := "huh"%string ++ outputLine4Ok in
  fst (nginx.extractMetrics w
         (outputLine1Ok ++ NL ++ outputLine2Ok ++ NL ++ line3 ++ NL
            ++ outputLine4Ok ++ NL) hostname port)
  = ([], Some (nginx.Errorf_s "unexpected input for line 3: " outputLine1Ok))
  /\ fst (nginx.extractMetrics w
         (outputLine1Ok ++ NL ++ outputLine2Ok ++ NL ++ outputLine3Ok ++ NL
            ++ line4 ++ NL) hostname port)
  = ([], Some (nginx.Errorf_s "unexpected input for line 4: " outputLine1Ok))
  /\ nginx.Errorf_s "unexpected input for line 3: " outputLine1Ok
     <> nginx.Errorf_s "unexpected input for line 3: " line3
  /\ nginx.Errorf_s "unexpected input for line 4: " outputLine1Ok
     <> nginx.Errorf_s "unexpected input for line 4: " line4.
Proof.
  cbv zeta. split; [run_extract; reflexivity|]. split; [run_extract; reflexivity|].
  split; vm_compute; discriminate.
Qed.

(** The error for a line 1 that does not match shows that line. *)
Lemma mismatch_line_1_shows_line_1 w :
  let line1 : bytes := outputLine1Ok ++ "aaa"%string in
  fst (nginx.extractMetrics w
         (line1 ++ NL ++ outputLine2Ok ++ NL ++ outputLine3Ok ++ NL
            ++ outputLine4Ok ++ NL) hostname port)
  = ([], Some (nginx.Errorf_s "unexpected input for line 1: " line1)).
Proof. cbv zeta. run_extract. reflexivity. Qed.

(** ** The fetcher *)

(** C9: [loadData] returns the whole body and no error when the status of
    the response is 200 and the body was read to its end; for every other
    status it returns no data and the error "invalid nginx status code: "
    followed by the status in decimal; a transport error is returned as it
    is, and an error while reading the body is returned after "error
    reading body content: ", in both cases with no data.  Data is returned
    only for status 200. *)
Theorem loadData_cases (rt : http.RoundTrip) url timeout :
  match rt url timeout with
  | inr err => nginx.loadData rt url timeout = ([], Some err)
  | inl resp =>
    if http.StatusCode resp =? 200 then
      match http.Body resp with
      | (body, None) => nginx.loadData rt url timeout = (body, None)
      | (_, Some e) =>
        nginx.loadData rt url timeout
        = ([], Some (nginx.Errorf_s "error reading body content: " e))
      end
    else
      nginx.loadData rt url timeout
      = ([], Some (nginx.Errorf_s "invalid nginx status code: "
                     (fmt.d (http.StatusCode resp))))
  end
  /\ (snd (nginx.loadData rt url timeout) = None ->
      exists resp, rt url timeout = inl resp /\ http.StatusCode resp = 200
        /\ http.Body resp = (fst (nginx.loadData rt url timeout), None)).
Proof.
  unfold nginx.loadData, http.StatusOK.
  destruct (rt url timeout) as [resp | err]; [|split; [reflexivity | discriminate]].
  destruct (Z.eqb_spec (http.StatusCode resp) 200) as [Heq | Hne]; cbn [negb].
  - destruct (http.Body resp) as [body [e|]] eqn:Hbody.
    + split; [reflexivity | discriminate].
    + split; [reflexivity|]. intros _. exists resp. cbn. auto.
  - split; [reflexivity | discriminate].
Qed.

(** The fetcher on a response with status 200 whose body is the status
    page of the tests. *)
Lemma loadData_cases_witness :
  let rt : http.RoundTrip :=
    fun _ _ => inl {| http.StatusCode := 200; http.Body := (allLinesOk, None) |} in
  exists resp,
    rt [] 10 = inl resp /\ http.StatusCode resp = 200
    /\ http.Body resp = (fst (nginx.loadData rt [] 10), None).
Proof.
  exact (proj2 (loadData_cases
                  (fun _ _ => inl {| http.StatusCode := 200;
                                     http.Body := (allLinesOk, None) |}) [] 10)
               eq_refl).
Defined.

(** Scenario E: the server answers 404; the fetcher fails with an error
    that gives the status, and [GetMetrics] returns it without a call of
    the extractor (the clock is not read). *)
Lemma loadData_404 w url timeout body :
  let rt : http.RoundTrip :=
    fun _ _ => inl {| http.StatusCode := 404; http.Body := (body, None) |} in
  nginx.loadData rt url timeout
  = ([], Some (list_ascii_of_string "invalid nginx status code: 404"))
  /\ nginx.GetMetrics rt w url hostname port timeout
     = (([], Some (list_ascii_of_string "invalid nginx status code: 404")), w).
Proof. split; reflexivity. Qed.

(** ** strconv.ParseUint on numerals *)

Lemma byteZ_range c : 0 <= byteZ c < 256.
Proof. destruct c as [[] [] [] [] [] [] [] []]; vm_compute; split; congruence. Qed.

Lemma decStep_ge s : forall n, 0 <= n -> forallb isDigit s = true ->
  n <= fold_left decStep s n.
Proof.
  induction s as [|c s IH]; intros n Hn Hd; cbn in *; [lia|].
  apply andb_true_iff in Hd as [Hc Hs]. unfold isDigit in Hc.
  apply andb_true_iff in Hc as [H1 H2].
  assert (n <= decStep n c) by (unfold decStep; lia).
  specialize (IH (decStep n c) ltac:(lia) Hs). lia.
Qed.

Lemma parseLoop_numeral s0 s : forall n,
  forallb isDigit s = true -> 0 <= n <= strconv.maxUint64 ->
  strconv.parseLoop s0 s n
  = if fold_left decStep s n <=? strconv.maxUint64
    then (fold_left decStep s n, None)
    else (strconv.maxUint64,
          Some {| strconv.Func := "ParseUint"%string; strconv.Num := s0;
                  strconv.NumErr := strconv.ErrRange |}).
Proof.
  induction s as [|c s IH]; intros n Hd Hn.
  - cbn. destruct (Z.leb_spec n strconv.maxUint64); [reflexivity | lia].
  - cbn [forallb] in Hd. apply andb_true_iff in Hd as [Hc Hs].
    pose proof Hc as Hc'. unfold isDigit in Hc'.
    apply andb_true_iff in Hc' as [H1 H2].
    cbn [strconv.parseLoop fold_left]. unfold isDigit in Hc. rewrite Hc.
    assert (Hge : n * 10 + (byteZ c - 48) <= fold_left decStep s (decStep n c)).
    { pose proof (decStep_ge s (decStep n c) ltac:(unfold decStep; lia) Hs).
      unfold decStep in H at 1. lia. }
    unfold strconv.maxUint64 in *.
    change (2 ^ 64) with 18446744073709551616 in *.
    change ((18446744073709551616 - 1) / 10 + 1) with 1844674407370955162.
    destruct (Z.leb_spec 10 (byteZ c - 48)); [lia|].
    destruct (Z.leb_spec 1844674407370955162 n).
    { destruct (Z.leb_spec (fold_left decStep s (decStep n c))
                  (18446744073709551616 - 1)); [|reflexivity].
      lia. }
    rewrite (Z.mod_small (n * 10)) by lia.
    destruct (Z.ltb_spec (n * 10 + (byteZ c - 48)) 18446744073709551616) as [Hs1|Hs1].
    + rewrite (Z.mod_small (n * 10 + (byteZ c - 48))) by lia.
      destruct (Z.ltb_spec (n * 10 + (byteZ c - 48)) (n * 10)); [lia|].
      destruct (Z.ltb_spec (18446744073709551616 - 1) (n * 10 + (byteZ c - 48))); [lia|].
      cbn [orb]. rewrite IH by (auto; lia).
      replace (decStep n c) with (n * 10 + (byteZ c - 48)) by (unfold decStep; lia).
      reflexivity.
    + assert (Hm : (n * 10 + (byteZ c - 48)) mod 18446744073709551616
                   = n * 10 + (byteZ c - 48) - 18446744073709551616).
      { symmetry. apply Z.mod_unique with (q := 1); lia. }
      rewrite Hm.
      destruct (Z.ltb_spec (n * 10 + (byteZ c - 48) - 18446744073709551616) (n * 10));
        [|lia].
      cbn [orb].
      destruct (Z.leb_spec (fold_left decStep s (decStep n c))
                  (18446744073709551616 - 1)); [|reflexivity].
      lia.
Qed.

(** [ParseUint] accepts a numeral exactly when the number it writes is at
    most 2^64 - 1, and then returns that number; it rejects a larger one
    with a range error that quotes the numeral. *)
Lemma ParseUint_numeral s :
  isNumeral s = true ->
  strconv.ParseUint s
  = if decimalValue s <=? strconv.maxUint64
    then (decimalValue s, None)
    else (strconv.maxUint64,
          Some {| strconv.Func := "ParseUint"%string; strconv.Num := s;
                  strconv.NumErr := strconv.ErrRange |}).
Proof.
  unfold isNumeral. intros H. apply andb_true_iff in H as [Hne Hd].
  destruct s as [|c s]; [discriminate|].
  unfold strconv.ParseUint. rewrite parseLoop_numeral; auto.
  unfold strconv.maxUint64. cbn. lia.
Qed.

(** ** The matcher and the three line patterns *)

Lemma stripPrefix_sound lit : forall s s',
  regexp.stripPrefix lit s = Some s' -> s = lit ++ s'.
Proof.
  induction lit as [|a lit IH]; intros s s' H; cbn in H.
  - injection H as ->. reflexivity.
  - destruct s as [|b s]; [discriminate|].
    destruct (Ascii.eqb_spec a b) as [->|]; [|discriminate].
    cbn. f_equal. auto.
Qed.

Lemma plusLoop_sound R cls : forall s pos caps (k : regexp.cont R) r,
  regexp.plusLoop R cls pos s caps k = Some r ->
  exists m s', forallb (regexp.inClass cls) m = true /\ s = m ++ s'
    /\ k (pos + length m)%nat s' caps = Some r.
Proof.
  induction s as [|c s IH]; intros pos caps k r H; cbn in H.
  - exists [], []. cbn. rewrite Nat.add_0_r. auto.
  - destruct (regexp.inClass cls c) eqn:Hc.
    + destruct (regexp.plusLoop R cls (S pos) s caps k) as [r'|] eqn:Hrec.
      * injection H as ->. apply IH in Hrec as (m & s' & Hm & -> & Hk).
        exists (c :: m), s'. cbn. rewrite Hc, Hm.
        replace (pos + S (length m))%nat with (S pos + length m)%nat by lia.
        auto.
      * exists [], (c :: s). cbn. rewrite Nat.add_0_r. auto.
    + exists [], (c :: s). cbn. rewrite Nat.add_0_r. auto.
Qed.

(** What the matcher accepts is a match. *)
Lemma matchAt_sound R re : forall pos s caps (k : regexp.cont R) r,
  regexp.matchAt R re pos s caps k = Some r ->
  exists pos' s' caps', matches re pos s caps pos' s' caps'
    /\ k pos' s' caps' = Some r.
Proof.
  induction re as [lit | cls | cls | cap sub IH | sub1 IH1 sub2 IH2 | | ];
    intros pos s caps k r H; cbn in H.
  - destruct (regexp.stripPrefix lit s) as [s'|] eqn:Hp; [|discriminate].
    apply stripPrefix_sound in Hp. exists (pos + length lit)%nat, s', caps.
    cbn. auto.
  - destruct s as [|c s]; [discriminate|].
    destruct (regexp.inClass cls c) eqn:Hc; [|discriminate].
    exists (S pos), s, caps. cbn. eauto 10.
  - destruct s as [|c s]; [discriminate|].
    destruct (regexp.inClass cls c) eqn:Hc; [|discriminate].
    apply plusLoop_sound in H as (m & s' & Hm & -> & Hk).
    exists (S pos + length m)%nat, s', caps. split; [|exact Hk].
    cbn. exists (c :: m). cbn. rewrite Hc, Hm.
    repeat split; auto.
  - apply IH in H as (pos' & s' & caps0 & Hm & Hk).
    exists pos', s', (<[cap := firstn (pos' - pos) s]> caps0).
    split; [|exact Hk]. cbn. exists caps0. auto.
  - apply IH1 in H as (pos1 & s1 & caps1 & Hm1 & Hk1).
    apply IH2 in Hk1 as (pos' & s' & caps' & Hm2 & Hk).
    exists pos', s', caps'. split; [|exact Hk]. cbn. eauto.
  - destruct (Nat.eqb_spec pos 0) as [->|]; [|discriminate].
    exists 0%nat, s, caps. cbn. auto.
  - destruct s; [|discriminate]. exists pos, [], caps. cbn. auto.
Qed.

(** A pattern that starts with ^ matches at the start of the text or
    nowhere. *)
Lemma findFrom_anchored re : forall s pos,
  regexp.findFrom (regexp.OpConcat regexp.OpBeginText re) (S pos) s = [].
Proof.
  induction s as [|c s IH]; intros pos; cbn; auto.
Qed.

Lemma findFrom_unfold re pos s :
  regexp.findFrom re pos s
  = match regexp.matchAt (list bytes) (regexp.OpCapture 0 re) pos s
            (replicate (S (regexp.NumSubexp re)) [])
            (fun _ _ caps => Some caps) with
    | Some caps => caps
    | None => match s with
              | [] => []
              | _ :: s' => regexp.findFrom re (S pos) s'
              end
    end.
Proof. destruct s; reflexivity. Qed.

Lemma FindStringSubmatch_anchored re s m :
  regexp.FindStringSubmatch (regexp.OpConcat regexp.OpBeginText re) s = m ->
  m <> [] ->
  exists pos' s',
    matches (regexp.OpCapture 0 (regexp.OpConcat regexp.OpBeginText re)) 0 s
      (replicate (S (regexp.NumSubexp (regexp.OpConcat regexp.OpBeginText re))) [])
      pos' s' m.
Proof.
  unfold regexp.FindStringSubmatch. rewrite findFrom_unfold. intros H Hne.
  destruct (regexp.matchAt _ _ _ _ _ _) as [caps|] eqn:Hm.
  - apply matchAt_sound in Hm as (pos' & s' & caps' & Hmatch & Hk).
    injection Hk as ->. subst. eauto.
  - destruct s; [congruence|]. rewrite findFrom_anchored in H. congruence.
Qed.

Lemma inClass_perl_d c : regexp.inClass regexp.perl_d c = isDigit c.
Proof. unfold regexp.inClass, isDigit. cbn. apply orb_false_r. Qed.

Lemma forallb_perl_d m :
  forallb (regexp.inClass regexp.perl_d) m = forallb isDigit m.
Proof. induction m; cbn [forallb]; [|rewrite inClass_perl_d, IHm]; reflexivity. Qed.

Lemma firstn_span (p : nat) (m t : bytes) :
  firstn (p + length m - p) (m ++ t) = m.
Proof.
  replace (p + length m - p)%nat with (length m) by lia.
  rewrite firstn_app, Nat.sub_diag, firstn_all. cbn. apply app_nil_r.
Qed.

Ltac destruct_matches :=
  repeat match goal with
  | H : exists _, _ |- _ => destruct H
  | H : _ /\ _ |- _ => destruct H
  end; subst.

Lemma firstn_whole (n : nat) (l : bytes) :
  n = length l -> firstn (n - 0) l = l.
Proof. intros ->. rewrite Nat.sub_0_r. apply firstn_all. Qed.

Lemma isNumeral_intro m :
  nonEmpty m = true -> forallb (regexp.inClass regexp.perl_d) m = true ->
  isNumeral m = true.
Proof.
  intros H1 H2. unfold isNumeral. rewrite H1, <- forallb_perl_d, H2. reflexivity.
Qed.

Ltac whole_match :=
  rewrite firstn_whole by (repeat rewrite length_app; cbn; lia).

(** A match of the pattern of line 1 is the whole line, and its group is
    a numeral. *)
Lemma line1Regex_submatch l m :
  regexp.FindStringSubmatch nginx.line1Regex l = m ->
  length m = 2%nat ->
  exists a, m = [l; a] /\ isNumeral a = true.
Proof.
  intros H Hlen.
  apply FindStringSubmatch_anchored in H; [|intros ->; discriminate].
  destruct H as (pos' & s' & H). cbn [matches nginx.line1Regex regexp.NumSubexp] in H.
  destruct_matches.
  match goal with Hn : nonEmpty ?m = true |- _ => exists m end.
  rewrite !firstn_span. whole_match.
  split; [reflexivity | apply isNumeral_intro; assumption].
Qed.

Lemma line3Regex_submatch l m :
  regexp.FindStringSubmatch nginx.line3Regex l = m ->
  length m = 4%nat ->
  exists a b c, m = [l; a; b; c]
    /\ isNumeral a = true /\ isNumeral b = true /\ isNumeral c = true.
Proof.
  intros H Hlen.
  apply FindStringSubmatch_anchored in H; [|intros ->; discriminate].
  destruct H as (pos' & s' & H). cbn [matches nginx.line3Regex regexp.NumSubexp] in H.
  destruct_matches.
  rewrite !firstn_span. whole_match.
  do 3 eexists. split; [reflexivity|].
  repeat split; apply isNumeral_intro; assumption.
Qed.

Lemma line4Regex_submatch l m :
  regexp.FindStringSubmatch nginx.line4Regex l = m ->
  length m = 4%nat ->
  exists a b c, m = [l; a; b; c]
    /\ isNumeral a = true /\ isNumeral b = true /\ isNumeral c = true.
Proof.
  intros H Hlen.
  apply FindStringSubmatch_anchored in H; [|intros ->; discriminate].
  destruct H as (pos' & s' & H). cbn [matches nginx.line4Regex regexp.NumSubexp] in H.
  destruct_matches. clear Hlen.
  rewrite !firstn_span. whole_match.
  do 3 eexists. split; [reflexivity|].
  repeat split; apply isNumeral_intro; assumption.
Qed.

(** ** The numeric fields *)

Lemma firstOverflow_None fields :
  firstOverflow fields = None
  <-> Forall (fun f => decimalValue (snd f) <= strconv.maxUint64) fields.
Proof.
  unfold firstOverflow. induction fields as [|f fields IH]; cbn.
  - split; auto.
  - destruct (Z.ltb_spec strconv.maxUint64 (decimalValue (snd f))).
    + split; [discriminate|]. intros H'. apply Forall_cons in H' as [H' _]. lia.
    + rewrite IH. split; intros H'.
      * apply Forall_cons; split; auto.
      * apply Forall_cons in H' as [_ H']. exact H'.
Qed.

Lemma firstOverflow_Some fields f :
  firstOverflow fields = Some f ->
  In f fields /\ strconv.maxUint64 < decimalValue (snd f).
Proof.
  unfold firstOverflow. intros H. apply find_some in H as [H1 H2].
  split; [exact H1|]. apply Z.ltb_lt. exact H2.
Qed.

Ltac field_case x :=
  rewrite (ParseUint_numeral x) by assumption;
  unfold outcomeOf, firstOverflow, fieldsOf; cbn [find snd];
  let Hle := fresh "Hle" in
  destruct (Z.leb_spec (decimalValue x) strconv.maxUint64) as [Hle | Hle];
  [ rewrite ?(proj2 (Z.ltb_ge strconv.maxUint64 (decimalValue x)) Hle)
  | rewrite ?(proj2 (Z.ltb_lt strconv.maxUint64 (decimalValue x)) Hle);
    reflexivity ].

(** The result of [extractMetrics] once the three patterns have matched. *)
Lemma extractMetrics_matched w content h p l1 l2 l3 l4 a b c d e f g :
  nginx.scanLines content = [l1; l2; l3; l4] ->
  regexp.FindStringSubmatch nginx.line1Regex l1 = [l1; a] ->
  regexp.FindStringSubmatch nginx.line3Regex l3 = [l3; b; c; d] ->
  regexp.FindStringSubmatch nginx.line4Regex l4 = [l4; e; f; g] ->
  Forall (fun x => isNumeral x = true) [a; b; c; d; e; f; g] ->
  fst (nginx.extractMetrics w content h p)
  = outcomeOf (firstReading w) h p a b c d e f g.
Proof.
  intros Hlines Hm1 Hm3 Hm4 HN.
  repeat match goal with
  | H : Forall _ (_ :: _) |- _ => apply Forall_cons in H as [? H]
  end.
  unfold nginx.extractMetrics, nginx.nowFn, time.Now.
  cbv beta iota zeta. cbn [fst snd]. rewrite Hlines.
  cbn [length nginx.at_ nth]. rewrite Hm1, Hm3, Hm4.
  cbn [length nginx.at_ nth Z.of_nat Pos.of_succ_nat Pos.succ Z.eqb Pos.eqb negb].
  field_case a. field_case b. field_case c. field_case d.
  field_case e. field_case f. field_case g.
  reflexivity.
Qed.

(** A field that overflows stops the call before the lines that follow
    are looked at. *)
Lemma extractMetrics_active_overflow w content h p l1 l2 l3 l4 a :
  nginx.scanLines content = [l1; l2; l3; l4] ->
  regexp.FindStringSubmatch nginx.line1Regex l1 = [l1; a] ->
  isNumeral a = true ->
  strconv.maxUint64 < decimalValue a ->
  fst (nginx.extractMetrics w content h p)
  = ([], Some (rangeError "invalid number of connections: " a)).
Proof.
  intros Hlines Hm1 Na Hov.
  unfold nginx.extractMetrics, nginx.nowFn, time.Now.
  cbv beta iota zeta. cbn [fst snd]. rewrite Hlines.
  cbn [length nginx.at_ nth]. rewrite Hm1.
  cbn [length nginx.at_ nth Z.of_nat Pos.of_succ_nat Pos.succ Z.eqb Pos.eqb negb].
  rewrite (ParseUint_numeral a Na).
  destruct (Z.leb_spec (decimalValue a) strconv.maxUint64); [lia | reflexivity].
Qed.

Lemma extractMetrics_line3_overflow w content h p l1 l2 l3 l4 a b c d prefix num :
  nginx.scanLines content = [l1; l2; l3; l4] ->
  regexp.FindStringSubmatch nginx.line1Regex l1 = [l1; a] ->
  regexp.FindStringSubmatch nginx.line3Regex l3 = [l3; b; c; d] ->
  Forall (fun x => isNumeral x = true) [a; b; c; d] ->
  decimalValue a <= strconv.maxUint64 ->
  firstOverflow [ ("invalid accepts value: "%string, b);
                  ("invalid handled value: "%string, c);
                  ("invalid requests value: "%string, d) ] = Some (prefix, num) ->
  fst (nginx.extractMetrics w content h p) = ([], Some (rangeError prefix num)).
Proof.
  intros Hlines Hm1 Hm3 HN Ha Hov.
  repeat match goal with
  | H : Forall _ (_ :: _) |- _ => apply Forall_cons in H as [? H]
  end.
  unfold nginx.extractMetrics, nginx.nowFn, time.Now.
  cbv beta iota zeta. cbn [fst snd]. rewrite Hlines.
  cbn [length nginx.at_ nth]. rewrite Hm1, Hm3.
  cbn [length nginx.at_ nth Z.of_nat Pos.of_succ_nat Pos.succ Z.eqb Pos.eqb negb].
  rewrite (ParseUint_numeral a) by assumption.
  destruct (Z.leb_spec (decimalValue a) strconv.maxUint64); [|lia].
  unfold firstOverflow in Hov. cbn [find snd] in Hov.
  rewrite (ParseUint_numeral b) by assumption.
  destruct (Z.leb_spec (decimalValue b) strconv.maxUint64) as [Hb|Hb].
  2:{ rewrite (proj2 (Z.ltb_lt _ _) Hb) in Hov. injection Hov as <- <-. reflexivity. }
  rewrite (proj2 (Z.ltb_ge _ _) Hb) in Hov.
  rewrite (ParseUint_numeral c) by assumption.
  destruct (Z.leb_spec (decimalValue c) strconv.maxUint64) as [Hc|Hc].
  2:{ rewrite (proj2 (Z.ltb_lt _ _) Hc) in Hov. injection Hov as <- <-. reflexivity. }
  rewrite (proj2 (Z.ltb_ge _ _) Hc) in Hov.
  rewrite (ParseUint_numeral d) by assumption.
  destruct (Z.leb_spec (decimalValue d) strconv.maxUint64) as [Hd|Hd].
  2:{ rewrite (proj2 (Z.ltb_lt _ _) Hd) in Hov. injection Hov as <- <-. reflexivity. }
  rewrite (proj2 (Z.ltb_ge _ _) Hd) in Hov. discriminate.
Qed.

Lemma extractMetrics_fields_fit w content h p l1 l2 l3 l4 :
  nginx.scanLines content = [l1; l2; l3; l4] ->
  length (regexp.FindStringSubmatch nginx.line1Regex l1) = 2%nat ->
  length (regexp.FindStringSubmatch nginx.line3Regex l3) = 4%nat ->
  length (regexp.FindStringSubmatch nginx.line4Regex l4) = 4%nat ->
  exists active accepts handled requests reading writing waiting,
    regexp.FindStringSubmatch nginx.line1Regex l1 = [l1; active]
    /\ regexp.FindStringSubmatch nginx.line3Regex l3 = [l3; accepts; handled; requests]
    /\ regexp.FindStringSubmatch nginx.line4Regex l4 = [l4; reading; writing; waiting]
    /\ Forall (fun x => isNumeral x = true)
         [active; accepts; handled; requests; reading; writing; waiting]
    /\ fst (nginx.extractMetrics w content h p)
       = outcomeOf (firstReading w) h p
           active accepts handled requests reading writing waiting
    /\ (snd (fst (nginx.extractMetrics w content h p)) = None
        <-> Forall (fun x => decimalValue x <= 2 ^ 64 - 1)
              [active; accepts; handled; requests; reading; writing; waiting])
    /\ (forall e, snd (fst (nginx.extractMetrics w content h p)) = Some e ->
        fst (fst (nginx.extractMetrics w content h p)) = []
        /\ exists prefix num,
             In (prefix, num)
                (fieldsOf active accepts handled requests reading writing waiting)
             /\ 2 ^ 64 - 1 < decimalValue num
             /\ e = rangeError prefix num).
Proof.
  intros Hlines H1 H3 H4.
  destruct (line1Regex_submatch l1 _ eq_refl H1) as (a & Hm1 & Na).
  destruct (line3Regex_submatch l3 _ eq_refl H3) as (b & c & d & Hm3 & Nb & Nc & Nd).
  destruct (line4Regex_submatch l4 _ eq_refl H4) as (e & f & g & Hm4 & Ne & Nf & Ng).
  exists a, b, c, d, e, f, g.
  assert (HN : Forall (fun x => isNumeral x = true) [a; b; c; d; e; f; g])
    by (repeat (apply Forall_cons; split; [assumption|]); apply Forall_nil_2).
  pose proof (extractMetrics_matched w content h p l1 l2 l3 l4 a b c d e f g
                Hlines Hm1 Hm3 Hm4 HN) as Hres.
  repeat (split; [assumption|]).
  rewrite Hres. unfold outcomeOf.
  destruct (firstOverflow (fieldsOf a b c d e f g)) as [[prefix num]|] eqn:Hov.
  - cbn [fst snd]. split.
    + split; [discriminate|]. intros HF.
      apply firstOverflow_Some in Hov as [Hin Hgt]. cbn [snd] in Hgt.
      assert (Hall : Forall (fun f => decimalValue (snd f) <= strconv.maxUint64)
                       (fieldsOf a b c d e f g)).
      { unfold fieldsOf, strconv.maxUint64.
        repeat match goal with
        | H : Forall _ (_ :: _) |- _ => apply Forall_cons in H as [? H]
        end.
        repeat (apply Forall_cons; split; [assumption|]). apply Forall_nil_2. }
      rewrite List.Forall_forall in Hall. specialize (Hall _ Hin). cbn [snd] in Hall. lia.
    + intros e0 He0. injection He0 as <-. split; [reflexivity|].
      apply firstOverflow_Some in Hov as [Hin Hgt].
      exists prefix, num. repeat split; auto.
  - cbn [fst snd]. split.
    + split; [|reflexivity]. intros _. apply firstOverflow_None in Hov.
      unfold fieldsOf, strconv.maxUint64 in Hov.
      repeat match goal with
      | H : Forall _ (_ :: _) |- _ => apply Forall_cons in H as [? H]
      end.
      cbn [snd] in *.
      repeat (apply Forall_cons; split; [assumption|]). apply Forall_nil_2.
    + intros e0 He0. discriminate.
Qed.


(** The error for a line 3 that does not match, in general: it shows the
    first line of the payload. *)
Lemma mismatch_line_3_in_general w content h p l1 l2 l3 l4 a :
  nginx.scanLines content = [l1; l2; l3; l4] ->
  regexp.FindStringSubmatch nginx.line1Regex l1 = [l1; a] ->
  isNumeral a = true ->
  decimalValue a <= strconv.maxUint64 ->
  length (regexp.FindStringSubmatch nginx.line3Regex l3) <> 4%nat ->
  fst (nginx.extractMetrics w content h p)
  = ([], Some (nginx.Errorf_s "unexpected input for line 3: " l1)).
Proof.
  intros Hlines Hm1 Na Ha H3.
  unfold nginx.extractMetrics, nginx.nowFn, time.Now.
  cbv beta iota zeta. cbn [fst snd]. rewrite Hlines.
  cbn [length nginx.at_ nth]. rewrite Hm1.
  cbn [length nginx.at_ nth Z.of_nat Pos.of_succ_nat Pos.succ Z.eqb Pos.eqb negb].
  rewrite (ParseUint_numeral a Na).
  destruct (Z.leb_spec (decimalValue a) strconv.maxUint64); [|lia].
  destruct (Z.eqb_spec
              (Z.of_nat (length (regexp.FindStringSubmatch nginx.line3Regex l3))) 4);
    [lia | reflexivity].
Qed.

(** C8: the numerals the three patterns capture.  In a payload of four
    non-blank lines, a line 1, 3 or 4 that matches its pattern gives
    captured substrings that are decimal numerals.  [extractMetrics] takes
    the fields in the order active, accepts, handled, requests, reading,
    writing, waiting and accepts a numeral exactly when the number it
    writes is at most 2^64 - 1.  A larger number stops the call at once,
    before the lines that follow are looked at: it returns nil and the
    error of that field, which is the message of the field ("invalid number
    of connections: " for active, "invalid accepts value: " and so on for
    the others) followed by the range error of [ParseUint], which quotes
    the numeral.  When the three lines match, the call succeeds if and only
    if the seven numbers are at most 2^64 - 1, and then returns the records
    of these numbers. *)
Theorem numeric_fields_fit_uint64 w content h p l1 l2 l3 l4 :
  nginx.scanLines content = [l1; l2; l3; l4] ->
  length (regexp.FindStringSubmatch nginx.line1Regex l1) = 2%nat ->
  exists active,
    regexp.FindStringSubmatch nginx.line1Regex l1 = [l1; active]
    /\ isNumeral active = true
    /\ (2 ^ 64 - 1 < decimalValue active ->
        fst (nginx.extractMetrics w content h p)
        = ([], Some (rangeError "invalid number of connections: " active)))
    /\ (length (regexp.FindStringSubmatch nginx.line3Regex l3) = 4%nat ->
        exists accepts handled requests,
          regexp.FindStringSubmatch nginx.line3Regex l3
          = [l3; accepts; handled; requests]
          /\ Forall (fun x => isNumeral x = true) [accepts; handled; requests]
          /\ (decimalValue active <= 2 ^ 64 - 1 ->
              forall prefix num,
                firstOverflow [ ("invalid accepts value: "%string, accepts);
                                ("invalid handled value: "%string, handled);
                                ("invalid requests value: "%string, requests) ]
                = Some (prefix, num) ->
                fst (nginx.extractMetrics w content h p)
                = ([], Some (rangeError prefix num)))
          /\ (length (regexp.FindStringSubmatch nginx.line4Regex l4) = 4%nat ->
              exists reading writing waiting,
                regexp.FindStringSubmatch nginx.line4Regex l4
                = [l4; reading; writing; waiting]
                /\ Forall (fun x => isNumeral x = true) [reading; writing; waiting]
                /\ fst (nginx.extractMetrics w content h p)
                   = outcomeOf (firstReading w) h p
                       active accepts handled requests reading writing waiting
                /\ (snd (fst (nginx.extractMetrics w content h p)) = None
                    <-> Forall (fun x => decimalValue x <= 2 ^ 64 - 1)
                          [active; accepts; handled; requests;
                           reading; writing; waiting])
                /\ (forall e,
                      snd (fst (nginx.extractMetrics w content h p)) = Some e ->
                      fst (fst (nginx.extractMetrics w content h p)) = []
                      /\ exists prefix num,
                           In (prefix, num)
                              (fieldsOf active accepts handled requests
                                 reading writing waiting)
                           /\ 2 ^ 64 - 1 < decimalValue num
                           /\ e = rangeError prefix num))).
Proof.
  intros Hlines H1.
  destruct (line1Regex_submatch l1 _ eq_refl H1) as (a & Hm1 & Na).
  exists a. split; [exact Hm1|]. split; [exact Na|]. split.
  { intros Hov.
    exact (extractMetrics_active_overflow w content h p l1 l2 l3 l4 a
             Hlines Hm1 Na Hov). }
  intros H3.
  destruct (line3Regex_submatch l3 _ eq_refl H3) as (b & c & d & Hm3 & Nb & Nc & Nd).
  exists b, c, d. split; [exact Hm3|].
  split; [repeat (apply Forall_cons; split; [assumption|]); apply Forall_nil_2|].
  split.
  { intros Ha prefix num Hov.
    apply (extractMetrics_line3_overflow w content h p l1 l2 l3 l4 a b c d
             prefix num Hlines Hm1 Hm3); [|exact Ha|exact Hov].
    repeat (apply Forall_cons; split; [assumption|]). apply Forall_nil_2. }
  intros H4.
  destruct (extractMetrics_fields_fit w content h p l1 l2 l3 l4 Hlines H1 H3 H4)
    as (a' & b' & c' & d' & e & f & g & Hm1' & Hm3' & Hm4 & HN & Hres & Hiff & Herr).
  rewrite Hm1 in Hm1'. injection Hm1' as <-.
  rewrite Hm3 in Hm3'. injection Hm3' as <- <- <-.
  exists e, f, g. split; [exact Hm4|].
  split.
  { repeat match goal with
    | H : Forall _ (_ :: _) |- _ => apply Forall_cons in H as [? H]
    end.
    repeat (apply Forall_cons; split; [assumption|]). apply Forall_nil_2. }
  auto.
Qed.

Lemma numeric_fields_fit_uint64_witness :
  exists active,
    regexp.FindStringSubmatch nginx.line1Regex outputLine1Ok = [outputLine1Ok; active]
    /\ isNumeral active = true.
Proof.
  destruct (numeric_fields_fit_uint64 testClock allLinesOk hostname port
              outputLine1Ok outputLine2Ok outputLine3Ok outputLine4Ok
              ltac:(vm_compute; reflexivity) ltac:(vm_compute; reflexivity))
    as (a & H1 & HN & _).
  exists a. split; [exact H1 | exact HN].
Defined.

(** 2^64 - 1 is accepted (and stored as the float 2^64, the nearest
    binary64), and 2^64 is refused in the field it stands in. *)
Lemma numeric_field_bound_examples w :
  let page (active handled : string) : bytes :=
    "Active connections: "%string ++ active ++ NL ++ outputLine2Ok ++ NL
      ++ "1237 "%string ++ handled ++ " 91"%string ++ NL ++ outputLine4Ok ++ NL in
  valuesOf (fst (fst (nginx.extractMetrics w
              (page "18446744073709551615" "18446744073709551615") hostname port)))
  = [ [Some 18446744073709551616]; [Some 1237]; [Some 18446744073709551616];
      [Some 91]; [Some 55]; [Some 767]; [Some 1234] ]
  /\ fst (nginx.extractMetrics w (page "18446744073709551616" "89") hostname port)
     = ([], Some (rangeError "invalid number of connections: "
                             (list_ascii_of_string "18446744073709551616")))
  /\ fst (nginx.extractMetrics w (page "33" "18446744073709551616") hostname port)
     = ([], Some (rangeError "invalid handled value: "
                             (list_ascii_of_string "18446744073709551616"))).
Proof.
  cbv zeta. repeat split; run_extract; reflexivity.
Qed.

(** ** float64(uint64) *)

Lemma digits2_pos_iter k : forall p,
  Z.pos (digits2_pos (Pos.iter xO p k)) = Z.pos (digits2_pos p) + Z.pos k.
Proof.
  induction k as [|k IH] using Pos.peano_ind; intros p.
  - cbn. lia.
  - rewrite Pos.iter_succ. cbn [digits2_pos]. rewrite Pos2Z.inj_succ, IH. lia.
Qed.

Lemma digits2_pos_bounds p :
  2 ^ (Z.pos (digits2_pos p) - 1) <= Z.pos p < 2 ^ Z.pos (digits2_pos p).
Proof.
  induction p as [p IH | p IH |]; cbn [digits2_pos].
  - rewrite Pos2Z.inj_succ, (Pos2Z.inj_xI p).
    replace (Z.succ (Z.pos (digits2_pos p)) - 1)
      with (Z.succ (Z.pos (digits2_pos p) - 1)) by lia.
    rewrite Z.pow_succ_r; [|lia]. rewrite Z.pow_succ_r; [|lia].
    set (A := 2 ^ (Z.pos (digits2_pos p) - 1)) in *.
    set (B := 2 ^ Z.pos (digits2_pos p)) in *. clearbody A B. lia.
  - rewrite Pos2Z.inj_succ, (Pos2Z.inj_xO p).
    replace (Z.succ (Z.pos (digits2_pos p)) - 1)
      with (Z.succ (Z.pos (digits2_pos p) - 1)) by lia.
    rewrite Z.pow_succ_r; [|lia]. rewrite Z.pow_succ_r; [|lia].
    set (A := 2 ^ (Z.pos (digits2_pos p) - 1)) in *.
    set (B := 2 ^ Z.pos (digits2_pos p)) in *. clearbody A B. lia.
  - cbn. lia.
Qed.

(** A mantissa of 53 bits with an exponent the format allows is not
    rounded. *)
Lemma binary_round_aux_exact m e :
  Z.pos (digits2_pos m) = 53 -> -52 <= e <= 0 ->
  binary_round_aux 53 1024 false (Z.pos m) e loc_Exact = S754_finite false m e.
Proof.
  intros Hd He. unfold binary_round_aux, shr_fexp.
  cbn [Zdigits2 shr_record_of_loc]. rewrite Hd.
  replace (fexp 53 1024 (53 + e) - e) with 0 by (unfold fexp, emin; lia).
  cbn [shr shr_m loc_of_shr_record round_nearest_even Zdigits2]. rewrite Hd.
  replace (fexp 53 1024 (53 + e) - e) with 0 by (unfold fexp, emin; lia).
  cbn [shr shr_m].
  destruct (Z.leb_spec e (1024 - 53)); [reflexivity | lia].
Qed.

Lemma float64_of_small p :
  Z.pos (digits2_pos p) <= 53 ->
  float64_to_Z (float64_of_uint64 (Z.pos p)) = Some (Z.pos p).
Proof.
  intros Hd. unfold float64_of_uint64, binary_normalize, binary_round, shl_align.
  rewrite Z.add_0_r, Z.sub_0_r.
  replace (fexp 53 1024 (Z.pos (digits2_pos p))) with (Z.pos (digits2_pos p) - 53)
    by (unfold fexp, emin; lia).
  destruct (Z.pos (digits2_pos p) - 53) as [|k|k] eqn:Hk; [|lia|].
  - rewrite binary_round_aux_exact by lia.
    cbn [float64_to_Z Z.leb Z.compare]. f_equal. cbn. lia.
  - rewrite binary_round_aux_exact by (rewrite ?digits2_pos_iter; lia).
    unfold float64_to_Z. change (0 <=? Z.neg k) with false.
    change (- Z.neg k) with (Z.pos k).
    pose proof (Zpower.shift_pos_correct k p) as Hs. unfold Zpower.shift_pos in Hs.
    rewrite Hs, Zpower.Zpower_pos_nat, <- Zpower.Zpower_pos_nat.
    change (Z.pow_pos 2 k) with (2 ^ Z.pos k).
    assert (0 < 2 ^ Z.pos k) by (apply Z.pow_pos_nonneg; lia).
    rewrite Z.mul_comm, Z.mod_mul, Z.div_mul by lia. reflexivity.
Qed.

(** An integer of at most 2^53 is converted exactly. *)
Lemma float64_of_uint64_exact v :
  0 <= v <= 2 ^ 53 -> float64_to_Z (float64_of_uint64 v) = Some v.
Proof.
  intros Hv. destruct v as [|p|p]; [reflexivity| |lia].
  destruct (Z.eq_dec (Z.pos p) (2 ^ 53)) as [Heq | Hne].
  - rewrite Heq. vm_compute. reflexivity.
  - apply float64_of_small.
    pose proof (digits2_pos_bounds p) as [Hlo _].
    destruct (Z.le_gt_cases (Z.pos (digits2_pos p)) 53) as [|Hgt]; [assumption|].
    assert (2 ^ 53 <= 2 ^ (Z.pos (digits2_pos p) - 1))
      by (apply Z.pow_le_mono_r; lia).
    lia.
Qed.

Lemma decimalValue_nonneg s : isNumeral s = true -> 0 <= decimalValue s.
Proof.
  unfold isNumeral. intros H. apply andb_true_iff in H as [_ H].
  apply decStep_ge; [lia | exact H].
Qed.

(** C10: the value of a record is the float64 conversion of the parsed
    integer.  On success every record holds [float64(v)] for the number
    [v] its numeral writes (any number up to 2^64 - 1); a number of at
    most 2^53 is stored exactly; above 2^53 the conversion rounds:
    2^53 + 1 becomes 2^53, and the two status pages that differ only in
    these two values of the field active, which parse to distinct
    integers, give identical results. *)
Theorem stored_value_is_float64 :
  (forall w content h p l1 l2 l3 l4 a b c d e f g,
     nginx.scanLines content = [l1; l2; l3; l4] ->
     regexp.FindStringSubmatch nginx.line1Regex l1 = [l1; a] ->
     regexp.FindStringSubmatch nginx.line3Regex l3 = [l3; b; c; d] ->
     regexp.FindStringSubmatch nginx.line4Regex l4 = [l4; e; f; g] ->
     Forall (fun x => isNumeral x = true) [a; b; c; d; e; f; g] ->
     snd (fst (nginx.extractMetrics w content h p)) = None ->
     map (fun fam => map (fun m => option_map sampleValue (sampleOf m))
                         (dto.Metric_ fam))
         (fst (fst (nginx.extractMetrics w content h p)))
     = map (fun x => [Some (float64_of_uint64 (decimalValue x))])
           [a; b; c; d; e; f; g]
     /\ (Forall (fun x => decimalValue x <= 2 ^ 53) [a; b; c; d; e; f; g] ->
         valuesOf (fst (fst (nginx.extractMetrics w content h p)))
         = map (fun x => [Some (decimalValue x)]) [a; b; c; d; e; f; g]))
  /\ (forall v, 0 <= v <= 2 ^ 53 -> float64_to_Z (float64_of_uint64 v) = Some v)
  /\ float64_to_Z (float64_of_uint64 (2 ^ 53 + 1)) = Some (2 ^ 53)
  /\ float64_of_uint64 (2 ^ 53 + 1) = float64_of_uint64 (2 ^ 53)
  /\ (forall w h p,
        let page (active : string) : bytes :=
          "Active connections: "%string ++ active ++ NL ++ outputLine2Ok ++ NL
            ++ outputLine3Ok ++ NL ++ outputLine4Ok ++ NL in
        fst (strconv.ParseUint (list_ascii_of_string "9007199254740992")) = 2 ^ 53
        /\ fst (strconv.ParseUint (list_ascii_of_string "9007199254740993")) = 2 ^ 53 + 1
        /\ snd (fst (nginx.extractMetrics w (page "9007199254740992") h p)) = None
        /\ fst (nginx.extractMetrics w (page "9007199254740992") h p)
           = fst (nginx.extractMetrics w (page "9007199254740993") h p)).
Proof.
  split; [|split; [exact float64_of_uint64_exact|]].
  - intros w content h p l1 l2 l3 l4 a b c d e f g Hl H1 H3 H4 HN Hok.
    pose proof (extractMetrics_matched w content h p l1 l2 l3 l4 a b c d e f g
                  Hl H1 H3 H4 HN) as Hres.
    rewrite Hres in Hok |- *. unfold outcomeOf in *.
    destruct (firstOverflow (fieldsOf a b c d e f g)) as [[prefix num]|];
      [discriminate|].
    cbn [fst snd]. split; [reflexivity|]. intros Hsmall.
    unfold valuesOf, sevenRecords, gaugeFamily, counterFamily.
    cbn [map dto.Metric_ sampleOf dto.Metric_Gauge dto.Metric_Counter
         sampleValue dto.Gauge_Value dto.Counter_Value].
    repeat match goal with
    | H : Forall _ (_ :: _) |- _ => apply Forall_cons in H as [? H]
    end.
    rewrite !float64_of_uint64_exact
      by (split; [apply decimalValue_nonneg; assumption | assumption]).
    reflexivity.
  - split; [vm_compute; reflexivity|]. split; [vm_compute; reflexivity|].
    intros w h p. cbv zeta.
    split; [vm_compute; reflexivity|]. split; [vm_compute; reflexivity|].
    split; run_extract; reflexivity.
Qed.

Lemma stored_value_is_float64_witness :
  valuesOf (fst (fst (nginx.extractMetrics testClock allLinesOk hostname port)))
  = map (fun x => [Some (decimalValue x)])
        [ list_ascii_of_string "33"; list_ascii_of_string "1237";
          list_ascii_of_string "89"; list_ascii_of_string "91";
          list_ascii_of_string "55"; list_ascii_of_string "767";
          list_ascii_of_string "1234" ]
  /\ float64_to_Z (float64_of_uint64 1234) = Some 1234.
Proof.
  destruct stored_value_is_float64 as (H1 & H2 & _).
  split.
  - assert (HN : Forall (fun x => isNumeral x = true)
                   [ list_ascii_of_string "33"; list_ascii_of_string "1237";
                     list_ascii_of_string "89"; list_ascii_of_string "91";
                     list_ascii_of_string "55"; list_ascii_of_string "767";
                     list_ascii_of_string "1234" ]).
    { repeat (apply Forall_cons; split; [vm_compute; reflexivity|]).
      apply Forall_nil_2. }
    assert (HS : Forall (fun x => decimalValue x <= 2 ^ 53)
                   [ list_ascii_of_string "33"; list_ascii_of_string "1237";
                     list_ascii_of_string "89"; list_ascii_of_string "91";
                     list_ascii_of_string "55"; list_ascii_of_string "767";
                     list_ascii_of_string "1234" ]).
    { repeat (apply Forall_cons; split; [vm_compute; discriminate|]).
      apply Forall_nil_2. }
    exact (proj2 (H1 testClock allLinesOk hostname port
             outputLine1Ok outputLine2Ok outputLine3Ok outputLine4Ok _ _ _ _ _ _ _
             ltac:(vm_compute; reflexivity) ltac:(vm_compute; reflexivity)
             ltac:(vm_compute; reflexivity) ltac:(vm_compute; reflexivity)
             HN ltac:(vm_compute; reflexivity)) HS).
  - apply H2. lia.
Defined.

(** ** unicode/utf8: decoding forwards and backwards *)

Lemma RuneStart_spec c :
  utf8.RuneStart c = negb ((0x80 <=? byteZ c) && (byteZ c <=? 0xBF)).
Proof. destruct c as [[] [] [] [] [] [] [] []]; vm_compute; reflexivity. Qed.

Lemma RuneStart_outside c lo hi :
  utf8.RuneStart c = true -> 0x80 <= lo -> hi <= 0xBF ->
  (byteZ c <? lo) || (hi <? byteZ c) = true.
Proof.
  rewrite RuneStart_spec. intros H Hlo Hhi.
  destruct (Z.leb_spec 0x80 (byteZ c)), (Z.leb_spec (byteZ c) 0xBF);
    cbn in H; try discriminate;
    destruct (Z.ltb_spec (byteZ c) lo), (Z.ltb_spec hi (byteZ c)); cbn; auto; lia.
Qed.

Lemma RuneStart_inside c lo hi :
  (byteZ c <? lo) || (hi <? byteZ c) = false -> 0x80 <= lo -> hi <= 0xBF ->
  utf8.RuneStart c = false /\ 0x80 <= byteZ c.
Proof.
  rewrite RuneStart_spec. intros H Hlo Hhi.
  destruct (Z.ltb_spec (byteZ c) lo), (Z.ltb_spec hi (byteZ c));
    cbn in H; try discriminate.
  destruct (Z.leb_spec 0x80 (byteZ c)), (Z.leb_spec (byteZ c) 0xBF); cbn;
    split; auto; lia.
Qed.

(** The table [first]: a byte is ASCII, invalid at the start of a rune, or
    the first byte of a sequence of 2 to 4 bytes whose second byte lies in
    a range of continuation bytes. *)
Lemma first_cases c :
  let x := utf8.first (byteZ c) in
  ((utf8.as_ <=? x) = true
   /\ (Z.odd x = false /\ byteZ c < 0x80 \/ Z.odd x = true /\ 0x80 <= byteZ c))
  \/ ((utf8.as_ <=? x) = false
      /\ utf8.RuneStart c = true /\ 0x80 <= byteZ c
      /\ 2 <= Z.land x 7 <= 4
      /\ 0x80 <= fst (utf8.acceptRanges (Z.shiftr x 4))
      /\ snd (utf8.acceptRanges (Z.shiftr x 4)) <= 0xBF).
Proof.
  destruct c as [[] [] [] [] [] [] [] []]; vm_compute;
    first [ left; split; [reflexivity|];
            first [ left; split; [reflexivity|]; reflexivity
                  | right; split; [reflexivity|]; discriminate ]
          | right; repeat split; congruence ].
Qed.

Lemma IsSpace_RuneError : unicode.IsSpace utf8.RuneError = false.
Proof. reflexivity. Qed.

(** How a string decodes: it starts with the complete encoding of a rune,
    or its first byte is decoded as [RuneError], and stays so when a byte
    that starts a rune (or nothing) is put after the string. *)
Ltac split_valid := unfold validEnc; split; [|split; [|split; [|split]]].

Lemma Decode_view s :
  s <> [] ->
  (exists e t r, s = e ++ t /\ validEnc e r)
  \/ (forall t, startsRune t = true ->
        utf8.DecodeRuneInString (s ++ t) = (utf8.RuneError, 1)).
Proof.
  intros Hs. destruct s as [|c0 s]; [congruence|]. clear Hs.
  assert (Hascii : forall c, byteZ c < 0x80 -> utf8.RuneStart c = true).
  { intros c Hc. rewrite RuneStart_spec.
    destruct (Z.leb_spec 0x80 (byteZ c)); [lia | reflexivity]. }
  pose proof (first_cases c0) as Hc. cbv zeta in Hc.
  destruct Hc as [[E [[Ho Hb] | [Ho Hb]]] | (E & Hst & Hb & Hsz & Hlo & Hhi)].
  - left. exists [c0], s, (byteZ c0). split; [reflexivity|].
    split_valid.
    + cbn. auto.
    + reflexivity.
    + cbn. lia.
    + intros _. exists c0. auto.
    + intros t. cbn [app]. unfold utf8.DecodeRuneInString. cbv zeta. rewrite E, Ho. reflexivity.
  - right. intros t _. unfold utf8.DecodeRuneInString. cbn [app]. cbv zeta.
    rewrite E, Ho. reflexivity.
  - set (x := utf8.first (byteZ c0)) in *.
    set (acc := utf8.acceptRanges (Z.shiftr x 4)) in *.
    assert (Hcont : forall c, (byteZ c <? utf8.locb) || (utf8.hicb <? byteZ c) = false ->
                              utf8.RuneStart c = false /\ 0x80 <= byteZ c).
    { intros c Hc. apply (RuneStart_inside c utf8.locb utf8.hicb); auto;
        unfold utf8.locb, utf8.hicb; lia. }
    assert (Hout : forall c, utf8.RuneStart c = true ->
                             (byteZ c <? utf8.locb) || (utf8.hicb <? byteZ c) = true).
    { intros c Hc. apply RuneStart_outside; auto; unfold utf8.locb, utf8.hicb; lia. }
    assert (Hstop : forall t, startsRune t = true ->
              match t with
              | [] => true
              | c :: _ => (byteZ c <? fst acc) || (snd acc <? byteZ c)
              end = true
              /\ match t with
                 | [] => true
                 | c :: _ => (byteZ c <? utf8.locb) || (utf8.hicb <? byteZ c)
                 end = true).
    { intros [|c t] Ht; [auto|]. cbn in Ht. split; [apply RuneStart_outside|]; auto. }
    destruct s as [|c1 s1].
    { right. intros t Ht. destruct (Hstop t Ht) as [H1 _].
      unfold utf8.DecodeRuneInString. cbn [app]. cbv zeta. fold x. fold acc.
      rewrite E. destruct t; [reflexivity|]. rewrite H1. reflexivity. }
    destruct ((byteZ c1 <? fst acc) || (snd acc <? byteZ c1)) eqn:E1.
    { right. intros t _. unfold utf8.DecodeRuneInString. cbn [app]. cbv zeta.
      fold x. fold acc. rewrite E, E1. reflexivity. }
    destruct (RuneStart_inside c1 _ _ E1 Hlo Hhi) as [Hc1 Hb1].
    destruct (Z.land x 7 <=? 2) eqn:S2.
    { left. exists [c0; c1], s1. eexists. split; [reflexivity|].
      split_valid.
      - exact Hst.
      - cbn. rewrite Hc1. reflexivity.
      - cbn. lia.
      - cbn. discriminate.
      - intros t. cbn [app]. unfold utf8.DecodeRuneInString. cbv zeta. fold x. fold acc.
        rewrite E, E1, S2. reflexivity. }
    destruct s1 as [|c2 s2].
    { right. intros t Ht. destruct (Hstop t Ht) as [_ H2].
      unfold utf8.DecodeRuneInString. cbn [app]. cbv zeta. fold x. fold acc.
      rewrite E, E1, S2. destruct t; [reflexivity|]. rewrite H2. reflexivity. }
    destruct ((byteZ c2 <? utf8.locb) || (utf8.hicb <? byteZ c2)) eqn:E2.
    { right. intros t _. unfold utf8.DecodeRuneInString. cbn [app]. cbv zeta.
      fold x. fold acc. rewrite E, E1, S2, E2. reflexivity. }
    destruct (Hcont c2 E2) as [Hc2 Hb2].
    destruct (Z.land x 7 <=? 3) eqn:S3.
    { left. exists [c0; c1; c2], s2. eexists. split; [reflexivity|].
      split_valid.
      - exact Hst.
      - cbn. rewrite Hc1, Hc2. reflexivity.
      - cbn. lia.
      - cbn. discriminate.
      - intros t. cbn [app]. unfold utf8.DecodeRuneInString. cbv zeta. fold x. fold acc.
        rewrite E, E1, S2, E2, S3. reflexivity. }
    destruct s2 as [|c3 s3].
    { right. intros t Ht. destruct (Hstop t Ht) as [_ H2].
      unfold utf8.DecodeRuneInString. cbn [app]. cbv zeta. fold x. fold acc.
      rewrite E, E1, S2, E2, S3. destruct t; [reflexivity|]. rewrite H2. reflexivity. }
    destruct ((byteZ c3 <? utf8.locb) || (utf8.hicb <? byteZ c3)) eqn:E3.
    { right. intros t _. unfold utf8.DecodeRuneInString. cbn [app]. cbv zeta.
      fold x. fold acc. rewrite E, E1, S2, E2, S3, E3. reflexivity. }
    destruct (Hcont c3 E3) as [Hc3 Hb3].
    left. exists [c0; c1; c2; c3], s3. eexists. split; [reflexivity|].
    split_valid.
    + exact Hst.
    + cbn. rewrite Hc1, Hc2, Hc3. reflexivity.
    + cbn. lia.
    + cbn. discriminate.
    + intros t. cbn [app]. unfold utf8.DecodeRuneInString. cbv zeta. fold x. fold acc.
      rewrite E, E1, S2, E2, S3, E3. reflexivity.
Qed.

Lemma validEnc_nonempty e r : validEnc e r -> e <> [].
Proof. intros (_ & _ & Hl & _) ->. cbn in Hl. lia. Qed.

Lemma validEnc_decode e r t :
  validEnc e r -> utf8.DecodeRuneInString (e ++ t) = (r, Z.of_nat (length e)).
Proof. intros (_ & _ & _ & _ & H). apply H. Qed.

Lemma validEnc_startsRune e r t : validEnc e r -> startsRune (e ++ t) = true.
Proof.
  intros H. pose proof (validEnc_nonempty e r H) as Hne.
  destruct H as (Hs & _). destruct e; [congruence | exact Hs].
Qed.

Lemma validEnc_ascii c : byteZ c < 0x80 -> validEnc [c] (byteZ c).
Proof.
  intros Hb. destruct (Decode_view [c] ltac:(discriminate)) as [(e & t & r & He & Hv) | H].
  - pose proof (validEnc_nonempty e r Hv) as Hne.
    pose proof Hv as (_ & _ & _ & H1 & Hd).
    destruct e as [|c' e]; [congruence|]. injection He as <- He.
    symmetry in He. apply app_eq_nil in He as [-> ->].
    destruct (H1 eq_refl) as (c'' & Hc & _). injection Hc as <-.
    specialize (Hd []). cbn [app length] in Hd.
    pose proof (first_cases c) as Hc. cbv zeta in Hc.
    destruct Hc as [[E [[Ho _] | [_ Hb']]] | (_ & _ & Hb' & _)]; try lia.
    unfold utf8.DecodeRuneInString in Hd. cbv zeta in Hd. rewrite E, Ho in Hd.
    injection Hd as <-. exact Hv.
  - specialize (H [] eq_refl). cbn [app] in H.
    pose proof (first_cases c) as Hc. cbv zeta in Hc.
    destruct Hc as [[E [[Ho _] | [_ Hb']]] | (_ & _ & Hb' & _)]; try lia.
    unfold utf8.DecodeRuneInString in H. cbv zeta in H. rewrite E, Ho in H.
    injection H as H. unfold utf8.RuneError in H. lia.
Qed.

(** Decoding does not look past a byte that starts a rune. *)
Lemma Decode_app_startsRune s t :
  s <> [] -> startsRune t = true ->
  utf8.DecodeRuneInString (s ++ t) = utf8.DecodeRuneInString s.
Proof.
  intros Hs Ht. destruct (Decode_view s Hs) as [(e & t0 & r & -> & Hv) | H].
  - rewrite <- app_assoc, !(validEnc_decode e r) by assumption. reflexivity.
  - rewrite (H t Ht). specialize (H [] eq_refl). rewrite app_nil_r in H.
    symmetry. exact H.
Qed.

Lemma Decode_size s :
  s <> [] ->
  1 <= snd (utf8.DecodeRuneInString s) <= Z.of_nat (length s).
Proof.
  intros Hs. destruct (Decode_view s Hs) as [(e & t0 & r & -> & Hv) | H].
  - rewrite (validEnc_decode e r) by assumption. cbn [snd].
    destruct Hv as (_ & _ & Hl & _). rewrite length_app. lia.
  - specialize (H [] eq_refl). rewrite app_nil_r in H. rewrite H. cbn [snd].
    destruct s; [congruence | cbn [length]; lia].
Qed.

(** A string whose first rune is white space starts with the encoding of
    that rune. *)
Lemma Decode_space s :
  unicode.IsSpace (fst (utf8.DecodeRuneInString s)) = true ->
  exists e t, s = e ++ t
    /\ validEnc e (fst (utf8.DecodeRuneInString s))
    /\ snd (utf8.DecodeRuneInString s) = Z.of_nat (length e).
Proof.
  intros Hsp. destruct s as [|c s]; [discriminate|].
  destruct (Decode_view (c :: s) ltac:(discriminate)) as [(e & t0 & r & He & Hv) | H].
  - exists e, t0. rewrite He. rewrite (validEnc_decode e r) by assumption. auto.
  - specialize (H [] eq_refl). rewrite app_nil_r in H. rewrite H in Hsp.
    discriminate.
Qed.

(** Decoding backwards finds the encoding of a rune at the end. *)
Lemma DecodeLast_valid e r rs :
  validEnc e r ->
  utf8.DecodeLastRuneInString (reverse e ++ rs) = (r, Z.of_nat (length e)).
Proof.
  intros Hv. pose proof Hv as (Hst & Hcont & Hlen & H1 & Hd).
  assert (Hge : forall c, utf8.RuneStart c = false -> (byteZ c <? utf8.RuneSelf) = false).
  { intros c Hc. rewrite RuneStart_spec in Hc. unfold utf8.RuneSelf.
    destruct (Z.leb_spec 0x80 (byteZ c)); [|discriminate].
    destruct (Z.ltb_spec (byteZ c) 0x80); [lia | reflexivity]. }
  destruct e as [|c0 [|c1 [|c2 [|c3 [|c4 e]]]]]; cbn [length] in Hlen; try lia.
  - destruct (H1 eq_refl) as (c & Hc & Hb). injection Hc as <-.
    pose proof (validEnc_decode _ _ [] (validEnc_ascii c0 Hb)) as Hd'.
    rewrite (Hd []) in Hd'. injection Hd' as ->.
    cbn. unfold utf8.RuneSelf.
    destruct (Z.ltb_spec (byteZ c0) 0x80); [reflexivity | lia].
  - cbn in Hst, Hcont. apply andb_true_iff in Hcont as [Hc1 _].
    apply negb_true_iff in Hc1.
    change (reverse [c0; c1] ++ rs) with (c1 :: c0 :: rs).
    unfold utf8.DecodeLastRuneInString. rewrite (Hge c1 Hc1).
    cbn [utf8.lastRuneSpan]. rewrite Hst. cbn [firstn].
    change (firstn 0 rs) with (@nil ascii).
    change (reverse [c1; c0]) with ([c0; c1] ++ []). rewrite Hd. reflexivity.
  - cbn in Hst, Hcont. apply andb_true_iff in Hcont as [Hc1 Hcont].
    apply andb_true_iff in Hcont as [Hc2 _].
    apply negb_true_iff in Hc1. apply negb_true_iff in Hc2.
    change (reverse [c0; c1; c2] ++ rs) with (c2 :: c1 :: c0 :: rs).
    unfold utf8.DecodeLastRuneInString. rewrite (Hge c2 Hc2).
    cbn [utf8.lastRuneSpan]. rewrite Hc1, Hst. cbn [firstn].
    change (firstn 0 rs) with (@nil ascii).
    change (reverse [c2; c1; c0]) with ([c0; c1; c2] ++ []). rewrite Hd. reflexivity.
  - cbn in Hst, Hcont. apply andb_true_iff in Hcont as [Hc1 Hcont].
    apply andb_true_iff in Hcont as [Hc2 Hcont].
    apply andb_true_iff in Hcont as [Hc3 _].
    apply negb_true_iff in Hc1. apply negb_true_iff in Hc2.
    apply negb_true_iff in Hc3.
    change (reverse [c0; c1; c2; c3] ++ rs) with (c3 :: c2 :: c1 :: c0 :: rs).
    unfold utf8.DecodeLastRuneInString. rewrite (Hge c3 Hc3).
    cbn [utf8.lastRuneSpan]. rewrite Hc2, Hc1, Hst. cbn [firstn].
    change (firstn 0 rs) with (@nil ascii).
    change (reverse [c3; c2; c1; c0]) with ([c0; c1; c2; c3] ++ []).
    rewrite Hd. reflexivity.
Qed.

Lemma lastRuneSpan_pos before : (1 <= utf8.lastRuneSpan before)%nat.
Proof.
  unfold utf8.lastRuneSpan.
  repeat match goal with
  | |- context [match ?l with [] => _ | _ :: _ => _ end] => destruct l
  | |- context [if ?b then _ else _] => destruct b
  end; lia.
Qed.

(** A white space rune found backwards is a complete encoding at the end
    of the string. *)
Lemma DecodeLast_space rs :
  unicode.IsSpace (fst (utf8.DecodeLastRuneInString rs)) = true ->
  exists e rs', rs = reverse e ++ rs'
    /\ validEnc e (fst (utf8.DecodeLastRuneInString rs))
    /\ snd (utf8.DecodeLastRuneInString rs) = Z.of_nat (length e).
Proof.
  destruct rs as [|c before]; [discriminate|].
  unfold utf8.DecodeLastRuneInString.
  destruct (byteZ c <? utf8.RuneSelf) eqn:E.
  - intros _. exists [c], before. cbn [fst snd]. split; [reflexivity|].
    split; [|reflexivity]. apply validEnc_ascii.
    apply Z.ltb_lt in E. exact E.
  - cbv zeta. pose proof (lastRuneSpan_pos before) as Hspan.
    set (span := utf8.lastRuneSpan before) in *.
    set (seg := reverse (firstn span (c :: before))).
    destruct (utf8.DecodeRuneInString seg) as [r size] eqn:Hdec.
    destruct (size =? Z.of_nat span) eqn:Hsz; cbn [negb fst snd]; [|discriminate].
    apply Z.eqb_eq in Hsz. intros Hsp.
    destruct (Decode_space seg) as (e & t & Hseg & Hv & Hsize);
      [rewrite Hdec; exact Hsp|].
    rewrite Hdec in Hv, Hsize. cbn [fst snd] in Hv, Hsize.
    assert (Hlen : (length seg <= span)%nat).
    { unfold seg. rewrite length_reverse, length_take. lia. }
    rewrite Hseg, length_app in Hlen.
    assert (t = []) as -> by (destruct t; [reflexivity | cbn [length] in Hlen; lia]).
    rewrite app_nil_r in Hseg.
    exists e, (skipn span (c :: before)). split; [|split; [exact Hv | lia]].
    rewrite <- Hseg. unfold seg. rewrite reverse_involutive.
    symmetry. apply take_drop.
Qed.

Lemma DecodeLast_size rs :
  rs <> [] -> 1 <= snd (utf8.DecodeLastRuneInString rs).
Proof.
  destruct rs as [|c before]; [congruence|]. intros _.
  unfold utf8.DecodeLastRuneInString.
  destruct (byteZ c <? utf8.RuneSelf); [cbn; lia|].
  cbv zeta. pose proof (lastRuneSpan_pos before) as Hspan.
  destruct (utf8.DecodeRuneInString _) as [r size].
  destruct (Z.eqb_spec size (Z.of_nat (utf8.lastRuneSpan before)));
    cbn [negb snd]; lia.
Qed.

(** ** strings.TrimRightFunc *)

Lemma cutWidth_tail seg t :
  seg <> [] -> startsRune t = true ->
  firstn (Z.to_nat (cutWidth (seg ++ t))) (seg ++ t)
  = firstn (Z.to_nat (cutWidth seg)) seg.
Proof.
  intros Hseg Ht. pose proof (Decode_size seg Hseg) as Hsz.
  assert (Hw : cutWidth (seg ++ t) = cutWidth seg).
  { destruct seg as [|c seg]; [congruence|]. cbn [app cutWidth].
    destruct (utf8.RuneSelf <=? byteZ c); [|reflexivity].
    f_equal. apply (Decode_app_startsRune (c :: seg) t); auto. }
  rewrite Hw. apply take_app_le.
  unfold cutWidth. destruct seg as [|c seg]; [congruence|].
  destruct (utf8.RuneSelf <=? byteZ c); cbn [length] in *; lia.
Qed.

Lemma trimRightLoop_unfold fuel f rs tail :
  gostrings.trimRightLoop (S fuel) f rs tail
  = match rs with
    | [] => []
    | _ :: _ =>
      let n := Z.to_nat (snd (utf8.DecodeLastRuneInString rs)) in
      let rest := reverse (firstn n rs) ++ tail in
      if f (fst (utf8.DecodeLastRuneInString rs))
      then gostrings.trimRightLoop fuel f (skipn n rs) rest
      else reverse (skipn n rs) ++ firstn (Z.to_nat (cutWidth rest)) rest
    end.
Proof.
  cbn [gostrings.trimRightLoop]. destruct rs; [reflexivity|].
  destruct (utf8.DecodeLastRuneInString (a :: rs)) as [r size]. reflexivity.
Qed.

(** The loop does not depend on the fuel, once there is enough of it. *)
Lemma trimRightLoop_fuel f : forall fuel fuel' rs tail,
  (length rs <= fuel)%nat -> (length rs <= fuel')%nat ->
  gostrings.trimRightLoop fuel f rs tail = gostrings.trimRightLoop fuel' f rs tail.
Proof.
  induction fuel as [|fuel IH]; intros fuel' rs tail H1 H2.
  - destruct rs; [|cbn in H1; lia]. destruct fuel'; reflexivity.
  - destruct fuel' as [|fuel'].
    { destruct rs; [reflexivity | cbn in H2; lia]. }
    rewrite !trimRightLoop_unfold. destruct rs as [|c rs]; [reflexivity|].
    cbv zeta. destruct (f _); [|reflexivity].
    pose proof (DecodeLast_size (c :: rs) ltac:(discriminate)) as Hs.
    apply IH; rewrite length_drop; cbn [length] in *; lia.
Qed.

(** What was trimmed already does not change what the loop returns. *)
Lemma trimRightLoop_tail : forall fuel rs t t',
  startsRune t = true -> startsRune t' = true ->
  gostrings.trimRightLoop fuel unicode.IsSpace rs t
  = gostrings.trimRightLoop fuel unicode.IsSpace rs t'.
Proof.
  induction fuel as [|fuel IH]; intros rs t t' Ht Ht'; [reflexivity|].
  rewrite !trimRightLoop_unfold. destruct rs as [|c rs]; [reflexivity|].
  cbv zeta.
  destruct (unicode.IsSpace (fst (utf8.DecodeLastRuneInString (c :: rs)))) eqn:Hsp.
  - destruct (DecodeLast_space _ Hsp) as (e & rs' & Hrs & Hv & Hsize).
    rewrite Hsize, Nat2Z.id, Hrs.
    rewrite <- (length_reverse e), take_app_length, reverse_involutive.
    apply IH; eapply validEnc_startsRune; eauto.
  - f_equal.
    pose proof (DecodeLast_size (c :: rs) ltac:(discriminate)) as Hs.
    set (n := Z.to_nat (snd (utf8.DecodeLastRuneInString (c :: rs)))) in *.
    assert (Hseg : reverse (firstn n (c :: rs)) <> []).
    { destruct n as [|k] eqn:Hn; [lia|]. cbn [firstn]. rewrite reverse_cons.
      intros H. apply app_eq_nil in H as [_ H]. discriminate. }
    rewrite !cutWidth_tail by assumption. reflexivity.
Qed.

(** One step of the loop over the encoding of a white space rune. *)
Lemma trimRightLoop_space fuel e rs tail :
  spaceEnc e ->
  gostrings.trimRightLoop (S fuel) unicode.IsSpace (reverse e ++ rs) tail
  = gostrings.trimRightLoop fuel unicode.IsSpace rs (e ++ tail).
Proof.
  intros (r & Hv & Hsp). rewrite trimRightLoop_unfold.
  pose proof (validEnc_nonempty e r Hv) as Hne.
  destruct (reverse e ++ rs) as [|c rs0] eqn:Hrs.
  { apply app_eq_nil in Hrs as [Hrs _].
    apply (f_equal reverse) in Hrs. rewrite reverse_involutive in Hrs.
    cbn in Hrs. congruence. }
  rewrite <- Hrs. cbv zeta. rewrite (DecodeLast_valid e r rs Hv). cbn [fst snd].
  rewrite Hsp, Nat2Z.id.
  rewrite <- (length_reverse e), take_app_length, drop_app_length, reverse_involutive.
  reflexivity.
Qed.

(** White space at the end of a string is trimmed. *)
Lemma trimRightLoop_spaces y : forall es t fuel,
  Forall spaceEnc es -> startsRune t = true ->
  (length (y ++ concat es) <= fuel)%nat ->
  gostrings.trimRightLoop fuel unicode.IsSpace (reverse (y ++ concat es)) t
  = gostrings.TrimRightFunc y unicode.IsSpace.
Proof.
  induction es as [|e es IH] using rev_ind; intros t fuel Hes Ht Hfuel.
  - cbn [concat] in *. rewrite app_nil_r in *. unfold gostrings.TrimRightFunc.
    rewrite (trimRightLoop_tail _ _ t []) by auto.
    apply trimRightLoop_fuel; rewrite length_reverse; lia.
  - apply Forall_app in Hes as [Hes He]. apply Forall_cons in He as [He _].
    rewrite concat_app in *. cbn [concat] in *. rewrite app_nil_r in *.
    rewrite app_assoc, reverse_app.
    destruct He as (r & Hv & Hsp).
    pose proof (validEnc_nonempty e r Hv) as Hne.
    destruct fuel as [|fuel].
    { rewrite !length_app in Hfuel. destruct e; [congruence | cbn in Hfuel; lia]. }
    rewrite trimRightLoop_space by (exists r; auto).
    apply IH; auto.
    + eapply validEnc_startsRune; eauto.
    + rewrite !length_app in *. destruct e; [congruence | cbn [length] in Hfuel; lia].
Qed.

(** ** strings.TrimLeftFunc *)

Lemma trimLeftLoop_unfold fuel f s :
  gostrings.trimLeftLoop (S fuel) f s
  = match s with
    | [] => []
    | _ :: _ =>
      if f (fst (utf8.DecodeRuneInString s))
      then gostrings.trimLeftLoop fuel f
             (skipn (Z.to_nat (snd (utf8.DecodeRuneInString s))) s)
      else s
    end.
Proof.
  cbn [gostrings.trimLeftLoop]. destruct s; [reflexivity|].
  destruct (utf8.DecodeRuneInString (a :: s)) as [r size]. reflexivity.
Qed.

Lemma trimLeftLoop_step fuel f s :
  s <> [] ->
  gostrings.trimLeftLoop (S fuel) f s
  = if f (fst (utf8.DecodeRuneInString s))
    then gostrings.trimLeftLoop fuel f
           (skipn (Z.to_nat (snd (utf8.DecodeRuneInString s))) s)
    else s.
Proof. rewrite trimLeftLoop_unfold. destruct s; [congruence | reflexivity]. Qed.

Lemma trimLeftLoop_fuel f : forall fuel fuel' s,
  (length s <= fuel)%nat -> (length s <= fuel')%nat ->
  gostrings.trimLeftLoop fuel f s = gostrings.trimLeftLoop fuel' f s.
Proof.
  induction fuel as [|fuel IH]; intros fuel' s H1 H2.
  - destruct s; [|cbn in H1; lia]. destruct fuel'; reflexivity.
  - destruct fuel' as [|fuel'].
    { destruct s; [reflexivity | cbn in H2; lia]. }
    rewrite !trimLeftLoop_unfold. destruct s as [|c s]; [reflexivity|].
    destruct (f _); [|reflexivity].
    pose proof (Decode_size (c :: s) ltac:(discriminate)) as Hs.
    apply IH; rewrite length_drop; cbn [length] in *; lia.
Qed.

(** White space before a string is trimmed. *)
Lemma TrimLeftFunc_spaces l : forall es,
  Forall spaceEnc es ->
  gostrings.TrimLeftFunc (concat es ++ l) unicode.IsSpace
  = gostrings.TrimLeftFunc l unicode.IsSpace.
Proof.
  unfold gostrings.TrimLeftFunc.
  induction es as [|e es IH]; intros Hes; [reflexivity|].
  apply Forall_cons in Hes as [(r & Hv & Hsp) Hes].
  pose proof (validEnc_nonempty e r Hv) as Hne.
  cbn [concat]. rewrite <- app_assoc.
  assert (Hlen : length (e ++ concat es ++ l)
                 = S (pred (length e) + length (concat es ++ l))).
  { rewrite length_app. destruct e; [congruence | cbn [length]; lia]. }
  rewrite Hlen, trimLeftLoop_step
    by (intros H; apply app_eq_nil in H as [H _]; congruence).
  rewrite (validEnc_decode e r) by assumption. cbn [fst snd].
  rewrite Hsp, Nat2Z.id, drop_app_length. rewrite <- (IH Hes).
  apply trimLeftLoop_fuel; lia.
Qed.

(** What follows the string is kept, when it starts a rune. *)
Lemma trimLeftLoop_app t : startsRune t = true -> forall fuel s,
  (length s <= fuel)%nat ->
  gostrings.trimLeftLoop (fuel + length t) unicode.IsSpace (s ++ t)
  = match gostrings.trimLeftLoop fuel unicode.IsSpace s with
    | [] => gostrings.trimLeftLoop (length t) unicode.IsSpace t
    | x => x ++ t
    end.
Proof.
  intros Ht. induction fuel as [|fuel IH]; intros s Hlen.
  - destruct s; [reflexivity | cbn in Hlen; lia].
  - destruct s as [|c s].
    { cbn [app gostrings.trimLeftLoop]. apply trimLeftLoop_fuel; lia. }
    change (S fuel + length t)%nat with (S (fuel + length t)).
    rewrite !trimLeftLoop_unfold. cbn [app].
    change (c :: s ++ t) with ((c :: s) ++ t).
    rewrite (Decode_app_startsRune (c :: s) t) by (auto; discriminate).
    destruct (unicode.IsSpace _); [|reflexivity].
    pose proof (Decode_size (c :: s) ltac:(discriminate)) as Hs.
    rewrite drop_app_le by lia.
    apply IH. rewrite length_drop. cbn [length] in *. lia.
Qed.

(** A white space string is a sequence of encodings of white space
    runes. *)
Lemma IsSpaceString_runes : forall fuel ws,
  (length ws <= fuel)%nat ->
  gostrings.trimLeftLoop fuel unicode.IsSpace ws = [] ->
  exists es, ws = concat es /\ Forall spaceEnc es.
Proof.
  induction fuel as [|fuel IH]; intros ws Hlen H.
  - destruct ws; [|cbn in Hlen; lia]. exists []. split; [reflexivity | constructor].
  - rewrite trimLeftLoop_unfold in H. destruct ws as [|c ws].
    { exists []. split; [reflexivity | constructor]. }
    destruct (unicode.IsSpace (fst (utf8.DecodeRuneInString (c :: ws)))) eqn:Hsp;
      [|discriminate].
    destruct (Decode_space _ Hsp) as (e & t & Hws & Hv & Hsize).
    pose proof (validEnc_nonempty e _ Hv) as Hne.
    rewrite Hsize, Nat2Z.id, Hws, drop_app_length in H.
    destruct (IH t) as (es & -> & Hes); [|exact H|].
    { rewrite Hws, length_app in Hlen. destruct e; [congruence | cbn in Hlen; lia]. }
    exists (e :: es). split; [exact Hws|].
    constructor; [|exact Hes]. eexists; eauto.
Qed.

Lemma IsSpaceString_spec ws :
  IsSpaceString ws = true ->
  gostrings.TrimLeftFunc ws unicode.IsSpace = []
  /\ startsRune ws = true
  /\ exists es, ws = concat es /\ Forall spaceEnc es.
Proof.
  unfold IsSpaceString. intros H.
  assert (H0 : gostrings.TrimLeftFunc ws unicode.IsSpace = []).
  { destruct (gostrings.TrimLeftFunc ws unicode.IsSpace); [reflexivity | discriminate]. }
  destruct (IsSpaceString_runes (length ws) ws (le_n _) H0) as (es & Hws & Hes).
  repeat split; auto; [|eauto].
  rewrite Hws. destruct Hes as [|e es (r & Hv & _) Hes]; [reflexivity|].
  cbn [concat]. eapply validEnc_startsRune; eauto.
Qed.

(** ** strings.TrimSpace *)

Lemma IsSpace_ascii c :
  byteZ c < 0x80 -> unicode.IsSpace (byteZ c) = gostrings.asciiSpace c.
Proof.
  destruct c as [[] [] [] [] [] [] [] []]; vm_compute; intros H;
    first [reflexivity | discriminate H].
Qed.

Lemma spaceEnc_ascii c :
  byteZ c < 0x80 -> gostrings.asciiSpace c = true -> spaceEnc [c].
Proof.
  intros Hb Hs. exists (byteZ c). split; [apply validEnc_ascii; exact Hb|].
  rewrite IsSpace_ascii; assumption.
Qed.

Lemma RuneSelf_leb c :
  (utf8.RuneSelf <=? byteZ c) = false -> byteZ c < 0x80.
Proof. unfold utf8.RuneSelf. intros H. apply Z.leb_gt in H. exact H. Qed.

(** The loop of [TrimSpace] from the end is [TrimRightFunc]. *)
Lemma trimSpaceStop_spec : forall rs,
  gostrings.trimSpaceStop rs
  = gostrings.trimRightLoop (length rs) unicode.IsSpace rs [].
Proof.
  induction rs as [|c rs IH]; [reflexivity|].
  cbn [gostrings.trimSpaceStop length].
  destruct (utf8.RuneSelf <=? byteZ c) eqn:E.
  - unfold gostrings.TrimRightFunc.
    rewrite length_reverse, reverse_involutive. reflexivity.
  - apply RuneSelf_leb in E as Hb.
    destruct (gostrings.asciiSpace c) eqn:Ea.
    + rewrite IH. change (c :: rs) with (reverse [c] ++ rs).
      rewrite trimRightLoop_space by (apply spaceEnc_ascii; assumption).
      apply trimRightLoop_tail; [reflexivity|].
      cbn. rewrite RuneStart_spec.
      destruct (Z.leb_spec 0x80 (byteZ c)); [lia | reflexivity].
    + rewrite trimRightLoop_unfold. cbv zeta.
      assert (Hd : utf8.DecodeLastRuneInString (c :: rs) = (byteZ c, 1)).
      { unfold utf8.DecodeLastRuneInString, utf8.RuneSelf.
        destruct (Z.ltb_spec (byteZ c) 0x80); [reflexivity | lia]. }
      rewrite Hd. cbn [fst snd]. rewrite IsSpace_ascii, Ea by assumption.
      change (Z.to_nat 1) with 1%nat. cbn [firstn skipn].
      change (firstn 0 rs) with (@nil ascii).
      change (reverse [c] ++ []) with [c]. unfold cutWidth. rewrite E.
      change (Z.to_nat 1) with 1%nat. cbn [firstn].
      change (firstn 0 (@nil ascii)) with (@nil ascii).
      rewrite reverse_cons. reflexivity.
Qed.

(** The fast path of [TrimSpace] computes [TrimFunc s unicode.IsSpace]. *)
Lemma TrimSpace_spec : forall s,
  gostrings.TrimSpace s = gostrings.TrimFunc s unicode.IsSpace.
Proof.
  induction s as [|c s IH]; [reflexivity|].
  cbn [gostrings.TrimSpace].
  destruct (utf8.RuneSelf <=? byteZ c) eqn:E; [reflexivity|].
  apply RuneSelf_leb in E as Hb.
  destruct (gostrings.asciiSpace c) eqn:Ea.
  - rewrite IH. unfold gostrings.TrimFunc. f_equal.
    symmetry. apply (TrimLeftFunc_spaces s [[c]]).
    constructor; [apply spaceEnc_ascii; assumption | constructor].
  - unfold gostrings.TrimFunc.
    assert (Hl : gostrings.TrimLeftFunc (c :: s) unicode.IsSpace = c :: s).
    { unfold gostrings.TrimLeftFunc. cbn [length].
      rewrite trimLeftLoop_step by discriminate.
      change (c :: s) with ([c] ++ s) at 1.
      rewrite (validEnc_decode [c] (byteZ c)) by (apply validEnc_ascii; exact Hb).
      cbn [fst]. rewrite IsSpace_ascii, Ea by assumption. reflexivity. }
    rewrite Hl, trimSpaceStop_spec. unfold gostrings.TrimRightFunc.
    rewrite length_reverse. reflexivity.
Qed.

(** White space around a string does not change what [TrimSpace] gives. *)
Lemma TrimSpace_padding lead l trail :
  IsSpaceString lead = true -> IsSpaceString trail = true ->
  gostrings.TrimSpace (lead ++ l ++ trail) = gostrings.TrimSpace l.
Proof.
  intros H1 H2.
  destruct (IsSpaceString_spec lead H1) as (_ & _ & es1 & -> & Hes1).
  destruct (IsSpaceString_spec trail H2) as (Htrim & Hstart & es2 & Htrail & Hes2).
  rewrite !TrimSpace_spec. unfold gostrings.TrimFunc.
  rewrite TrimLeftFunc_spaces by assumption.
  assert (Hl : gostrings.TrimLeftFunc (l ++ trail) unicode.IsSpace
               = match gostrings.TrimLeftFunc l unicode.IsSpace with
                 | [] => []
                 | x => x ++ trail
                 end).
  { unfold gostrings.TrimLeftFunc in *. rewrite length_app.
    rewrite (trimLeftLoop_app trail Hstart (length l) l (le_n _)), Htrim.
    reflexivity. }
  rewrite Hl.
  destruct (gostrings.TrimLeftFunc l unicode.IsSpace) as [|a x]; [reflexivity|].
  subst trail. unfold gostrings.TrimRightFunc at 1.
  apply trimRightLoop_spaces; auto.
Qed.

Lemma TrimSpace_dropCR l :
  gostrings.TrimSpace (bufio.dropCR l) = gostrings.TrimSpace l.
Proof.
  unfold bufio.dropCR. destruct (reverse l) as [|c r] eqn:Hr; [reflexivity|].
  destruct (Ascii.eqb_spec c bufio.CR) as [->|]; [|reflexivity].
  apply (f_equal reverse) in Hr. rewrite reverse_involutive, reverse_cons in Hr.
  rewrite Hr. symmetry.
  apply (TrimSpace_padding [] (reverse r) [bufio.CR]); reflexivity.
Qed.

(** ** bufio.Scanner: the lines the scan delivers *)

Lemma IndexByte_noLF l :
  noLF l = true -> bufio.IndexByte l bufio.LF = -1.
Proof.
  induction l as [|c l IH]; [reflexivity|]. cbn [noLF forallb bufio.IndexByte].
  intros H. apply andb_true_iff in H as [Hc Hl]. apply negb_true_iff in Hc.
  rewrite Hc. unfold noLF in IH. rewrite (IH Hl). reflexivity.
Qed.

Lemma IndexByte_line l rest :
  noLF l = true ->
  bufio.IndexByte (l ++ bufio.LF :: rest) bufio.LF = Z.of_nat (length l).
Proof.
  induction l as [|c l IH]; cbn [noLF forallb bufio.IndexByte app length].
  - intros _. rewrite Ascii.eqb_refl. reflexivity.
  - intros H. apply andb_true_iff in H as [Hc Hl]. apply negb_true_iff in Hc.
    rewrite Hc. unfold noLF in IH. rewrite (IH Hl).
    destruct (Z.ltb_spec (Z.of_nat (length l)) 0); lia.
Qed.

Lemma noLF_firstn n l : noLF l = true -> noLF (firstn n l) = true.
Proof.
  revert n. induction l as [|c l IH]; intros [|n] H; try reflexivity.
  cbn [firstn noLF forallb] in *. apply andb_true_iff in H as [Hc Hl].
  rewrite Hc. apply (IH n Hl).
Qed.

(** [Scan] on a line that a line feed ends. *)
Lemma Scan_line M l rest :
  0 < M -> noLF l = true ->
  bufio.Scan {| bufio.src := l ++ bufio.LF :: rest; bufio.maxTokenSize := M |}
  = if Z.of_nat (length l) <? M
    then Some (bufio.dropCR l, {| bufio.src := rest; bufio.maxTokenSize := M |})
    else None.
Proof.
  intros HM Hl. unfold bufio.Scan. cbn [bufio.src bufio.maxTokenSize].
  destruct (Z.ltb_spec (Z.of_nat (length l)) M) as [Hfit | Hlong].
  - rewrite take_app.
    rewrite (take_ge l) by lia.
    destruct (Z.to_nat M - length l)%nat as [|k] eqn:Hk; [lia|].
    cbn [firstn]. unfold bufio.ScanLines.
    rewrite IndexByte_line by assumption.
    replace (Z.of_nat (length (l ++ bufio.LF :: firstn k rest)) =? 0) with false
      by (symmetry; apply Z.eqb_neq; rewrite length_app; cbn [length]; lia).
    rewrite andb_false_r.
    destruct (Z.leb_spec 0 (Z.of_nat (length l))); [|lia].
    rewrite Nat2Z.id, take_app_length.
    replace (Z.to_nat (Z.of_nat (length l) + 1)) with (S (length l)) by lia.
    f_equal. f_equal. f_equal.
    change (l ++ bufio.LF :: rest) with (l ++ [bufio.LF] ++ rest).
    rewrite app_assoc.
    replace (S (length l)) with (length (l ++ [bufio.LF]))
      by (rewrite length_app; cbn; lia).
    apply drop_app_length.
  - rewrite take_app_le by lia.
    unfold bufio.ScanLines.
    rewrite IndexByte_noLF by (apply noLF_firstn; assumption).
    rewrite length_app. cbn [length].
    destruct (Z.ltb_spec (Z.of_nat (length l + S (length rest))) M); [lia|].
    reflexivity.
Qed.

(** [Scan] on what follows the last line feed. *)
Lemma Scan_last M l :
  0 < M -> noLF l = true ->
  bufio.Scan {| bufio.src := l; bufio.maxTokenSize := M |}
  = match l with
    | [] => None
    | _ :: _ =>
      if Z.of_nat (length l) <? M
      then Some (bufio.dropCR l, {| bufio.src := []; bufio.maxTokenSize := M |})
      else None
    end.
Proof.
  intros HM Hl. unfold bufio.Scan. cbn [bufio.src bufio.maxTokenSize].
  destruct l as [|c l]; [|set (s := c :: l) in *].
  - rewrite firstn_nil. cbn [length].
    destruct (Z.ltb_spec (Z.of_nat 0) M); [reflexivity | lia].
  - assert (Hlen : (0 < length s)%nat) by (cbn; lia).
    unfold bufio.ScanLines.
    rewrite IndexByte_noLF by (apply noLF_firstn; assumption).
    destruct (Z.ltb_spec (Z.of_nat (length s)) M) as [Hfit | Hlong].
    + rewrite take_ge by lia.
      replace (Z.of_nat (length s) =? 0) with false
        by (symmetry; apply Z.eqb_neq; lia).
      cbn [andb]. change (0 <=? -1) with false. cbv iota.
      rewrite Nat2Z.id, drop_all. reflexivity.
    + reflexivity.
Qed.

Lemma fitsScanner_pos : 0 < bufio.MaxScanTokenSize.
Proof. reflexivity. Qed.

Lemma filter_nonEmpty_one (line : bytes) (lines : list bytes) :
  match line with [] => lines | _ :: _ => lines ++ [line] end
  = lines ++ List.filter nonEmpty [line].
Proof. destruct line; cbn; [rewrite app_nil_r|]; reflexivity. Qed.

(** The loop of [extractMetrics] over the lines of the content: it keeps
    the lines before the first one that does not fit the scanner. *)
Lemma scanLoop_joinLF : forall ls fuel acc,
  Forall (fun l => noLF l = true) ls ->
  (length (joinLF ls) < fuel)%nat ->
  nginx.scanLoop fuel
    {| bufio.src := joinLF ls; bufio.maxTokenSize := bufio.MaxScanTokenSize |} acc
  = acc ++ List.filter nonEmpty
             (map (fun l => gostrings.TrimSpace (bufio.dropCR l)) (deliverable ls)).
Proof.
  induction ls as [|l ls IH]; intros fuel acc Hls Hfuel.
  - destruct fuel as [|fuel]; [cbn in Hfuel; lia|].
    cbn [joinLF nginx.scanLoop deliverable map List.filter].
    rewrite (Scan_last _ [] fitsScanner_pos eq_refl), app_nil_r. reflexivity.
  - apply Forall_cons in Hls as [Hl Hls].
    destruct fuel as [|fuel]; [lia|].
    cbn [nginx.scanLoop deliverable]. unfold fitsScanner.
    destruct ls as [|l' ls].
    + cbn [joinLF] in *. rewrite (Scan_last _ l fitsScanner_pos Hl).
      destruct l as [|c l].
      * cbn [length]. change (Z.of_nat 0 <? bufio.MaxScanTokenSize) with true.
        cbv iota. cbn [map List.filter deliverable].
        change (gostrings.TrimSpace (bufio.dropCR [])) with (@nil ascii).
        cbn [nonEmpty]. rewrite app_nil_r. reflexivity.
      * destruct (Z.of_nat (length (c :: l)) <? bufio.MaxScanTokenSize);
          [|cbn [map List.filter]; rewrite app_nil_r; reflexivity].
        destruct fuel as [|fuel]; [cbn [length] in Hfuel; lia|].
        cbn [nginx.scanLoop].
        rewrite (Scan_last _ [] fitsScanner_pos eq_refl).
        cbn [deliverable map]. apply filter_nonEmpty_one.
    + change (joinLF (l :: l' :: ls)) with (l ++ bufio.LF :: joinLF (l' :: ls)) in *.
      rewrite (Scan_line _ l _ fitsScanner_pos Hl).
      destruct (Z.of_nat (length l) <? bufio.MaxScanTokenSize);
        [|cbn [map List.filter]; rewrite app_nil_r; reflexivity].
      rewrite IH; [|assumption|].
      * rewrite filter_nonEmpty_one. cbn [map List.filter].
        rewrite <- app_assoc. f_equal.
        destruct (nonEmpty (gostrings.TrimSpace (bufio.dropCR l))); reflexivity.
      * rewrite length_app in Hfuel. cbn [length] in Hfuel. lia.
Qed.

Lemma deliverable_fits ls :
  Forall (fun l => fitsScanner l = true) ls -> deliverable ls = ls.
Proof.
  induction 1 as [|l ls Hl _ IH]; [reflexivity|].
  cbn [deliverable]. rewrite Hl, IH. reflexivity.
Qed.

Lemma scanLines_joinLF ls :
  Forall (fun l => noLF l = true) ls ->
  nginx.scanLines (joinLF ls)
  = List.filter nonEmpty (map gostrings.TrimSpace (deliverable ls)).
Proof.
  intros Hls. unfold nginx.scanLines, bufio.NewScanner.
  rewrite scanLoop_joinLF by (auto; lia). cbn [app]. f_equal.
  apply map_ext. intros l. apply TrimSpace_dropCR.
Qed.

Lemma splitLF_nonempty content : splitLF content <> [].
Proof.
  destruct content as [|c rest]; cbn [splitLF]; [discriminate|].
  destruct (Ascii.eqb c bufio.LF); [discriminate|].
  destruct (splitLF rest); discriminate.
Qed.

Lemma joinLF_cons c l ls : joinLF ((c :: l) :: ls) = c :: joinLF (l :: ls).
Proof. destruct ls; reflexivity. Qed.

Lemma joinLF_splitLF : forall content, joinLF (splitLF content) = content.
Proof.
  induction content as [|c rest IH]; [reflexivity|]. cbn [splitLF].
  pose proof (splitLF_nonempty rest) as Hne.
  destruct (Ascii.eqb_spec c bufio.LF) as [->|Hc].
  - destruct (splitLF rest) as [|l ls]; [congruence|].
    change (joinLF ([] :: l :: ls)) with (bufio.LF :: joinLF (l :: ls)).
    rewrite IH. reflexivity.
  - destruct (splitLF rest) as [|l ls]; [congruence|].
    rewrite joinLF_cons, IH. reflexivity.
Qed.

Lemma splitLF_noLF : forall content,
  Forall (fun l => noLF l = true) (splitLF content).
Proof.
  induction content as [|c rest IH]; cbn [splitLF].
  - constructor; [reflexivity | constructor].
  - destruct (Ascii.eqb c bufio.LF) eqn:Hc.
    + constructor; [reflexivity | exact IH].
    + destruct (splitLF rest) as [|l ls]; [constructor; [|constructor]|].
      * cbn. rewrite Hc. reflexivity.
      * apply Forall_cons in IH as [Hl Hls]. constructor; [|exact Hls].
        cbn [noLF forallb]. rewrite Hc. exact Hl.
Qed.

(** The lines [extractMetrics] works on: the non-blank lines of the
    payload that precede the first line of 65536 bytes or more, trimmed. *)
Lemma scanLines_spec content :
  nginx.scanLines content
  = List.filter nonEmpty
      (map gostrings.TrimSpace (deliverable (splitLF content))).
Proof.
  rewrite <- (joinLF_splitLF content) at 1.
  apply scanLines_joinLF, splitLF_noLF.
Qed.

(** When every line fits the scanner these are the non-blank lines. *)
Lemma scanLines_nonBlankLines content :
  Forall (fun l => fitsScanner l = true) (splitLF content) ->
  nginx.scanLines content = nonBlankLines content.
Proof.
  intros H. rewrite scanLines_spec, deliverable_fits by assumption. reflexivity.
Qed.

Lemma extractMetrics_ext w content content' h p :
  nginx.scanLines content = nginx.scanLines content' ->
  nginx.extractMetrics w content h p = nginx.extractMetrics w content' h p.
Proof. intros H. unfold nginx.extractMetrics. rewrite H. reflexivity. Qed.

(** ** The number of lines *)

(** What [extractMetrics] returns when it has not found four lines. *)
Lemma extractMetrics_count w content h p :
  length (nginx.scanLines content) <> 4%nat ->
  fst (nginx.extractMetrics w content h p)
  = ([], Some (nginx.Errorf_s "4 output lines are expected, got "
                 (fmt.d (Z.of_nat (length (nginx.scanLines content)))))).
Proof.
  intros Hn. unfold nginx.extractMetrics, nginx.nowFn, time.Now.
  cbv beta iota zeta. cbn [fst snd].
  destruct (Z.eqb_spec (Z.of_nat (length (nginx.scanLines content))) 4) as [Heq|];
    [lia | reflexivity].
Qed.

(** Where every line of the payload is shorter than 65536 bytes, the size
    of the scanner's largest buffer, the lines are counted as they are:
    when the number n of the non-blank lines is not 4, [extractMetrics]
    returns no metrics and the error "4 output lines are expected, got n",
    n in decimal. *)
Theorem wrong_line_count_is_reported w content h p :
  Forall (fun l => fitsScanner l = true) (splitLF content) ->
  length (nonBlankLines content) <> 4%nat ->
  fst (nginx.extractMetrics w content h p)
  = ([], Some (nginx.Errorf_s "4 output lines are expected, got "
                 (fmt.d (Z.of_nat (length (nonBlankLines content)))))).
Proof.
  intros Hfit Hn. rewrite <- (scanLines_nonBlankLines content Hfit) in *.
  apply extractMetrics_count. exact Hn.
Qed.

(** Scenario C: three non-blank lines. *)
Lemma wrong_line_count_is_reported_witness :
  fst (nginx.extractMetrics testClock
         (outputLine1Ok ++ NL ++ outputLine2Ok ++ NL ++ outputLine3Ok ++ NL)
         hostname port)
  = ([], Some (nginx.Errorf_s "4 output lines are expected, got "
                 (fmt.d (Z.of_nat (length (nonBlankLines
                    (outputLine1Ok ++ NL ++ outputLine2Ok ++ NL ++ outputLine3Ok ++ NL))))))).
Proof.
  apply (wrong_line_count_is_reported testClock
           (outputLine1Ok ++ NL ++ outputLine2Ok ++ NL ++ outputLine3Ok ++ NL)).
  - repeat (apply Forall_cons; split; [vm_compute; reflexivity|]). apply Forall_nil_2.
  - vm_compute. discriminate.
Defined.

Lemma scenario_C_message :
  nginx.Errorf_s "4 output lines are expected, got "
    (fmt.d (Z.of_nat (length (nonBlankLines
       (outputLine1Ok ++ NL ++ outputLine2Ok ++ NL ++ outputLine3Ok ++ NL)))))
  = list_ascii_of_string "4 output lines are expected, got 3".
Proof. vm_compute. reflexivity. Qed.

(** The general form: the count that is reported is that of the non-blank
    lines before the first line that does not fit the scanner. *)
Lemma wrong_line_count_general w content h p :
  let n := length (List.filter nonEmpty
                     (map gostrings.TrimSpace (deliverable (splitLF content)))) in
  n <> 4%nat ->
  fst (nginx.extractMetrics w content h p)
  = ([], Some (nginx.Errorf_s "4 output lines are expected, got "
                 (fmt.d (Z.of_nat n)))).
Proof.
  cbv zeta. rewrite <- scanLines_spec. apply extractMetrics_count.
Qed.

(** C3, at a payload of five non-blank lines: the status page of the tests
    followed by a line of 65536 bytes.  By the claim the call returns no
    metrics and the error "4 output lines are expected, got 5".  In the
    code [Scan] returns false at the fifth line, with the line unread and
    an error that [extractMetrics] never asks the scanner for; the loop
    leaves the four lines of the page, the check of the count passes, and
    the seven records of the page are returned with no error. *)
Theorem oversized_fifth_line_is_not_counted w :
  let content : bytes := allLinesOk ++ longLine in
  length (nonBlankLines content) = 5%nat
  /\ bufio.Scan (bufio.NewScanner longLine) = None
  /\ nginx.scanLines content
     = [outputLine1Ok; outputLine2Ok; outputLine3Ok; outputLine4Ok]
  /\ fst (nginx.extractMetrics w content hostname port)
     = (sevenRecords (firstReading w) hostname port 33 1237 89 91 55 767 1234, None)
  /\ fst (nginx.extractMetrics w content hostname port)
     <> ([], Some (nginx.Errorf_s "4 output lines are expected, got " (fmt.d 5))).
Proof.
  cbv zeta.
  assert (H : fst (nginx.extractMetrics w (allLinesOk ++ longLine) hostname port)
              = (sevenRecords (firstReading w) hostname port
                   33 1237 89 91 55 767 1234, None))
    by (run_extract; reflexivity).
  split; [vm_compute; reflexivity|]. split; [vm_compute; reflexivity|].
  split; [vm_compute; reflexivity|]. split; [exact H|].
  rewrite H. unfold sevenRecords. discriminate.
Qed.

(** ** The second line *)

(** Where every line of the payload is shorter than 65536 bytes, the
    second line is not looked at: a payload of four non-blank lines of
    which the first, the third and the fourth are valid is accepted,
    whatever the second is. *)
Theorem second_line_is_not_matched w content h p a b c d :
  Forall (fun l => fitsScanner l = true) (splitLF content) ->
  nonBlankLines content = [a; b; c; d] ->
  lineValid nginx.line1Regex 1 a = true ->
  lineValid nginx.line3Regex 3 c = true ->
  lineValid nginx.line4Regex 3 d = true ->
  snd (fst (nginx.extractMetrics w content h p)) = None
  /\ length (fst (fst (nginx.extractMetrics w content h p))) = 7%nat.
Proof.
  intros Hfit Hlines H1 H3 H4.
  rewrite <- (scanLines_nonBlankLines content Hfit) in Hlines.
  unfold lineValid in H1, H3, H4.
  apply andb_true_iff in H1 as [L1 P1]. apply Nat.eqb_eq in L1.
  apply andb_true_iff in H3 as [L3 P3]. apply Nat.eqb_eq in L3.
  apply andb_true_iff in H4 as [L4 P4]. apply Nat.eqb_eq in L4.
  destruct (regexp.FindStringSubmatch nginx.line1Regex a)
    as [|m10 [|m11 [|]]] eqn:M1; try discriminate.
  destruct (regexp.FindStringSubmatch nginx.line3Regex c)
    as [|m30 [|m31 [|m32 [|m33 [|]]]]] eqn:M3; try discriminate.
  destruct (regexp.FindStringSubmatch nginx.line4Regex d)
    as [|m40 [|m41 [|m42 [|m43 [|]]]]] eqn:M4; try discriminate.
  cbn [tl forallb] in P1, P3, P4.
  repeat match goal with
  | H : _ && _ = true |- _ => apply andb_true_iff in H as [? H]
  end.
  unfold nginx.extractMetrics, nginx.nowFn, time.Now.
  cbv beta iota zeta. cbn [fst snd]. rewrite Hlines.
  cbn [length nginx.at_ nth]. rewrite M1, M3, M4.
  cbn [length nginx.at_ nth Z.of_nat Pos.of_succ_nat Pos.succ Z.eqb Pos.eqb negb].
  repeat match goal with
  | H : match strconv.ParseUint ?x with _ => _ end = true |- _ =>
      destruct (strconv.ParseUint x) as [? [?|]]; [discriminate H|]
  end.
  rewrite addNewMetric_active, addNewMetric_accepts, addNewMetric_handled,
    addNewMetric_requests, addNewMetric_reading, addNewMetric_writing,
    addNewMetric_waiting.
  split; reflexivity.
Qed.

(** Any text in the second line: here a line that is not the header. *)
Lemma second_line_is_not_matched_witness :
  let content : bytes :=
    outputLine1Ok ++ NL ++ "not the header at all"%string ++ NL
      ++ outputLine3Ok ++ NL ++ outputLine4Ok ++ NL in
  snd (fst (nginx.extractMetrics testClock content hostname port)) = None
  /\ length (fst (fst (nginx.extractMetrics testClock content hostname port))) = 7%nat.
Proof.
  cbv zeta.
  apply (second_line_is_not_matched testClock _ hostname port
           outputLine1Ok (list_ascii_of_string "not the header at all")
           outputLine3Ok outputLine4Ok).
  - repeat (apply Forall_cons; split; [vm_compute; reflexivity|]). apply Forall_nil_2.
  - vm_compute. reflexivity.
  - vm_compute. reflexivity.
  - vm_compute. reflexivity.
  - vm_compute. reflexivity.
Defined.

(** C7, at a status page whose second line is a non-blank line of 65536
    bytes, the other three lines being those of the tests.  By the claim
    the second line is never looked at and the page is accepted.  In the
    code [Scan] returns false at the second line, with an error that
    [extractMetrics] never asks the scanner for; the loop leaves the first
    line alone, and the call fails with "4 output lines are expected,
    got 1", though the payload has four non-blank lines. *)
Theorem oversized_second_line_is_refused w :
  let content : bytes :=
    outputLine1Ok ++ NL ++ longLine ++ NL ++ outputLine3Ok ++ NL
      ++ outputLine4Ok ++ NL in
  nonBlankLines content = [outputLine1Ok; longLine; outputLine3Ok; outputLine4Ok]
  /\ lineValid nginx.line1Regex 1 outputLine1Ok = true
  /\ lineValid nginx.line3Regex 3 outputLine3Ok = true
  /\ lineValid nginx.line4Regex 3 outputLine4Ok = true
  /\ nginx.scanLines content = [outputLine1Ok]
  /\ fst (nginx.extractMetrics w content hostname port)
     = ([], Some (list_ascii_of_string "4 output lines are expected, got 1"))
  /\ snd (fst (nginx.extractMetrics w content hostname port)) <> None.
Proof.
  cbv zeta.
  assert (H : fst (nginx.extractMetrics w
                     (outputLine1Ok ++ NL ++ longLine ++ NL ++ outputLine3Ok ++ NL
                        ++ outputLine4Ok ++ NL) hostname port)
              = ([], Some (list_ascii_of_string "4 output lines are expected, got 1")))
    by (run_extract; reflexivity).
  rewrite H. clear H.
  repeat split; try discriminate; vm_compute; reflexivity.
Qed.

(** ** White space around the lines *)

Lemma IsSpaceString_concat es :
  Forall spaceEnc es -> IsSpaceString (concat es) = true.
Proof.
  intros Hes. unfold IsSpaceString.
  pose proof (TrimLeftFunc_spaces [] es Hes) as H. rewrite app_nil_r in H.
  rewrite H. reflexivity.
Qed.

(** The encoding of a white space rune is the line feed or holds no line
    feed. *)
Lemma spaceEnc_LF e : spaceEnc e -> e = [bufio.LF] \/ noLF e = true.
Proof.
  intros (r & Hv & _). pose proof Hv as (Hst & Hcont & Hlen & _ & Hd).
  destruct e as [|c e]; [cbn in Hlen; lia|].
  assert (Hhigh : forall x, 0x80 <= byteZ x -> negb (Ascii.eqb x bufio.LF) = true).
  { intros x Hx. destruct (Ascii.eqb_spec x bufio.LF) as [->|]; [|reflexivity].
    vm_compute in Hx. congruence. }
  assert (Htl : forallb (fun x => negb (Ascii.eqb x bufio.LF)) e = true).
  { cbn [tl] in Hcont. clear -Hcont Hhigh. induction e as [|x e IH]; [reflexivity|].
    cbn [forallb] in *. apply andb_true_iff in Hcont as [Hx He].
    apply negb_true_iff in Hx. rewrite RuneStart_spec in Hx.
    rewrite Hhigh, IH; auto.
    destruct (Z.leb_spec 0x80 (byteZ x)); [lia | discriminate]. }
  destruct (Z.lt_ge_cases (byteZ c) 0x80) as [Hb | Hb].
  - pose proof (validEnc_decode [c] (byteZ c) e (validEnc_ascii c Hb)) as Hd'.
    specialize (Hd []). rewrite app_nil_r in Hd. cbn [app] in Hd'.
    rewrite Hd in Hd'. injection Hd' as _ Hl.
    destruct e; [|cbn [length] in Hl; lia].
    destruct (Ascii.eqb_spec c bufio.LF) as [->|Hc]; [left; reflexivity|].
    right. cbn. destruct (Ascii.eqb_spec c bufio.LF); [congruence | reflexivity].
  - right. cbn [noLF forallb]. rewrite Hhigh by lia. exact Htl.
Qed.

Lemma splitLF_app_noLF e y :
  noLF e = true ->
  splitLF (e ++ y)
  = match splitLF y with
    | h :: t => (e ++ h) :: t
    | [] => [e]
    end.
Proof.
  induction e as [|c e IH]; intros He.
  - cbn [app]. pose proof (splitLF_nonempty y). destruct (splitLF y); [congruence|].
    reflexivity.
  - cbn [noLF forallb] in He. apply andb_true_iff in He as [Hc He].
    apply negb_true_iff in Hc. cbn [app splitLF]. rewrite Hc.
    unfold noLF in IH. rewrite (IH He).
    pose proof (splitLF_nonempty y). destruct (splitLF y); [congruence|].
    reflexivity.
Qed.

Lemma splitLF_app_LF a b :
  splitLF (a ++ bufio.LF :: b) = splitLF a ++ splitLF b.
Proof.
  induction a as [|c a IH]; [reflexivity|]. cbn [app splitLF]. rewrite IH.
  pose proof (splitLF_nonempty a).
  destruct (Ascii.eqb c bufio.LF); [reflexivity|].
  destruct (splitLF a); [congruence | reflexivity].
Qed.

Lemma splitLF_snoc_noLF e : noLF e = true -> forall y,
  exists ini la, splitLF y = ini ++ [la] /\ splitLF (y ++ e) = ini ++ [la ++ e].
Proof.
  intros He. induction y as [|c y (ini & la & H1 & H2)].
  - exists [], []. split; [reflexivity|]. cbn [app].
    rewrite <- (app_nil_r e) at 1. rewrite (splitLF_app_noLF e [] He).
    cbn. rewrite app_nil_r. reflexivity.
  - cbn [app splitLF]. rewrite H1, H2.
    destruct (Ascii.eqb c bufio.LF).
    + exists ([] :: ini), la. split; reflexivity.
    + destruct ini as [|i0 ini].
      * exists [], (c :: la). split; reflexivity.
      * exists ((c :: i0) :: ini), la. split; reflexivity.
Qed.

Lemma fitsScanner_app_l a b : fitsScanner (a ++ b) = true -> fitsScanner b = true.
Proof.
  unfold fitsScanner. rewrite length_app. intros H.
  apply Z.ltb_lt in H. apply Z.ltb_lt. lia.
Qed.

Lemma fitsScanner_app_r a b : fitsScanner (a ++ b) = true -> fitsScanner a = true.
Proof.
  unfold fitsScanner. rewrite length_app. intros H.
  apply Z.ltb_lt in H. apply Z.ltb_lt. lia.
Qed.

(** White space before a payload: the non-blank lines stay, and no line
    gets shorter. *)
Lemma nonBlankLines_lead : forall es y,
  Forall spaceEnc es ->
  nonBlankLines (concat es ++ y) = nonBlankLines y
  /\ (Forall (fun l => fitsScanner l = true) (splitLF (concat es ++ y)) ->
      Forall (fun l => fitsScanner l = true) (splitLF y)).
Proof.
  induction es as [|e es IH]; intros y Hes; [split; auto|].
  apply Forall_cons in Hes as [He Hes]. destruct (IH y Hes) as [IH1 IH2].
  cbn [concat]. rewrite <- app_assoc. rewrite <- IH1.
  destruct (spaceEnc_LF e He) as [-> | Hno].
  - split; [reflexivity|]. intros H. apply IH2.
    cbn [app splitLF] in H. rewrite Ascii.eqb_refl in H.
    apply Forall_cons in H as [_ H]. exact H.
  - unfold nonBlankLines. rewrite (splitLF_app_noLF e _ Hno).
    pose proof (splitLF_nonempty (concat es ++ y)) as Hne.
    destruct (splitLF (concat es ++ y)) as [|hd tl]; [congruence|].
    split.
    + cbn [map]. f_equal. f_equal.
      rewrite <- (app_nil_r hd) at 1.
      apply (TrimSpace_padding e hd []); [|reflexivity].
      rewrite <- (app_nil_r e). apply (IsSpaceString_concat [e]).
      constructor; [exact He | constructor].
    + intros H. apply IH2. apply Forall_cons in H as [Hh Ht].
      constructor; [|exact Ht]. eapply fitsScanner_app_l; eauto.
Qed.

(** White space after a payload. *)
Lemma nonBlankLines_trail : forall es y,
  Forall spaceEnc es ->
  nonBlankLines (y ++ concat es) = nonBlankLines y
  /\ (Forall (fun l => fitsScanner l = true) (splitLF (y ++ concat es)) ->
      Forall (fun l => fitsScanner l = true) (splitLF y)).
Proof.
  induction es as [|e es IH] using rev_ind; intros y Hes.
  { cbn [concat]. rewrite app_nil_r. split; auto. }
  apply Forall_app in Hes as [Hes He]. apply Forall_cons in He as [He _].
  destruct (IH y Hes) as [IH1 IH2].
  rewrite concat_app. cbn [concat]. rewrite app_nil_r, app_assoc.
  rewrite <- IH1. set (z := y ++ concat es) in *.
  destruct (spaceEnc_LF e He) as [-> | Hno].
  - unfold nonBlankLines.
    rewrite (splitLF_app_LF z []). change (splitLF []) with [@nil ascii].
    split.
    + rewrite map_app, List.filter_app. cbn. apply app_nil_r.
    + intros H. apply IH2. apply Forall_app in H as [H _]. exact H.
  - destruct (splitLF_snoc_noLF e Hno z) as (ini & la & H1 & H2).
    unfold nonBlankLines. rewrite H1, H2. split.
    + rewrite !map_app, !List.filter_app. f_equal. cbn [map]. f_equal. f_equal.
      apply (TrimSpace_padding [] la e); [reflexivity|].
      rewrite <- (app_nil_r e). apply (IsSpaceString_concat [e]).
      constructor; [exact He | constructor].
    + intros H. apply IH2. rewrite H1.
      apply Forall_app in H as [Hi Hl]. apply Forall_app. split; [exact Hi|].
      apply Forall_cons in Hl as [Hl _]. constructor; [|constructor].
      eapply fitsScanner_app_r; eauto.
Qed.

(** White space around a text. *)
Lemma nonBlankLines_padLine pd l :
  IsSpaceString (fst pd) = true -> IsSpaceString (snd pd) = true ->
  nonBlankLines (padLine pd l) = nonBlankLines l
  /\ (Forall (fun x => fitsScanner x = true) (splitLF (padLine pd l)) ->
      Forall (fun x => fitsScanner x = true) (splitLF l)).
Proof.
  intros H1 H2. unfold padLine.
  destruct (IsSpaceString_spec _ H1) as (_ & _ & es1 & -> & Hes1).
  destruct (IsSpaceString_spec _ H2) as (_ & _ & es2 & -> & Hes2).
  destruct (nonBlankLines_lead es1 (l ++ concat es2) Hes1) as [A1 A2].
  destruct (nonBlankLines_trail es2 l Hes2) as [B1 B2].
  split; [congruence | auto].
Qed.

(** The non-blank lines of a payload, line by line. *)
Lemma nonBlankLines_joinLF : forall ls,
  ls <> [] ->
  nonBlankLines (joinLF ls) = concat (map nonBlankLines ls)
  /\ (Forall (fun x => fitsScanner x = true) (splitLF (joinLF ls))
      <-> Forall (fun l => Forall (fun x => fitsScanner x = true) (splitLF l)) ls).
Proof.
  induction ls as [|l ls IH]; intros Hne; [congruence|].
  destruct ls as [|l' ls].
  - cbn [joinLF map concat]. rewrite app_nil_r. split; [reflexivity|].
    split; intros H.
    + constructor; [exact H | constructor].
    + apply Forall_cons in H as [H _]. exact H.
  - destruct (IH ltac:(discriminate)) as [IH1 IH2].
    change (joinLF (l :: l' :: ls)) with (l ++ bufio.LF :: joinLF (l' :: ls)).
    unfold nonBlankLines at 1. rewrite splitLF_app_LF, map_app, List.filter_app.
    split.
    + change (map nonBlankLines (l :: l' :: ls))
        with (nonBlankLines l :: map nonBlankLines (l' :: ls)).
      cbn [concat]. rewrite <- IH1. reflexivity.
    + rewrite Forall_app, IH2. split.
      * intros [Ha Hb]. constructor; assumption.
      * intros H. apply Forall_cons in H as [Ha Hb]. split; assumption.
Qed.

Lemma padLines_nonempty pads ls : ls <> [] -> padLines pads ls <> [].
Proof. destruct pads, ls; cbn; congruence. Qed.

Lemma padLines_nonBlankLines : forall pads ls,
  Forall (fun pd => IsSpaceString (fst pd) = true /\ IsSpaceString (snd pd) = true)
         pads ->
  map nonBlankLines (padLines pads ls) = map nonBlankLines ls
  /\ (Forall (fun l => Forall (fun x => fitsScanner x = true) (splitLF l))
             (padLines pads ls) ->
      Forall (fun l => Forall (fun x => fitsScanner x = true) (splitLF l)) ls).
Proof.
  induction pads as [|pd pads IH]; intros ls Hp; [destruct ls; split; auto|].
  destruct ls as [|l ls]; [split; auto|].
  apply Forall_cons in Hp as [[H1 H2] Hp].
  destruct (IH ls Hp) as [IH1 IH2].
  destruct (nonBlankLines_padLine pd l H1 H2) as [A1 A2].
  cbn [padLines map]. split; [congruence|].
  intros H. apply Forall_cons in H as [Hl H]. constructor; auto.
Qed.

(** The lines [extractMetrics] works on are the same with the white
    space and without it. *)
Lemma padLines_scanLines content pads :
  Forall (fun pd => IsSpaceString (fst pd) = true /\ IsSpaceString (snd pd) = true)
         pads ->
  Forall (fun l => fitsScanner l = true)
         (splitLF (joinLF (padLines pads (splitLF content)))) ->
  nginx.scanLines (joinLF (padLines pads (splitLF content)))
  = nginx.scanLines content.
Proof.
  intros Hp Hfit.
  pose proof (splitLF_nonempty content) as Hne.
  pose proof (padLines_nonempty pads _ Hne) as Hne'.
  destruct (nonBlankLines_joinLF _ Hne) as [J1 J2].
  destruct (nonBlankLines_joinLF _ Hne') as [K1 K2].
  destruct (padLines_nonBlankLines pads (splitLF content) Hp) as [P1 P2].
  rewrite joinLF_splitLF in J1, J2.
  rewrite (scanLines_nonBlankLines _ Hfit).
  rewrite (scanLines_nonBlankLines content) by (apply J2, P2, K2, Hfit).
  rewrite K1, P1, J1. reflexivity.
Qed.

(** The non-blank lines of a payload are the same with the white space
    and without it, whatever the length of the lines. *)
Lemma padLines_keeps_nonBlankLines content pads :
  Forall (fun pd => IsSpaceString (fst pd) = true /\ IsSpaceString (snd pd) = true)
         pads ->
  nonBlankLines (joinLF (padLines pads (splitLF content))) = nonBlankLines content.
Proof.
  intros Hp.
  pose proof (splitLF_nonempty content) as Hne.
  pose proof (padLines_nonempty pads _ Hne) as Hne'.
  destruct (nonBlankLines_joinLF _ Hne) as [J1 _].
  destruct (nonBlankLines_joinLF _ Hne') as [K1 _].
  destruct (padLines_nonBlankLines pads (splitLF content) Hp) as [P1 _].
  rewrite joinLF_splitLF in J1.
  rewrite K1, P1, J1. reflexivity.
Qed.

(** Where every line of the padded payload is shorter than 65536 bytes,
    the size of the scanner's largest buffer, white space (any runes of
    [unicode.IsSpace], ASCII or not) put before and after any of the lines
    of a payload leaves the result of [extractMetrics] as it is, records
    or error. *)
Theorem padding_keeps_result w content pads h p :
  Forall (fun pd => IsSpaceString (fst pd) = true /\ IsSpaceString (snd pd) = true)
         pads ->
  Forall (fun l => fitsScanner l = true)
         (splitLF (joinLF (padLines pads (splitLF content)))) ->
  nginx.extractMetrics w (joinLF (padLines pads (splitLF content))) h p
  = nginx.extractMetrics w content h p.
Proof.
  intros Hp Hfit. apply extractMetrics_ext, padLines_scanLines; assumption.
Qed.

(** Scenario B: the status page of the tests with the white space of the
    test "happy output with spaces" around its lines. *)
Lemma padding_keeps_result_witness :
  nginx.extractMetrics testClock
    (joinLF (padLines spacesOfTest (splitLF allLinesOk))) hostname port
  = nginx.extractMetrics testClock allLinesOk hostname port.
Proof.
  apply (padding_keeps_result testClock allLinesOk spacesOfTest hostname port).
  - repeat (apply Forall_cons; split; [split; vm_compute; reflexivity|]).
    apply Forall_nil_2.
  - repeat (apply Forall_cons; split; [vm_compute; reflexivity|]). apply Forall_nil_2.
Defined.

Lemma scenario_B_payload :
  joinLF (padLines spacesOfTest (splitLF allLinesOk))
  = "   "%string ++ outputLine1Ok ++ "  "%string ++ NL
    ++ "  "%string ++ outputLine2Ok ++ " "%string ++ NL
    ++ "  "%string ++ outputLine3Ok ++ "   "%string ++ NL
    ++ "  "%string ++ outputLine4Ok ++ "  "%string ++ NL.
Proof. vm_compute. reflexivity. Qed.

(** White space that is not ASCII is trimmed as well, and so are blank
    lines put between the lines. *)
Lemma padding_unicode_example w :
  let pads := [unicodeSpaces; blankLines; unicodeSpaces; unicodeSpaces] in
  Forall (fun pd => IsSpaceString (fst pd) = true /\ IsSpaceString (snd pd) = true)
         pads
  /\ nginx.extractMetrics w (joinLF (padLines pads (splitLF allLinesOk))) hostname port
     = nginx.extractMetrics w allLinesOk hostname port.
Proof.
  cbv zeta.
  assert (H : Forall (fun pd => IsSpaceString (fst pd) = true
                                /\ IsSpaceString (snd pd) = true)
                [unicodeSpaces; blankLines; unicodeSpaces; unicodeSpaces]).
  { repeat (apply Forall_cons; split; [split; vm_compute; reflexivity|]).
    apply Forall_nil_2. }
  split; [exact H|]. apply extractMetrics_ext, padLines_scanLines; [exact H|].
  repeat (apply Forall_cons; split; [vm_compute; reflexivity|]). apply Forall_nil_2.
Qed.

(** C6, at a status page whose second line has 65535 bytes, with one space
    put after that line.  By the claim the padded payload is parsed as the
    page is.  The page is accepted, with its seven records.  In the padded
    payload the second line has 65536 bytes and does not fit the scanner:
    [Scan] returns false at it, with an error that [extractMetrics] never
    asks the scanner for, the loop leaves the first line alone, and the
    call fails with "4 output lines are expected, got 1", though the
    padded payload has the four non-blank lines of the page. *)
Theorem padding_up_to_the_limit_changes_the_result w :
  let content : bytes :=
    outputLine1Ok ++ NL ++ tl longLine ++ NL ++ outputLine3Ok ++ NL
      ++ outputLine4Ok ++ NL in
  let pads : list (bytes * bytes) := [([], []); ([], " "%string : bytes)] in
  let padded : bytes := joinLF (padLines pads (splitLF content)) in
  Forall (fun pd => IsSpaceString (fst pd) = true /\ IsSpaceString (snd pd) = true)
         pads
  /\ nonBlankLines padded = nonBlankLines content
  /\ length (nonBlankLines padded) = 4%nat
  /\ map fitsScanner (splitLF content) = [true; true; true; true; true]
  /\ map fitsScanner (splitLF padded) = [true; false; true; true; true]
  /\ fst (nginx.extractMetrics w content hostname port)
     = (sevenRecords (firstReading w) hostname port 33 1237 89 91 55 767 1234, None)
  /\ nginx.scanLines padded = [outputLine1Ok]
  /\ fst (nginx.extractMetrics w padded hostname port)
     = ([], Some (list_ascii_of_string "4 output lines are expected, got 1")).
Proof.
  cbv zeta.
  assert (Hp : Forall (fun pd => IsSpaceString (fst pd) = true
                                 /\ IsSpaceString (snd pd) = true)
                 [([], []); ([], " "%string : bytes)]).
  { repeat (apply Forall_cons; split; [split; vm_compute; reflexivity|]).
    apply Forall_nil_2. }
  split; [exact Hp|].
  split; [apply padLines_keeps_nonBlankLines; exact Hp|].
  split; [vm_compute; reflexivity|].
  split; [vm_compute; reflexivity|].
  split; [vm_compute; reflexivity|].
  split; [run_extract; reflexivity|].
  split; [vm_compute; reflexivity|].
  run_extract. reflexivity.
Qed.

(* ================================================================= *)
(** * Further properties *)

(** ** [GetMetrics], the labels and [addNewMetric] *)

(** X1: when the fetch fails (transport error, status other than 200,
    body that cannot be read), [GetMetrics] returns no metrics and the
    error of [loadData] unchanged, and the clock is not read. *)
Theorem GetMetrics_fetch_failure rt w url h p timeout e :
  snd (nginx.loadData rt url timeout) = Some e ->
  nginx.GetMetrics rt w url h p timeout = (([], Some e), w).
Proof.
  intros H. unfold nginx.GetMetrics.
  destruct (nginx.loadData rt url timeout) as [data [err|]]; cbn in H.
  - injection H as ->. reflexivity.
  - discriminate.
Qed.

Lemma GetMetrics_fetch_failure_witness :
  nginx.GetMetrics (serverOf 404 allLinesOk) testClock [] hostname port 10
  = (([], Some (list_ascii_of_string "invalid nginx status code: 404")), testClock).
Proof.
  apply (GetMetrics_fetch_failure (serverOf 404 allLinesOk) testClock [] hostname port 10).
  reflexivity.
Defined.

(** X2: [GetMetrics] is all or nothing.  Whatever the network answers,
    it returns the seven records with no error, or no record with an
    error; the seven records come from a response of status 200 whose body
    was read to its end, they are what [extractMetrics] makes of that body,
    and the clock was read once. *)
Theorem GetMetrics_all_or_nothing rt w url h p timeout :
  let r := nginx.GetMetrics rt w url h p timeout in
  (snd (fst r) = None /\ length (fst (fst r)) = 7%nat /\ snd r = afterOneCall w
   /\ exists resp body,
        rt url timeout = inl resp /\ http.StatusCode resp = 200
        /\ http.Body resp = (body, None)
        /\ r = nginx.extractMetrics w body h p)
  \/ (snd (fst r) <> None /\ fst (fst r) = []).
Proof.
  cbv zeta. unfold nginx.GetMetrics, nginx.loadData.
  destruct (rt url timeout) as [resp | err]; [|right; split; [discriminate | reflexivity]].
  destruct (Z.eqb_spec (http.StatusCode resp) http.StatusOK) as [Hc | Hc]; cbn [negb];
    [|right; split; [discriminate | reflexivity]].
  destruct (http.Body resp) as [body [e|]] eqn:Hb;
    [right; split; [discriminate | reflexivity]|].
  destruct (extractMetrics_outcome w body h p)
    as [Hw [[e He] | (a & b & c & d & e & f & g & He)]].
  - right. rewrite He. split; [discriminate | reflexivity].
  - left. rewrite He. cbn [fst snd]. repeat split; try assumption.
    exists resp, body. repeat split; assumption.
Qed.

(** X3: whether [extractMetrics] fails, and with which error, depends on
    the payload only: not on the host, the port or the clock.  Host and
    port are not looked at: with other ones the records are the same, their
    labels apart. *)
Theorem result_depends_on_content_only w w' content h p h' p' :
  snd (fst (nginx.extractMetrics w' content h' p'))
  = snd (fst (nginx.extractMetrics w content h p))
  /\ fst (fst (nginx.extractMetrics w content h' p'))
     = relabel h' p' (fst (fst (nginx.extractMetrics w content h p))).
Proof.
  unfold nginx.extractMetrics, nginx.nowFn, time.Now.
  cbv beta iota zeta. cbn [fst snd].
  set (lines := nginx.scanLines content).
  generalize (time.UnixMilli (time.readings w (time.calls w))).
  generalize (time.UnixMilli (time.readings w' (time.calls w'))).
  intros ts' ts.
  split_outcome; split; reflexivity.
Qed.

Lemma metricHelp_types key d :
  nginx.metricHelp !! key = Some d ->
  nginx.metricType d = dto.MetricType_COUNTER
  \/ nginx.metricType d = dto.MetricType_GAUGE.
Proof.
  intros H. unfold nginx.metricHelp in H.
  apply elem_of_list_to_map_2 in H.
  repeat (apply elem_of_cons in H; destruct H as [H | H];
          [injection H as _ ->; cbn; auto|]).
  apply elem_of_nil in H. destruct H.
Qed.

(** X4: [addNewMetric] with a name that is not in [metricHelp] returns
    the list unchanged; with a name of the table it appends one family, of
    that name, with the help and the type of the table and exactly one
    sample: a counter sample when the type is COUNTER, a gauge sample when
    it is GAUGE.  The table holds no other type, so a family never goes
    without its sample. *)
Theorem addNewMetric_appends_one ms key v ts h p :
  match nginx.metricHelp !! key with
  | None => nginx.addNewMetric ms key v ts h p = ms
  | Some d =>
    exists m,
      nginx.addNewMetric ms key v ts h p
      = ms ++ [ {| dto.Name := key; dto.Help := nginx.help d;
                   dto.Type_ := nginx.metricType d; dto.Metric_ := [m] |} ]
      /\ dto.Label m = labelsOf h p
      /\ dto.TimestampMs m = ts
      /\ (nginx.metricType d = dto.MetricType_COUNTER
          /\ sampleOf m = Some (CounterSample (float64_of_uint64 v))
          \/ nginx.metricType d = dto.MetricType_GAUGE
             /\ sampleOf m = Some (GaugeSample (float64_of_uint64 v)))
  end.
Proof.
  unfold nginx.addNewMetric.
  destruct (nginx.metricHelp !! key) as [d|] eqn:Hk; [|reflexivity].
  destruct (metricHelp_types key d Hk) as [Ht | Ht]; rewrite Ht; cbn [dto.MetricType_eqb].
  - eexists. split; [reflexivity|]. cbn. auto.
  - eexists. split; [reflexivity|]. cbn. auto.
Qed.

(** ** The grammar of the three patterns *)

Lemma stripPrefix_app lit s : regexp.stripPrefix lit (lit ++ s) = Some s.
Proof.
  induction lit as [|a lit IH]; cbn; [reflexivity|].
  rewrite Ascii.eqb_refl. exact IH.
Qed.

Lemma plusLoop_greedy R cls (k : regexp.cont R) caps r s : forall m pos,
  forallb (regexp.inClass cls) m = true -> stopsAt cls s = true ->
  k (pos + length m)%nat s caps = Some r ->
  regexp.plusLoop R cls pos (m ++ s) caps k = Some r.
Proof.
  induction m as [|c m IH]; intros pos Hm Hs Hk.
  - cbn in *. rewrite Nat.add_0_r in Hk.
    destruct s as [|c s]; cbn; [exact Hk|].
    cbn in Hs. apply negb_true_iff in Hs. rewrite Hs. exact Hk.
  - cbn in Hm. apply andb_true_iff in Hm as [Hc Hm].
    cbn. rewrite Hc. rewrite (IH (S pos)); auto.
    rewrite <- Hk. f_equal. cbn. lia.
Qed.

(** The matcher finds the greedy match. *)
Lemma matchAt_greedy R re : forall pos s caps pos' s' caps' (k : regexp.cont R) r,
  greedyMatch re pos s caps pos' s' caps' ->
  k pos' s' caps' = Some r ->
  regexp.matchAt R re pos s caps k = Some r.
Proof.
  induction re as [lit | cls | cls | cap sub IH | sub1 IH1 sub2 IH2 | | ];
    intros pos s caps pos' s' caps' k r H Hk; cbn in H.
  - destruct H as (-> & -> & ->). cbn. rewrite stripPrefix_app. exact Hk.
  - destruct H as (c & -> & Hc & -> & ->). cbn. rewrite Hc. exact Hk.
  - destruct H as (m & -> & Hne & Hm & Hs & -> & ->).
    destruct m as [|c m]; [discriminate|].
    cbn in Hm. apply andb_true_iff in Hm as [Hc Hm].
    cbn. rewrite Hc. apply plusLoop_greedy; auto.
    rewrite <- Hk. f_equal. cbn. lia.
  - destruct H as (caps0 & H & ->). cbn. eapply IH; eauto.
  - destruct H as (pos1 & s1 & caps1 & H1 & H2). cbn.
    eapply IH1; eauto.
  - destruct H as (-> & -> & -> & ->). cbn. exact Hk.
  - destruct H as (-> & -> & -> & ->). cbn. exact Hk.
Qed.

Lemma FindStringSubmatch_greedy re s pos' s' m :
  greedyMatch (regexp.OpCapture 0 re) 0 s
    (replicate (S (regexp.NumSubexp re)) []) pos' s' m ->
  regexp.FindStringSubmatch re s = m.
Proof.
  intros H. unfold regexp.FindStringSubmatch. rewrite findFrom_unfold.
  erewrite matchAt_greedy; [reflexivity | exact H | reflexivity].
Qed.

Lemma blank_not_digit c :
  regexp.inClass regexp.perl_s c = true -> regexp.inClass regexp.perl_d c = false.
Proof.
  unfold regexp.inClass, regexp.perl_s, regexp.perl_d. cbn [existsb].
  pose proof (byteZ_range c). lia.
Qed.

Lemma digit_not_blank c :
  regexp.inClass regexp.perl_d c = true -> regexp.inClass regexp.perl_s c = false.
Proof.
  intros H. destruct (regexp.inClass regexp.perl_s c) eqn:E; [|reflexivity].
  apply blank_not_digit in E. congruence.
Qed.

Lemma isNumeral_elim a :
  isNumeral a = true ->
  nonEmpty a = true /\ forallb (regexp.inClass regexp.perl_d) a = true.
Proof.
  unfold isNumeral. rewrite forallb_perl_d. apply andb_true_iff.
Qed.

Lemma blankRun_elim s :
  blankRun s = true ->
  nonEmpty s = true /\ forallb (regexp.inClass regexp.perl_s) s = true.
Proof. apply andb_true_iff. Qed.

Lemma stopsAt_blank s t : blankRun s = true -> stopsAt regexp.perl_d (s ++ t) = true.
Proof.
  intros H. apply blankRun_elim in H as [Hne H].
  destruct s as [|c s]; [discriminate|]. cbn [forallb] in H. cbn [app stopsAt].
  apply andb_true_iff in H as [H _]. rewrite (blank_not_digit c H). reflexivity.
Qed.

Lemma stopsAt_numeral a t : isNumeral a = true -> stopsAt regexp.perl_s (a ++ t) = true.
Proof.
  intros H. apply isNumeral_elim in H as [Hne H].
  destruct a as [|c a]; [discriminate|]. cbn [forallb] in H. cbn [app stopsAt].
  apply andb_true_iff in H as [H _]. rewrite (digit_not_blank c H). reflexivity.
Qed.

Ltac greedy_step :=
  match goal with
  | |- exists _, _ => eexists
  | |- _ /\ _ => split
  | |- _ = _ => reflexivity
  end.

Ltac greedy_side :=
  match goal with
  | H : isNumeral ?a = true |- nonEmpty ?a = true => apply (isNumeral_elim a H)
  | H : isNumeral ?a = true |- forallb _ ?a = true => apply (isNumeral_elim a H)
  | H : blankRun ?a = true |- nonEmpty ?a = true => apply (blankRun_elim a H)
  | H : blankRun ?a = true |- forallb _ ?a = true => apply (blankRun_elim a H)
  | |- stopsAt _ (_ ++ _) = true =>
      first [ apply stopsAt_blank; assumption | apply stopsAt_numeral; assumption
            | reflexivity ]
  | H : isNumeral ?a = true |- stopsAt _ ?a = true =>
      rewrite <- (app_nil_r a); apply stopsAt_numeral; assumption
  | |- stopsAt _ _ = true => reflexivity
  end.

Lemma firstn_span_end (p : nat) (m : bytes) :
  firstn (p + length m - p) m = m.
Proof.
  replace (p + length m - p)%nat with (length m) by lia. apply firstn_all.
Qed.

Ltac greedy_match :=
  repeat greedy_step;
  try (symmetry; apply app_nil_r);
  try greedy_side.

Ltac captures :=
  rewrite ?firstn_span, ?firstn_span_end; whole_match; reflexivity.

Lemma blankRun_intro m :
  nonEmpty m = true -> forallb (regexp.inClass regexp.perl_s) m = true ->
  blankRun m = true.
Proof. intros H1 H2. unfold blankRun. rewrite H1, H2. reflexivity. Qed.

Lemma line1Regex_complete a :
  isNumeral a = true ->
  regexp.FindStringSubmatch nginx.line1Regex ("Active connections: "%string ++ a)
  = [ "Active connections: "%string ++ a; a ].
Proof.
  intros Ha.
  eapply FindStringSubmatch_greedy.
  cbn [greedyMatch matches nginx.line1Regex regexp.NumSubexp].
  greedy_match. captures.
Qed.

Lemma line1Regex_shape l :
  regexp.FindStringSubmatch nginx.line1Regex l <> [] ->
  exists a, isNumeral a = true /\ l = "Active connections: "%string ++ a.
Proof.
  intros H.
  apply (FindStringSubmatch_anchored _ l _ eq_refl) in H.
  destruct H as (pos' & s' & H).
  cbn [matches nginx.line1Regex regexp.NumSubexp] in H.
  destruct_matches.
  match goal with Hn : nonEmpty ?m = true |- _ => exists m end.
  rewrite app_nil_r.
  split; [apply isNumeral_intro; assumption | reflexivity].
Qed.

Lemma line3Regex_complete a s1 b s2 c :
  isNumeral a = true -> blankRun s1 = true -> isNumeral b = true ->
  blankRun s2 = true -> isNumeral c = true ->
  regexp.FindStringSubmatch nginx.line3Regex (a ++ s1 ++ b ++ s2 ++ c)
  = [ a ++ s1 ++ b ++ s2 ++ c; a; b; c ].
Proof.
  intros Ha H1 Hb H2 Hc.
  eapply FindStringSubmatch_greedy.
  cbn [greedyMatch matches nginx.line3Regex regexp.NumSubexp].
  greedy_match. captures.
Qed.

Lemma line3Regex_shape l :
  regexp.FindStringSubmatch nginx.line3Regex l <> [] ->
  exists a s1 b s2 c,
    l = a ++ s1 ++ b ++ s2 ++ c
    /\ isNumeral a = true /\ blankRun s1 = true /\ isNumeral b = true
    /\ blankRun s2 = true /\ isNumeral c = true.
Proof.
  intros H.
  apply (FindStringSubmatch_anchored _ l _ eq_refl) in H.
  destruct H as (pos' & s' & H).
  cbn [matches nginx.line3Regex regexp.NumSubexp] in H.
  destruct_matches.
  rewrite app_nil_r.
  do 5 eexists. split; [reflexivity|].
  repeat split; first [apply isNumeral_intro | apply blankRun_intro]; assumption.
Qed.

Lemma line4Regex_complete s1 a s2 s3 b s4 s5 c :
  blankRun s1 = true -> isNumeral a = true -> blankRun s2 = true ->
  blankRun s3 = true -> isNumeral b = true -> blankRun s4 = true ->
  blankRun s5 = true -> isNumeral c = true ->
  let l := "Reading:"%string ++ s1 ++ a ++ s2 ++ "Writing:"%string ++ s3 ++ b
             ++ s4 ++ "Waiting:"%string ++ s5 ++ c in
  regexp.FindStringSubmatch nginx.line4Regex l = [ l; a; b; c ].
Proof.
  intros H1 Ha H2 H3 Hb H4 H5 Hc l. subst l.
  eapply FindStringSubmatch_greedy.
  cbn [greedyMatch matches nginx.line4Regex regexp.NumSubexp].
  greedy_match. captures.
Qed.

Lemma line4Regex_shape l :
  regexp.FindStringSubmatch nginx.line4Regex l <> [] ->
  exists s1 a s2 s3 b s4 s5 c,
    l = "Reading:"%string ++ s1 ++ a ++ s2 ++ "Writing:"%string ++ s3 ++ b
          ++ s4 ++ "Waiting:"%string ++ s5 ++ c
    /\ blankRun s1 = true /\ isNumeral a = true /\ blankRun s2 = true
    /\ blankRun s3 = true /\ isNumeral b = true /\ blankRun s4 = true
    /\ blankRun s5 = true /\ isNumeral c = true.
Proof.
  intros H.
  apply (FindStringSubmatch_anchored _ l _ eq_refl) in H.
  destruct H as (pos' & s' & H).
  cbn [matches nginx.line4Regex regexp.NumSubexp] in H.
  destruct_matches.
  rewrite app_nil_r.
  do 8 eexists. split; [reflexivity|].
  repeat split; first [apply isNumeral_intro | apply blankRun_intro]; assumption.
Qed.

(** X5: the pattern of line 1 matches exactly the lines "Active
    connections: " followed by a decimal numeral, and the group of the
    match is that numeral (leading zeros included). *)
Theorem line1_pattern_grammar :
  (forall a, isNumeral a = true ->
     regexp.FindStringSubmatch nginx.line1Regex ("Active connections: "%string ++ a)
     = [ "Active connections: "%string ++ a; a ])
  /\ (forall l, regexp.FindStringSubmatch nginx.line1Regex l <> [] ->
      exists a, isNumeral a = true /\ l = "Active connections: "%string ++ a).
Proof. split; [exact line1Regex_complete | exact line1Regex_shape]. Qed.

Lemma line1_pattern_grammar_witness :
  regexp.FindStringSubmatch nginx.line1Regex
    ("Active connections: "%string ++ list_ascii_of_string "007")
  = [ "Active connections: "%string ++ list_ascii_of_string "007";
      list_ascii_of_string "007" ].
Proof.
  apply (proj1 line1_pattern_grammar (list_ascii_of_string "007")). reflexivity.
Defined.

(** X6: the pattern of line 3 matches exactly three decimal numerals
    separated by non-empty runs of tab, line feed, form feed, carriage
    return or space, and the three groups are the three numerals. *)
Theorem line3_pattern_grammar :
  (forall a s1 b s2 c,
     isNumeral a = true -> blankRun s1 = true -> isNumeral b = true ->
     blankRun s2 = true -> isNumeral c = true ->
     regexp.FindStringSubmatch nginx.line3Regex (a ++ s1 ++ b ++ s2 ++ c)
     = [ a ++ s1 ++ b ++ s2 ++ c; a; b; c ])
  /\ (forall l, regexp.FindStringSubmatch nginx.line3Regex l <> [] ->
      exists a s1 b s2 c,
        l = a ++ s1 ++ b ++ s2 ++ c
        /\ isNumeral a = true /\ blankRun s1 = true /\ isNumeral b = true
        /\ blankRun s2 = true /\ isNumeral c = true).
Proof. split; [exact line3Regex_complete | exact line3Regex_shape]. Qed.

Lemma line3_pattern_grammar_witness :
  let tabs : bytes := [ "009"%char; " "%char ] in
  regexp.FindStringSubmatch nginx.line3Regex
    (list_ascii_of_string "1237" ++ tabs ++ list_ascii_of_string "89" ++ tabs
       ++ list_ascii_of_string "91")
  = [ list_ascii_of_string "1237" ++ tabs ++ list_ascii_of_string "89" ++ tabs
        ++ list_ascii_of_string "91";
      list_ascii_of_string "1237"; list_ascii_of_string "89";
      list_ascii_of_string "91" ].
Proof.
  intros tabs.
  apply (proj1 line3_pattern_grammar (list_ascii_of_string "1237") tabs
           (list_ascii_of_string "89") tabs (list_ascii_of_string "91"));
    reflexivity.
Defined.

(** X7: the pattern of line 4 matches exactly the lines "Reading:",
    "Writing:" and "Waiting:", each followed by white space and a decimal
    numeral and separated by white space; the three groups are the three
    numerals. *)
Theorem line4_pattern_grammar :
  (forall s1 a s2 s3 b s4 s5 c,
     blankRun s1 = true -> isNumeral a = true -> blankRun s2 = true ->
     blankRun s3 = true -> isNumeral b = true -> blankRun s4 = true ->
     blankRun s5 = true -> isNumeral c = true ->
     let l := "Reading:"%string ++ s1 ++ a ++ s2 ++ "Writing:"%string ++ s3 ++ b
                ++ s4 ++ "Waiting:"%string ++ s5 ++ c in
     regexp.FindStringSubmatch nginx.line4Regex l = [ l; a; b; c ])
  /\ (forall l, regexp.FindStringSubmatch nginx.line4Regex l <> [] ->
      exists s1 a s2 s3 b s4 s5 c,
        l = "Reading:"%string ++ s1 ++ a ++ s2 ++ "Writing:"%string ++ s3 ++ b
              ++ s4 ++ "Waiting:"%string ++ s5 ++ c
        /\ blankRun s1 = true /\ isNumeral a = true /\ blankRun s2 = true
        /\ blankRun s3 = true /\ isNumeral b = true /\ blankRun s4 = true
        /\ blankRun s5 = true /\ isNumeral c = true).
Proof. split; [exact line4Regex_complete | exact line4Regex_shape]. Qed.

Lemma line4_pattern_grammar_witness :
  let sp : bytes := [ " "%char ] in
  let l : bytes :=
    "Reading:"%string ++ sp ++ list_ascii_of_string "55" ++ sp
      ++ "Writing:"%string ++ sp ++ list_ascii_of_string "767" ++ sp
      ++ "Waiting:"%string ++ sp ++ list_ascii_of_string "1234" in
  regexp.FindStringSubmatch nginx.line4Regex l
  = [ l; list_ascii_of_string "55"; list_ascii_of_string "767";
      list_ascii_of_string "1234" ].
Proof.
  intros sp l.
  apply (proj1 line4_pattern_grammar sp (list_ascii_of_string "55") sp sp
           (list_ascii_of_string "767") sp sp (list_ascii_of_string "1234"));
    reflexivity.
Defined.

(** ** The payloads [extractMetrics] accepts *)

Ltac split_Forall :=
  repeat match goal with
  | H : Forall _ (_ :: _) |- _ => apply Forall_cons in H as [? H]
  end.

Lemma Forall_of_forallb {A} (f : A -> bool) (l : list A) :
  forallb f l = true -> Forall (fun x => f x = true) l.
Proof. intros H. apply List.Forall_forall. apply forallb_forall. exact H. Qed.

Ltac decide_Forall := apply Forall_of_forallb; vm_compute; reflexivity.

Ltac build_Forall :=
  repeat (apply Forall_cons; split; [assumption|]); apply Forall_nil_2.

Lemma statusPage_outcome w content h p a b c d e f g :
  statusPage (nginx.scanLines content) [a; b; c; d; e; f; g] ->
  fst (nginx.extractMetrics w content h p)
  = outcomeOf (firstReading w) h p a b c d e f g.
Proof.
  intros (l2 & s1 & s2 & s3 & s4 & s5 & s6 & s7 & a' & b' & c' & d' & e' & f' & g'
          & Hf & Hl & HN & HB).
  injection Hf as -> -> -> -> -> -> ->.
  split_Forall.
  eapply extractMetrics_matched; [exact Hl | | | | build_Forall].
  - apply line1Regex_complete; assumption.
  - apply line3Regex_complete; assumption.
  - apply line4Regex_complete; assumption.
Qed.

Lemma extractMetrics_success_lines w content h p :
  snd (fst (nginx.extractMetrics w content h p)) = None ->
  exists l1 l2 l3 l4,
    nginx.scanLines content = [l1; l2; l3; l4]
    /\ length (regexp.FindStringSubmatch nginx.line1Regex l1) = 2%nat
    /\ length (regexp.FindStringSubmatch nginx.line3Regex l3) = 4%nat
    /\ length (regexp.FindStringSubmatch nginx.line4Regex l4) = 4%nat.
Proof.
  unfold nginx.extractMetrics, nginx.nowFn, time.Now.
  cbv beta iota zeta. cbn [fst snd].
  destruct (nginx.scanLines content) as [|l1 [|l2 [|l3 [|l4 [|l5 ls]]]]];
    try (cbn; discriminate).
  - cbn [length nginx.at_ nth Z.of_nat Pos.of_succ_nat Pos.succ Z.eqb Pos.eqb negb].
    intros H. exists l1, l2, l3, l4. split; [reflexivity|].
    destruct (Z.eqb_spec
                (Z.of_nat (length (regexp.FindStringSubmatch nginx.line1Regex l1))) 2)
      as [E1|]; [|discriminate H]. cbn [negb] in H.
    destruct (strconv.ParseUint _) as [? [?|]]; [discriminate H|].
    destruct (Z.eqb_spec
                (Z.of_nat (length (regexp.FindStringSubmatch nginx.line3Regex l3))) 4)
      as [E3|]; [|discriminate H]. cbn [negb] in H.
    do 3 (destruct (strconv.ParseUint _) as [? [?|]]; [discriminate H|]).
    destruct (Z.eqb_spec
                (Z.of_nat (length (regexp.FindStringSubmatch nginx.line4Regex l4))) 4)
      as [E4|]; [|discriminate H].
    repeat split; lia.
  - cbn [length]. destruct (Z.eqb_spec (Z.of_nat (S (S (S (S (S (length ls))))))) 4);
      [lia | cbn; discriminate].
Qed.

Lemma outcomeOf_success ts h p a b c d e f g :
  snd (outcomeOf ts h p a b c d e f g) = None
  <-> Forall (fun x => decimalValue x <= 2 ^ 64 - 1) [a; b; c; d; e; f; g].
Proof.
  unfold outcomeOf.
  destruct (firstOverflow (fieldsOf a b c d e f g)) as [[prefix num]|] eqn:Hov.
  - cbn [snd]. split; [discriminate|]. intros HF.
    apply firstOverflow_Some in Hov as [Hin Hgt]. cbn [snd] in Hgt.
    unfold fieldsOf in Hin. unfold strconv.maxUint64 in Hgt.
    split_Forall.
    cbn [In] in Hin.
    repeat (destruct Hin as [Hin | Hin]; [injection Hin as <- <-; lia|]).
    destruct Hin.
  - cbn [snd]. split; [intros _ | reflexivity].
    apply firstOverflow_None in Hov.
    unfold fieldsOf, strconv.maxUint64 in Hov. split_Forall. cbn [snd] in *.
    build_Forall.
Qed.

Lemma success_statusPage w content h p :
  snd (fst (nginx.extractMetrics w content h p)) = None
  <-> exists fields,
        statusPage (nginx.scanLines content) fields
        /\ Forall (fun x => decimalValue x <= 2 ^ 64 - 1) fields.
Proof.
  split.
  - intros Hok.
    destruct (extractMetrics_success_lines w content h p Hok)
      as (l1 & l2 & l3 & l4 & Hl & E1 & E3 & E4).
    destruct (line1Regex_shape l1) as (a & Na & ->).
    { intros E. rewrite E in E1. discriminate. }
    destruct (line3Regex_shape l3) as (b & s1 & c & s2 & d & -> & Nb & B1 & Nc & B2 & Nd).
    { intros E. rewrite E in E3. discriminate. }
    destruct (line4Regex_shape l4)
      as (s3 & e & s4 & s5 & f & s6 & s7 & g & -> & B3 & Ne & B4 & B5 & Nf & B6 & B7 & Ng).
    { intros E. rewrite E in E4. discriminate. }
    exists [a; b; c; d; e; f; g].
    assert (HP : statusPage (nginx.scanLines content) [a; b; c; d; e; f; g]).
    { exists l2, s1, s2, s3, s4, s5, s6, s7, a, b, c, d, e, f, g.
      split; [reflexivity|]. split; [exact Hl|]. split; build_Forall. }
    split; [exact HP|].
    rewrite (statusPage_outcome w content h p _ _ _ _ _ _ _ HP) in Hok.
    apply outcomeOf_success in Hok. exact Hok.
  - intros (fields & HP & HF).
    pose proof HP as HP'.
    destruct HP' as (l2 & s1 & s2 & s3 & s4 & s5 & s6 & s7 & a & b & c & d & e & f & g
                     & -> & _).
    rewrite (statusPage_outcome w content h p _ _ _ _ _ _ _ HP).
    apply outcomeOf_success. exact HF.
Qed.

(** X8: the payloads [extractMetrics] accepts.  For a payload whose
    lines are all shorter than 65536 bytes, the call succeeds exactly when
    the non-blank lines, trimmed, are the four lines of a status page
    (line 2 being any text) and the seven numerals are at most 2^64 - 1;
    and on a status page the result is that of [outcomeOf]: the seven
    records for the seven values, or the error of the first numeral that
    does not fit. *)
Theorem extractMetrics_accepts_status_pages w content h p :
  Forall (fun l => fitsScanner l = true) (splitLF content) ->
  (snd (fst (nginx.extractMetrics w content h p)) = None
   <-> exists fields,
         statusPage (nonBlankLines content) fields
         /\ Forall (fun x => decimalValue x <= 2 ^ 64 - 1) fields)
  /\ (forall a b c d e f g,
        statusPage (nonBlankLines content) [a; b; c; d; e; f; g] ->
        fst (nginx.extractMetrics w content h p)
        = outcomeOf (firstReading w) h p a b c d e f g).
Proof.
  intros Hfit. rewrite <- (scanLines_nonBlankLines content Hfit).
  split; [apply success_statusPage | apply statusPage_outcome].
Qed.

Lemma extractMetrics_accepts_status_pages_witness :
  snd (fst (nginx.extractMetrics testClock allLinesOk hostname port)) = None
  <-> exists fields,
        statusPage (nonBlankLines allLinesOk) fields
        /\ Forall (fun x => decimalValue x <= 2 ^ 64 - 1) fields.
Proof.
  apply (extractMetrics_accepts_status_pages testClock allLinesOk hostname port).
  decide_Forall.
Defined.

Lemma lineValid_fields re n l :
  lineValid re n l = true ->
  length (regexp.FindStringSubmatch re l) = S n
  /\ Forall (fun x => snd (strconv.ParseUint x) = None)
            (tl (regexp.FindStringSubmatch re l)).
Proof.
  unfold lineValid. intros H. apply andb_true_iff in H as [Hl Hp].
  apply Nat.eqb_eq in Hl. split; [exact Hl|].
  apply List.Forall_forall. intros x Hx.
  rewrite forallb_forall in Hp. specialize (Hp x Hx).
  destruct (strconv.ParseUint x) as [v [e|]]; [discriminate | reflexivity].
Qed.

(** X9: the errors for a line that does not match.  With four non-blank
    lines: when line 1 does not match, the error shows line 1; when line 1
    is valid and line 3 does not match, or lines 1 and 3 are valid and
    line 4 does not match, the error names line 3 or line 4 and shows the
    text of line 1. *)
Theorem mismatch_errors_show_the_first_line w content h p l1 l2 l3 l4 :
  Forall (fun l => fitsScanner l = true) (splitLF content) ->
  nonBlankLines content = [l1; l2; l3; l4] ->
  (regexp.FindStringSubmatch nginx.line1Regex l1 = [] ->
   fst (nginx.extractMetrics w content h p)
   = ([], Some (nginx.Errorf_s "unexpected input for line 1: " l1)))
  /\ (lineValid nginx.line1Regex 1 l1 = true ->
      regexp.FindStringSubmatch nginx.line3Regex l3 = [] ->
      fst (nginx.extractMetrics w content h p)
      = ([], Some (nginx.Errorf_s "unexpected input for line 3: " l1)))
  /\ (lineValid nginx.line1Regex 1 l1 = true ->
      lineValid nginx.line3Regex 3 l3 = true ->
      regexp.FindStringSubmatch nginx.line4Regex l4 = [] ->
      fst (nginx.extractMetrics w content h p)
      = ([], Some (nginx.Errorf_s "unexpected input for line 4: " l1))).
Proof.
  intros Hfit Hl. rewrite <- (scanLines_nonBlankLines content Hfit) in Hl.
  unfold nginx.extractMetrics, nginx.nowFn, time.Now.
  cbv beta iota zeta. cbn [fst snd]. rewrite Hl.
  cbn [length nginx.at_ nth Z.of_nat Pos.of_succ_nat Pos.succ Z.eqb Pos.eqb negb].
  split; [|split].
  - intros H1. rewrite H1. reflexivity.
  - intros V1 H3. apply lineValid_fields in V1 as [L1 P1].
    destruct (regexp.FindStringSubmatch nginx.line1Regex l1)
      as [|m0 [|m1 [|]]]; try discriminate L1.
    cbn [tl] in P1. apply Forall_cons in P1 as [P1 _].
    cbn [length nginx.at_ nth Z.of_nat Pos.of_succ_nat Pos.succ Z.eqb Pos.eqb negb].
    destruct (strconv.ParseUint m1) as [v [e|]]; [discriminate P1|].
    rewrite H3. reflexivity.
  - intros V1 V3 H4. apply lineValid_fields in V1 as [L1 P1].
    apply lineValid_fields in V3 as [L3 P3].
    destruct (regexp.FindStringSubmatch nginx.line1Regex l1)
      as [|m0 [|m1 [|]]]; try discriminate L1.
    destruct (regexp.FindStringSubmatch nginx.line3Regex l3)
      as [|n0 [|n1 [|n2 [|n3 [|]]]]]; try discriminate L3.
    cbn [tl] in P1, P3. apply Forall_cons in P1 as [P1 _].
    apply Forall_cons in P3 as [P31 P3]. apply Forall_cons in P3 as [P32 P3].
    apply Forall_cons in P3 as [P33 _].
    cbn [length nginx.at_ nth Z.of_nat Pos.of_succ_nat Pos.succ Z.eqb Pos.eqb negb].
    destruct (strconv.ParseUint m1) as [v [e|]]; [discriminate P1|].
    destruct (strconv.ParseUint n1) as [v1 [e|]]; [discriminate P31|].
    destruct (strconv.ParseUint n2) as [v2 [e|]]; [discriminate P32|].
    destruct (strconv.ParseUint n3) as [v3 [e|]]; [discriminate P33|].
    rewrite H4. reflexivity.
Qed.

Lemma mismatch_errors_show_the_first_line_witness :
  let line3 : bytes := "huh"%string ++ outputLine3Ok in
  fst (nginx.extractMetrics testClock
         (outputLine1Ok ++ NL ++ outputLine2Ok ++ NL ++ line3 ++ NL
            ++ outputLine4Ok ++ NL) hostname port)
  = ([], Some (nginx.Errorf_s "unexpected input for line 3: " outputLine1Ok)).
Proof.
  intros line3.
  apply (mismatch_errors_show_the_first_line testClock
           (outputLine1Ok ++ NL ++ outputLine2Ok ++ NL ++ line3 ++ NL
              ++ outputLine4Ok ++ NL) hostname port
           outputLine1Ok outputLine2Ok line3 outputLine4Ok).
  - decide_Forall.
  - vm_compute. reflexivity.
  - vm_compute. reflexivity.
  - vm_compute. reflexivity.
Defined.

(** ** Blank lines, line ends and long lines *)

(** X10: the result depends on the payload through its non-blank lines,
    trimmed, only.  Two payloads (lines shorter than 65536 bytes) with the
    same such lines give the same result: blank lines, carriage returns
    before the line feeds and a missing last line feed do not matter. *)
Theorem same_lines_same_result w content content' h p :
  Forall (fun l => fitsScanner l = true) (splitLF content) ->
  Forall (fun l => fitsScanner l = true) (splitLF content') ->
  nonBlankLines content = nonBlankLines content' ->
  nginx.extractMetrics w content h p = nginx.extractMetrics w content' h p.
Proof.
  intros Hfit Hfit' Hl. apply extractMetrics_ext.
  rewrite !scanLines_nonBlankLines by assumption. exact Hl.
Qed.

Lemma same_lines_same_result_witness :
  nginx.extractMetrics testClock allLinesDos hostname port
  = nginx.extractMetrics testClock allLinesOk hostname port.
Proof.
  apply (same_lines_same_result testClock allLinesDos allLinesOk hostname port).
  - decide_Forall.
  - decide_Forall.
  - vm_compute. reflexivity.
Defined.

(** X11: a line of 65536 bytes or more ends the scan silently.  The
    result is that of the lines before it: what follows the long line is
    never looked at. *)
Theorem oversized_line_ends_the_scan w before long after h p :
  Forall (fun l => noLF l = true) (before ++ long :: after) ->
  Forall (fun l => fitsScanner l = true) before ->
  fitsScanner long = false ->
  nginx.extractMetrics w (joinLF (before ++ long :: after)) h p
  = nginx.extractMetrics w (joinLF before) h p.
Proof.
  intros HLF Hfit Hlong. apply extractMetrics_ext.
  rewrite !scanLines_joinLF; [| apply Forall_app in HLF; tauto | exact HLF].
  f_equal. f_equal.
  rewrite (deliverable_fits before Hfit).
  clear HLF. induction Hfit as [|l ls Hl Hls IH]; cbn [app deliverable].
  - rewrite Hlong. reflexivity.
  - rewrite Hl, IH. reflexivity.
Qed.

Lemma oversized_line_ends_the_scan_witness :
  let before := [outputLine1Ok; outputLine2Ok; outputLine3Ok; outputLine4Ok] in
  let after := [list_ascii_of_string "not a status page"; outputLine1Ok] in
  nginx.extractMetrics testClock (joinLF (before ++ longLine :: after)) hostname port
  = nginx.extractMetrics testClock (joinLF before) hostname port.
Proof.
  intros before after.
  apply (oversized_line_ends_the_scan testClock before longLine after hostname port).
  - decide_Forall.
  - decide_Forall.
  - vm_compute. reflexivity.
Defined.

(** ** What [TrimSpace] leaves *)

Lemma startsRune_concat es t :
  Forall spaceEnc es -> startsRune t = true -> startsRune (concat es ++ t) = true.
Proof.
  intros H Ht. induction H as [|e es (r & Hv & _) Hes IH]; [exact Ht|].
  cbn [concat]. rewrite <- app_assoc. apply (validEnc_startsRune e r). exact Hv.
Qed.

(** The rune found backwards at the end of a string is what decoding
    forwards from its first byte spans. *)
Lemma cutWidth_last rs :
  rs <> [] ->
  let seg := reverse (firstn (Z.to_nat (snd (utf8.DecodeLastRuneInString rs))) rs) in
  seg <> [] /\ firstn (Z.to_nat (cutWidth seg)) seg = seg.
Proof.
  destruct rs as [|c before]; [congruence|]. intros _.
  assert (Hone : forall c', [c'] <> [] /\ firstn (Z.to_nat (cutWidth [c'])) [c'] = [c']).
  { intros c'. split; [discriminate|]. unfold cutWidth.
    destruct (utf8.RuneSelf <=? byteZ c'); [|reflexivity].
    pose proof (Decode_size [c'] ltac:(discriminate)) as Hs. cbn [length] in Hs.
    replace (snd (utf8.DecodeRuneInString [c'])) with 1 by lia. reflexivity. }
  unfold utf8.DecodeLastRuneInString.
  destruct (byteZ c <? utf8.RuneSelf) eqn:E.
  { cbn [snd]. cbv zeta. change (Z.to_nat 1) with 1%nat. cbn [firstn].
    change (firstn 0 before) with (@nil ascii). apply Hone. }
  cbv zeta. pose proof (lastRuneSpan_pos before) as Hspan.
  set (span := utf8.lastRuneSpan before) in *.
  set (seg0 := reverse (firstn span (c :: before))).
  destruct (utf8.DecodeRuneInString seg0) as [r size] eqn:Hdec.
  destruct (Z.eqb_spec size (Z.of_nat span)) as [Hsz | Hsz]; cbn [negb snd].
  2:{ change (Z.to_nat 1) with 1%nat. cbn [firstn].
      change (firstn 0 before) with (@nil ascii). apply Hone. }
  subst size. rewrite Nat2Z.id. fold seg0.
  assert (Hne : seg0 <> []).
  { unfold seg0. destruct span; [lia|]. cbn [firstn]. intros H.
    apply (f_equal (@length ascii)) in H. rewrite length_reverse in H.
    cbn [length] in H. lia. }
  split; [exact Hne|].
  pose proof (Decode_size seg0 Hne) as Hs. rewrite Hdec in Hs. cbn [snd] in Hs.
  assert (Hlen : length seg0 = span).
  { assert (length seg0 <= span)%nat; [|lia].
    unfold seg0. rewrite length_reverse, length_take. lia. }
  unfold cutWidth. destruct seg0 as [|c' seg'] eqn:Hseg; [congruence|].
  destruct (utf8.RuneSelf <=? byteZ c') eqn:E'.
  - rewrite Hdec. cbn [snd]. rewrite Nat2Z.id, <- Hlen. apply firstn_all.
  - apply RuneSelf_leb in E'.
    pose proof (validEnc_decode [c'] _ seg' (validEnc_ascii c' E')) as Hd.
    cbn [app length] in Hd. rewrite Hdec in Hd. injection Hd as _ Hd.
    assert (Hone' : length (c' :: seg') = 1%nat) by lia.
    cbn [length] in Hone'.
    destruct seg'; [reflexivity | cbn [length] in Hone'; lia].
Qed.

(** What [TrimRightFunc] removes is white space, and what it leaves does
    not end with white space. *)
Lemma trimRightLoop_structure : forall fuel rs es,
  (length rs <= fuel)%nat -> Forall spaceEnc es ->
  let z := gostrings.trimRightLoop fuel unicode.IsSpace rs (concat es) in
  exists es', Forall spaceEnc es'
    /\ reverse rs ++ concat es = z ++ concat es'
    /\ (z = [] \/ unicode.IsSpace (fst (utf8.DecodeLastRuneInString (reverse z))) = false).
Proof.
  induction fuel as [|fuel IH]; intros rs es Hlen Hes; cbv zeta.
  { destruct rs; [|cbn in Hlen; lia]. exists es. cbn. auto. }
  rewrite trimRightLoop_unfold. destruct rs as [|c rs].
  { exists es. cbn. auto. }
  cbv zeta.
  destruct (unicode.IsSpace (fst (utf8.DecodeLastRuneInString (c :: rs)))) eqn:Hsp.
  - destruct (DecodeLast_space _ Hsp) as (e & rs' & Hrs & Hv & Hsize).
    rewrite Hsize, Nat2Z.id, Hrs.
    pose proof (validEnc_nonempty _ _ Hv) as Hne.
    assert (Hl : length (reverse e) = length e) by apply length_reverse.
    rewrite <- Hl, drop_app_length, take_app_length, reverse_involutive.
    assert (Hse : spaceEnc e) by (eexists; split; [exact Hv | exact Hsp]).
    destruct (IH rs' (e :: es)) as (es' & Hes' & Heq & Hend).
    { apply (f_equal (@length ascii)) in Hrs. rewrite length_app, Hl in Hrs.
      cbn [length] in Hrs, Hlen. destruct e; [congruence|]. cbn [length] in Hrs. lia. }
    { constructor; assumption. }
    cbn [concat] in Heq, Hend. exists es'. split; [exact Hes'|]. split; [|exact Hend].
    rewrite <- Heq. rewrite reverse_app, reverse_involutive, <- app_assoc. reflexivity.
  - exists es. split; [exact Hes|].
    destruct (cutWidth_last (c :: rs) ltac:(discriminate)) as [Hne Hcut].
    set (n := Z.to_nat (snd (utf8.DecodeLastRuneInString (c :: rs)))) in *.
    rewrite cutWidth_tail, Hcut;
      [| exact Hne | rewrite <- (app_nil_r (concat es)); apply startsRune_concat; auto].
    rewrite <- reverse_app, take_drop. split; [reflexivity|].
    right. rewrite reverse_involutive. exact Hsp.
Qed.

Lemma TrimRightFunc_structure y :
  let z := gostrings.TrimRightFunc y unicode.IsSpace in
  exists es, Forall spaceEnc es /\ y = z ++ concat es
    /\ (z = [] \/ unicode.IsSpace (fst (utf8.DecodeLastRuneInString (reverse z))) = false).
Proof.
  cbv zeta. unfold gostrings.TrimRightFunc.
  destruct (trimRightLoop_structure (length y) (reverse y) [])
    as (es & Hes & Heq & Hend); [rewrite length_reverse; lia | constructor |].
  cbn [concat] in Heq, Hend. rewrite app_nil_r, reverse_involutive in Heq.
  exists es. auto.
Qed.

(** What [TrimLeftFunc] removes is white space, and what it leaves does
    not start with white space. *)
Lemma trimLeftLoop_structure : forall fuel s,
  (length s <= fuel)%nat ->
  let z := gostrings.trimLeftLoop fuel unicode.IsSpace s in
  exists es, Forall spaceEnc es /\ s = concat es ++ z
    /\ (z = [] \/ unicode.IsSpace (fst (utf8.DecodeRuneInString z)) = false).
Proof.
  induction fuel as [|fuel IH]; intros s Hlen; cbv zeta.
  { destruct s; [|cbn in Hlen; lia]. exists []. cbn. auto. }
  destruct s as [|c s]. { exists []. cbn. auto. }
  rewrite trimLeftLoop_step by discriminate.
  destruct (unicode.IsSpace (fst (utf8.DecodeRuneInString (c :: s)))) eqn:Hsp.
  - destruct (Decode_space _ Hsp) as (e & t & Hs & Hv & Hsize).
    rewrite Hsize, Nat2Z.id, Hs, drop_app_length.
    pose proof (validEnc_nonempty _ _ Hv) as Hne.
    destruct (IH t) as (es & Hes & Heq & Hend).
    { apply (f_equal (@length ascii)) in Hs. rewrite length_app in Hs.
      cbn [length] in Hs, Hlen. destruct e; [congruence|]. cbn [length] in Hs. lia. }
    exists (e :: es). split; [constructor; [eexists; eauto | exact Hes]|].
    split; [|exact Hend]. cbn [concat]. rewrite <- app_assoc, <- Heq. reflexivity.
  - exists []. cbn. auto.
Qed.

(** What [TrimSpace] does to any sequence of bytes, well-formed UTF-8 or
    not. *)
Lemma TrimSpace_structure s :
  let z := gostrings.TrimSpace s in
  exists lead trail,
    IsSpaceString lead = true /\ IsSpaceString trail = true
    /\ s = lead ++ z ++ trail
    /\ (z = []
        \/ unicode.IsSpace (fst (utf8.DecodeRuneInString z)) = false
           /\ unicode.IsSpace (fst (utf8.DecodeLastRuneInString (reverse z))) = false).
Proof.
  cbv zeta. rewrite TrimSpace_spec. unfold gostrings.TrimFunc, gostrings.TrimLeftFunc.
  destruct (trimLeftLoop_structure (length s) s (le_n _)) as (es & Hes & Hs & Hfirst).
  set (s' := gostrings.trimLeftLoop (length s) unicode.IsSpace s) in *.
  destruct (TrimRightFunc_structure s') as (es' & Hes' & Hs' & Hlast).
  set (z := gostrings.TrimRightFunc s' unicode.IsSpace) in *.
  exists (concat es), (concat es').
  split; [apply IsSpaceString_concat; exact Hes|].
  split; [apply IsSpaceString_concat; exact Hes'|].
  split; [rewrite <- Hs'; exact Hs|].
  destruct Hlast as [Hz | Hlast]; [left; exact Hz|].
  destruct (nonEmpty z) eqn:Hz; [|left; destruct z; [reflexivity | discriminate]].
  right. split; [|exact Hlast].
  destruct Hfirst as [Hnil | Hfirst].
  { rewrite Hnil in Hs'. destruct z; discriminate. }
  rewrite Hs' in Hfirst. rewrite Decode_app_startsRune in Hfirst; auto.
  - intros ->. discriminate.
  - rewrite <- (app_nil_r (concat es')). apply startsRune_concat; auto.
Qed.

Lemma TrimSpace_idempotent s :
  gostrings.TrimSpace (gostrings.TrimSpace s) = gostrings.TrimSpace s.
Proof.
  destruct (TrimSpace_structure s) as (lead & trail & Hl & Ht & Hs & _).
  rewrite Hs at 2. rewrite TrimSpace_padding by assumption. reflexivity.
Qed.

(** X12: [strings.TrimSpace] on any sequence of bytes, well-formed UTF-8
    or not: what it removes is white space before and white space after,
    what it leaves is empty or neither starts nor ends with a white space
    rune, and trimming again changes nothing. *)
Theorem TrimSpace_removes_the_white_space_around s :
  let z := gostrings.TrimSpace s in
  (exists lead trail,
     IsSpaceString lead = true /\ IsSpaceString trail = true
     /\ s = lead ++ z ++ trail)
  /\ (z = []
      \/ unicode.IsSpace (fst (utf8.DecodeRuneInString z)) = false
         /\ unicode.IsSpace (fst (utf8.DecodeLastRuneInString (reverse z))) = false)
  /\ gostrings.TrimSpace z = z.
Proof.
  cbv zeta. destruct (TrimSpace_structure s) as (lead & trail & Hl & Ht & Hs & Hends).
  split; [exists lead, trail; auto|]. split; [exact Hends|].
  apply TrimSpace_idempotent.
Qed.

Lemma noLF_app a b : noLF (a ++ b) = noLF a && noLF b.
Proof. apply forallb_app. Qed.

Lemma deliverable_Forall (P : bytes -> Prop) ls :
  Forall P ls -> Forall (fun l => P l /\ fitsScanner l = true) (deliverable ls).
Proof.
  induction 1 as [|l ls Hl Hls IH]; cbn [deliverable]; [constructor|].
  destruct (fitsScanner l) eqn:E; constructor; auto.
Qed.

(** X13: the lines [extractMetrics] keeps from the scan are not empty,
    have no white space at either end (trimming leaves them as they are),
    hold no line feed and are shorter than 65536 bytes. *)
Theorem kept_lines_are_trimmed content :
  Forall (fun l => l <> [] /\ gostrings.TrimSpace l = l /\ noLF l = true
                   /\ fitsScanner l = true)
         (nginx.scanLines content).
Proof.
  rewrite scanLines_spec.
  pose proof (deliverable_Forall _ _ (splitLF_noLF content)) as H.
  induction H as [|x xs [Hx Hfit] Hxs IH]; cbn [map List.filter]; [constructor|].
  destruct (gostrings.TrimSpace x) as [|c z] eqn:Hz; cbn [nonEmpty]; [exact IH|].
  constructor; [|exact IH].
  destruct (TrimSpace_structure x) as (lead & trail & _ & _ & Hs & _).
  rewrite Hz in Hs.
  split; [discriminate|]. split; [rewrite <- Hz; apply TrimSpace_idempotent|].
  split.
  - rewrite Hs, !noLF_app in Hx.
    apply andb_true_iff in Hx as [_ Hx]. apply andb_true_iff in Hx as [Hx _]. exact Hx.
  - unfold fitsScanner in *. apply Z.ltb_lt in Hfit. apply Z.ltb_lt.
    rewrite Hs, !length_app in Hfit. lia.
Qed.

(** ** The conversion to float64, in general *)

Lemma iter_pos_nat {A} (f : A -> A) p : forall x,
  @SpecFloat.iter_pos A f p x = Nat.iter (Pos.to_nat p) f x.
Proof.
  induction p as [p IH | p IH |]; intros x; cbn [SpecFloat.iter_pos].
  - rewrite !IH. rewrite Pos2Nat.inj_xI.
    replace (S (2 * Pos.to_nat p)) with (Pos.to_nat p + (Pos.to_nat p + 1))%nat by lia.
    rewrite !Nat.iter_add. reflexivity.
  - rewrite !IH. rewrite Pos2Nat.inj_xO.
    replace (2 * Pos.to_nat p)%nat with (Pos.to_nat p + Pos.to_nat p)%nat by lia.
    rewrite Nat.iter_add. reflexivity.
  - reflexivity.
Qed.

Lemma shr_1_spec m r s :
  0 <= m ->
  shr_1 {| shr_m := m; shr_r := r; shr_s := s |}
  = {| shr_m := m / 2; shr_r := Z.odd m; shr_s := r || s |}.
Proof.
  intros Hm. rewrite <- Z.div2_div.
  destruct m as [|[p|p|]|p]; try reflexivity. lia.
Qed.

Lemma shifted_step m j : 0 <= m -> shr_1 (shifted m j) = shifted m (S j).
Proof.
  intros Hm. unfold shifted at 1. rewrite shr_1_spec by (apply Z.div_pos; lia).
  unfold shifted. f_equal.
  - rewrite Z.div_div by lia. f_equal. rewrite Nat2Z.inj_succ, Z.pow_succ_r by lia. lia.
  - rewrite Z.testbit_odd, Z.shiftr_div_pow2 by lia. reflexivity.
  - destruct j as [|j].
    + cbn. rewrite Z.mod_1_r. reflexivity.
    + assert (H2 : 0 < 2 ^ Z.of_nat j) by (apply Z.pow_pos_nonneg; lia).
      rewrite (Nat2Z.inj_succ j), Z.pow_succ_r by lia.
      rewrite (Z.mul_comm 2), Z.rem_mul_r by lia.
      rewrite Z.testbit_odd, Z.shiftr_div_pow2 by lia.
      pose proof (Zmod_odd (m / 2 ^ Z.of_nat j)) as Hodd.
      pose proof (Z.mod_pos_bound m (2 ^ Z.of_nat j) H2).
      set (a := m mod 2 ^ Z.of_nat j) in *.
      set (b := (m / 2 ^ Z.of_nat j) mod 2) in *.
      set (P := 2 ^ Z.of_nat j) in *.
      destruct (Z.odd (m / P)); clearbody a b P; subst b;
        destruct (Z.eqb_spec a 0);
        destruct (Z.eqb_spec (a + P * 1) 0); destruct (Z.eqb_spec (a + P * 0) 0);
        cbn; try reflexivity; lia.
Qed.

Lemma shifted_iter m : 0 <= m -> forall j,
  Nat.iter j shr_1 {| shr_m := m; shr_r := false; shr_s := false |} = shifted m j.
Proof.
  intros Hm. induction j as [|j IH].
  - cbn. unfold shifted. cbn. rewrite Z.div_1_r. reflexivity.
  - rewrite Nat.iter_succ, IH. apply shifted_step. exact Hm.
Qed.

Lemma digits2_pos_unique m n :
  2 ^ (n - 1) <= Z.pos m < 2 ^ n -> Z.pos (digits2_pos m) = n.
Proof.
  intros [Hlo Hhi]. pose proof (digits2_pos_bounds m) as [Dlo Dhi].
  set (d := Z.pos (digits2_pos m)) in *.
  assert (Hd : 0 < d) by (unfold d; lia).
  destruct (Z.lt_trichotomy d n) as [Hlt | [Heq | Hgt]]; [|exact Heq|].
  - assert (2 ^ d <= 2 ^ (n - 1)) by (apply Z.pow_le_mono_r; lia). lia.
  - assert (0 <= n).
    { destruct (Z.le_gt_cases 0 n); [assumption|].
      rewrite (Z.pow_neg_r 2 n) in Hhi by lia. lia. }
    assert (2 ^ n <= 2 ^ (d - 1)) by (apply Z.pow_le_mono_r; lia). lia.
Qed.

(** The mantissa that rounding to the nearest even leaves after [j + 1]
    shifts is the quotient of [roundTo]. *)
Lemma round_shifted v j :
  0 <= v ->
  round_nearest_even (shr_m (shifted v (S j))) (loc_of_shr_record (shifted v (S j)))
    * 2 ^ Z.of_nat (S j)
  = roundTo (2 ^ Z.of_nat (S j)) v.
Proof.
  intros Hv. unfold shifted, roundTo. cbn [shr_m loc_of_shr_record]. cbv zeta.
  assert (H2 : 0 < 2 ^ Z.of_nat j) by (apply Z.pow_pos_nonneg; lia).
  rewrite Z.testbit_odd, Z.shiftr_div_pow2 by lia.
  replace (2 ^ Z.of_nat (S j)) with (2 ^ Z.of_nat j * 2)
    by (rewrite Nat2Z.inj_succ, Z.pow_succ_r by lia; lia).
  rewrite Z.rem_mul_r by lia.
  pose proof (Zmod_odd (v / 2 ^ Z.of_nat j)) as Hodd.
  pose proof (Z.mod_pos_bound v (2 ^ Z.of_nat j) H2) as Hb.
  set (P := 2 ^ Z.of_nat j) in *.
  set (a := v mod P) in *.
  set (q := v / (P * 2)) in *.
  clearbody a q.
  destruct (Z.odd (v / P)); rewrite Hodd; clear Hodd; clearbody P.
  - destruct (Z.eqb_spec a 0) as [Ha | Ha]; cbn [negb loc_of_shr_record round_nearest_even].
    + destruct (Z.ltb_spec (2 * (a + P * 1)) (P * 2)); [lia|].
      destruct (Z.ltb_spec (P * 2) (2 * (a + P * 1))); [lia|].
      destruct (Z.even q); reflexivity.
    + destruct (Z.ltb_spec (2 * (a + P * 1)) (P * 2)); [lia|].
      destruct (Z.ltb_spec (P * 2) (2 * (a + P * 1))); [reflexivity | lia].
  - destruct (Z.ltb_spec (2 * (a + P * 0)) (P * 2)); [|lia].
    destruct (a =? 0); reflexivity.
Qed.

Lemma roundTo_bounds u v lo :
  0 < u -> lo * u <= v < 2 * lo * u ->
  exists q, roundTo u v = q * u /\ lo <= q <= 2 * lo
    /\ 2 * Z.abs (roundTo u v - v) <= u.
Proof.
  intros Hu [Hlo Hhi]. unfold roundTo. cbv zeta.
  pose proof (Z.mod_pos_bound v u Hu) as Hr.
  pose proof (Z.div_mod v u ltac:(lia)) as Hv.
  set (q := v / u) in *. set (r := v mod u) in *. clearbody q r.
  assert (lo <= q < 2 * lo) by nia.
  destruct (Z.ltb_spec (2 * r) u); [exists q; split; [reflexivity|]; split; lia|].
  destruct (Z.ltb_spec u (2 * r)); [exists (q + 1); split; [reflexivity|]; split; lia|].
  destruct (Z.even q); [exists q | exists (q + 1)]; (split; [reflexivity|]; split; lia).
Qed.

(** The conversion of an integer of more than 53 bits. *)
Lemma float64_of_large p k :
  Z.pos (digits2_pos p) = 53 + Z.pos k -> Z.pos k <= 900 ->
  float64_to_Z (float64_of_uint64 (Z.pos p)) = Some (roundTo (2 ^ Z.pos k) (Z.pos p)).
Proof.
  intros Hd Hk.
  unfold float64_of_uint64, binary_normalize, binary_round, shl_align.
  rewrite Z.add_0_r, Z.sub_0_r.
  replace (fexp 53 1024 (Z.pos (digits2_pos p))) with (Z.pos k)
    by (unfold fexp, emin; lia).
  unfold binary_round_aux, shr_fexp. cbn [Zdigits2 shr_record_of_loc].
  rewrite Z.add_0_r, Z.sub_0_r.
  replace (fexp 53 1024 (Z.pos (digits2_pos p))) with (Z.pos k)
    by (unfold fexp, emin; lia).
  cbn [shr]. rewrite iter_pos_nat, shifted_iter by lia.
  destruct (Pos.to_nat k) as [|j] eqn:Hj; [lia|].
  assert (HK : Z.pos k = Z.of_nat (S j)) by lia.
  pose proof (round_shifted (Z.pos p) j ltac:(lia)) as Hround.
  rewrite <- HK in Hround.
  pose proof (digits2_pos_bounds p) as [Dlo Dhi]. rewrite Hd in Dlo, Dhi.
  assert (Hu : 0 < 2 ^ Z.pos k) by (apply Z.pow_pos_nonneg; lia).
  destruct (roundTo_bounds (2 ^ Z.pos k) (Z.pos p) (2 ^ 52) Hu) as (q & Hq & Hqb & _).
  { replace (53 + Z.pos k - 1) with (52 + Z.pos k) in Dlo by lia.
    rewrite Z.pow_add_r in Dlo, Dhi by lia.
    change (2 ^ 53) with (2 * 2 ^ 52) in Dhi. lia. }
  rewrite Hq in Hround. apply Z.mul_cancel_r in Hround; [|lia].
  rewrite Hround, Hq. clear Hround Hq.
  change (2 * 2 ^ 52) with (2 ^ 53) in Hqb.
  destruct (Z.eq_dec q (2 ^ 53)) as [-> | Hne].
  - replace (Zdigits2 (2 ^ 53)) with 54 by reflexivity.
    replace (fexp 53 1024 (54 + (0 + Z.pos k)) - (0 + Z.pos k)) with 1
      by (unfold fexp, emin; lia).
    cbn [shr SpecFloat.iter_pos].
    change (shr_1 {| shr_m := 2 ^ 53; shr_r := false; shr_s := false |})
      with {| shr_m := Z.pos (2 ^ 52); shr_r := false; shr_s := false |}.
    cbn [shr_m].
    destruct (Z.leb_spec (0 + Z.pos k + 1) (1024 - 53)); [|lia].
    unfold float64_to_Z.
    destruct (Z.leb_spec 0 (0 + Z.pos k + 1)); [|lia].
    f_equal. replace (0 + Z.pos k + 1) with (Z.succ (Z.pos k)) by lia.
    rewrite Z.pow_succ_r by lia.
    change (Z.pos (2 ^ 52)) with (2 ^ 52). change (2 ^ 53) with (2 * 2 ^ 52). lia.
  - destruct q as [|m|m]; [cbn in Hqb; lia | | lia].
    cbn [Zdigits2].
    rewrite (digits2_pos_unique m 53) by (change (53 - 1) with 52; lia).
    replace (fexp 53 1024 (53 + (0 + Z.pos k)) - (0 + Z.pos k)) with 0
      by (unfold fexp, emin; lia).
    cbn [shr shr_record_of_loc shr_m].
    destruct (Z.leb_spec (0 + Z.pos k) (1024 - 53)); [|lia].
    unfold float64_to_Z.
    destruct (Z.leb_spec 0 (0 + Z.pos k)); [|lia].
    reflexivity.
Qed.

Lemma log2_digits p : Z.log2 (Z.pos p) = Z.pos (digits2_pos p) - 1.
Proof.
  apply Z.log2_unique; [lia|].
  pose proof (digits2_pos_bounds p) as [Hlo Hhi].
  split; [exact Hlo|].
  match goal with |- _ < 2 ^ ?e => replace e with (Z.pos (digits2_pos p)) by lia end.
  exact Hhi.
Qed.

Lemma roundTo_1 v : roundTo 1 v = v.
Proof.
  unfold roundTo. cbv zeta. rewrite Z.mod_1_r, Z.div_1_r.
  change (2 * 0 <? 1) with true. cbv iota. lia.
Qed.

Lemma ulp_small v : v < 2 ^ 53 -> ulp v = 1.
Proof.
  intros Hv. unfold ulp.
  destruct (Z.le_gt_cases v 0) as [Hle | Hpos].
  - rewrite Z.log2_nonpos by assumption. reflexivity.
  - assert (Z.log2 v < 53) by (apply Z.log2_lt_pow2; lia).
    replace (Z.max 0 (Z.log2 v - 52)) with 0 by lia. reflexivity.
Qed.

Lemma ulp_pos v : 0 < ulp v.
Proof. unfold ulp. apply Z.pow_pos_nonneg; lia. Qed.

(** The conversion rounds to the nearest float64, ties to even. *)
Lemma float64_of_uint64_rounds v :
  0 <= v < 2 ^ 64 ->
  float64_to_Z (float64_of_uint64 v) = Some (roundNearestEven v).
Proof.
  intros Hv. unfold roundNearestEven.
  destruct v as [|p|p]; [reflexivity | | lia].
  destruct (Z.le_gt_cases (Z.pos (digits2_pos p)) 53) as [Hd | Hd].
  - rewrite float64_of_small by assumption.
    rewrite ulp_small, roundTo_1; [reflexivity|].
    pose proof (digits2_pos_bounds p) as [_ Hhi].
    assert (2 ^ Z.pos (digits2_pos p) <= 2 ^ 53) by (apply Z.pow_le_mono_r; lia).
    lia.
  - destruct (Z.pos (digits2_pos p) - 53) as [|k|k] eqn:Hk; try lia.
    assert (Hlog : Z.log2 (Z.pos p) < 64) by (apply Z.log2_lt_pow2; lia).
    rewrite log2_digits in Hlog.
    rewrite (float64_of_large p k) by lia.
    unfold ulp. rewrite log2_digits.
    replace (Z.max 0 (Z.pos (digits2_pos p) - 1 - 52)) with (Z.pos k) by lia.
    reflexivity.
Qed.

Lemma roundNearestEven_range v :
  0 <= v ->
  2 * Z.abs (roundNearestEven v - v) <= ulp v
  /\ roundNearestEven v <= 2 ^ (53 + Z.max 0 (Z.log2 v - 52))
  /\ (2 ^ 53 <= v -> 2 ^ (52 + Z.max 0 (Z.log2 v - 52)) <= roundNearestEven v).
Proof.
  intros Hv. unfold roundNearestEven.
  destruct (Z.lt_ge_cases v (2 ^ 53)) as [Hs | Hl].
  - pose proof (ulp_small v Hs) as Hu. rewrite Hu, roundTo_1.
    split; [lia|]. split; [|lia].
    assert (2 ^ 53 <= 2 ^ (53 + Z.max 0 (Z.log2 v - 52)))
      by (apply Z.pow_le_mono_r; lia).
    lia.
  - assert (Hpos : 0 < v) by lia.
    pose proof (Z.log2_spec v Hpos) as [Llo Lhi].
    assert (53 <= Z.log2 v) by (apply Z.log2_le_pow2; lia).
    unfold ulp. replace (Z.max 0 (Z.log2 v - 52)) with (Z.log2 v - 52) by lia.
    set (k := Z.log2 v - 52) in *.
    assert (Hu : 0 < 2 ^ k) by (apply Z.pow_pos_nonneg; lia).
    destruct (roundTo_bounds (2 ^ k) v (2 ^ 52) Hu) as (q & Hq & Hqb & Herr).
    { replace (Z.log2 v) with (52 + k) in Llo by lia.
      replace (Z.succ (Z.log2 v)) with (Z.succ (52 + k)) in Lhi by lia.
      rewrite Z.pow_succ_r in Lhi by lia. rewrite Z.pow_add_r in Llo, Lhi by lia. lia. }
    split; [exact Herr|]. rewrite Hq, !Z.pow_add_r by lia.
    change (2 ^ 53) with (2 * 2 ^ 52). split; [nia | intros _; nia].
Qed.

Lemma roundTo_mono u v v' :
  0 < u -> 0 <= v <= v' -> roundTo u v <= roundTo u v'.
Proof.
  intros Hu Hv. unfold roundTo. cbv zeta.
  pose proof (Z.mod_pos_bound v u Hu) as Hr.
  pose proof (Z.mod_pos_bound v' u Hu) as Hr'.
  pose proof (Z.div_mod v u ltac:(lia)) as Ev.
  pose proof (Z.div_mod v' u ltac:(lia)) as Ev'.
  set (q := v / u) in *. set (r := v mod u) in *.
  set (q' := v' / u) in *. set (r' := v' mod u) in *.
  clearbody q r q' r'.
  assert (Hq : q <= q') by nia.
  destruct (Z.eq_dec q q') as [<- | Hne].
  - assert (r <= r') by nia.
    destruct (Z.ltb_spec (2 * r) u); destruct (Z.ltb_spec (2 * r') u); try lia;
      destruct (Z.ltb_spec u (2 * r)); destruct (Z.ltb_spec u (2 * r')); try lia;
      destruct (Z.even q); nia.
  - assert (q + 1 <= q') by lia.
    assert ((q + 1) * u <= q' * u) by nia.
    destruct (Z.ltb_spec (2 * r) u); destruct (Z.ltb_spec (2 * r') u);
      destruct (Z.ltb_spec u (2 * r)); destruct (Z.ltb_spec u (2 * r'));
      destruct (Z.even q); destruct (Z.even q'); nia.
Qed.

Lemma roundNearestEven_mono v v' :
  0 <= v <= v' -> roundNearestEven v <= roundNearestEven v'.
Proof.
  intros Hv.
  assert (Hlog : Z.log2 v <= Z.log2 v') by (apply Z.log2_le_mono; lia).
  destruct (Z.eq_dec (Z.max 0 (Z.log2 v - 52)) (Z.max 0 (Z.log2 v' - 52))) as [He | Hne].
  - unfold roundNearestEven, ulp. rewrite He. apply roundTo_mono; [|exact Hv].
    apply Z.pow_pos_nonneg; lia.
  - assert (Hk : Z.max 0 (Z.log2 v - 52) < Z.max 0 (Z.log2 v' - 52)) by lia.
    assert (Hl : 2 ^ 53 <= v').
    { destruct (Z.lt_ge_cases v' (2 ^ 53)) as [Hs|]; [|assumption].
      destruct (Z.le_gt_cases v' 0).
      - rewrite (Z.log2_nonpos v') in Hk by assumption. lia.
      - assert (Z.log2 v' < 53) by (apply Z.log2_lt_pow2; lia). lia. }
    destruct (roundNearestEven_range v ltac:(lia)) as (_ & Hhi & _).
    destruct (roundNearestEven_range v' ltac:(lia)) as (_ & _ & Hlo).
    specialize (Hlo Hl).
    assert (2 ^ (53 + Z.max 0 (Z.log2 v - 52)) <= 2 ^ (52 + Z.max 0 (Z.log2 v' - 52)))
      by (apply Z.pow_le_mono_r; lia).
    lia.
Qed.

(** X14: the conversion [float64(value)] of a uint64 is a finite number,
    never a NaN or an infinity: the multiple of [ulp v] nearest to [v],
    the even one on a tie.  It is off by at most half of [ulp v], which is
    at most 2048, and exact up to 2^53. *)
Theorem float64_conversion_rounds_to_nearest v :
  0 <= v < 2 ^ 64 ->
  float64_to_Z (float64_of_uint64 v) = Some (roundNearestEven v)
  /\ 2 * Z.abs (roundNearestEven v - v) <= ulp v
  /\ ulp v <= 2048
  /\ (v <= 2 ^ 53 -> roundNearestEven v = v).
Proof.
  intros Hv. split; [apply float64_of_uint64_rounds; exact Hv|].
  split; [apply roundNearestEven_range; lia|]. split.
  - unfold ulp. destruct (Z.le_gt_cases v 0).
    + rewrite Z.log2_nonpos by assumption.
      change (2 ^ Z.max 0 (0 - 52)) with 1. lia.
    + assert (Z.log2 v < 64) by (apply Z.log2_lt_pow2; lia).
      change 2048 with (2 ^ 11). apply Z.pow_le_mono_r; lia.
  - intros Hs. pose proof (float64_of_uint64_rounds v Hv) as H.
    rewrite float64_of_uint64_exact in H by lia. congruence.
Qed.

Lemma float64_conversion_rounds_to_nearest_witness :
  float64_to_Z (float64_of_uint64 (2 ^ 64 - 1)) = Some (roundNearestEven (2 ^ 64 - 1))
  /\ 2 * Z.abs (roundNearestEven (2 ^ 64 - 1) - (2 ^ 64 - 1)) <= ulp (2 ^ 64 - 1)
  /\ ulp (2 ^ 64 - 1) <= 2048
  /\ (2 ^ 64 - 1 <= 2 ^ 53 -> roundNearestEven (2 ^ 64 - 1) = 2 ^ 64 - 1).
Proof.
  apply (float64_conversion_rounds_to_nearest (2 ^ 64 - 1)). cbn. lia.
Defined.

(** X15: the conversion keeps the order of the values: of two uint64 the
    smaller never converts to the larger float64 (they may convert to the
    same). *)
Theorem float64_conversion_is_monotone v v' :
  0 <= v <= v' -> v' < 2 ^ 64 ->
  exists f f',
    float64_to_Z (float64_of_uint64 v) = Some f
    /\ float64_to_Z (float64_of_uint64 v') = Some f'
    /\ f <= f'.
Proof.
  intros Hv Hv'. exists (roundNearestEven v), (roundNearestEven v').
  split; [apply float64_of_uint64_rounds; lia|].
  split; [apply float64_of_uint64_rounds; lia|].
  apply roundNearestEven_mono. exact Hv.
Qed.

Lemma float64_conversion_is_monotone_witness :
  exists f f',
    float64_to_Z (float64_of_uint64 (2 ^ 53 + 1)) = Some f
    /\ float64_to_Z (float64_of_uint64 (2 ^ 53 + 3)) = Some f'
    /\ f <= f'.
Proof.
  apply (float64_conversion_is_monotone (2 ^ 53 + 1) (2 ^ 53 + 3)); cbn; lia.
Defined.

(** X16: on a status page whose numerals fit (lines shorter than 65536
    bytes), the seven records are named nginx_active, nginx_accepts,
    nginx_handled, nginx_requests, nginx_reading, nginx_writing and
    nginx_waiting, in this order, and the value of each is the float64
    nearest to the number its numeral writes: active from line 1, accepts,
    handled and requests from line 3, reading, writing and waiting from
    line 4. *)
Theorem stored_values_are_the_nearest_floats w content h p a b c d e f g :
  Forall (fun l => fitsScanner l = true) (splitLF content) ->
  statusPage (nonBlankLines content) [a; b; c; d; e; f; g] ->
  Forall (fun x => decimalValue x <= 2 ^ 64 - 1) [a; b; c; d; e; f; g] ->
  snd (fst (nginx.extractMetrics w content h p)) = None
  /\ map dto.Name (fst (fst (nginx.extractMetrics w content h p)))
     = [ "nginx_active"%string : bytes; "nginx_accepts"%string : bytes;
         "nginx_handled"%string : bytes; "nginx_requests"%string : bytes;
         "nginx_reading"%string : bytes; "nginx_writing"%string : bytes;
         "nginx_waiting"%string : bytes ]
  /\ valuesOf (fst (fst (nginx.extractMetrics w content h p)))
     = map (fun x => [Some (roundNearestEven (decimalValue x))]) [a; b; c; d; e; f; g].
Proof.
  intros Hfit HP HF.
  rewrite <- (scanLines_nonBlankLines content Hfit) in HP.
  rewrite (statusPage_outcome w content h p _ _ _ _ _ _ _ HP).
  assert (HN : Forall (fun x => isNumeral x = true) [a; b; c; d; e; f; g]).
  { destruct HP as (l2 & s1 & s2 & s3 & s4 & s5 & s6 & s7 & a' & b' & c' & d' & e'
                    & f' & g' & Hf & _ & HN & _).
    exact HN. }
  pose proof (proj2 (outcomeOf_success (firstReading w) h p a b c d e f g) HF) as Hok.
  split; [exact Hok|].
  unfold outcomeOf in *.
  destruct (firstOverflow (fieldsOf a b c d e f g)) as [[prefix num]|];
    [discriminate Hok|].
  cbn [fst snd]. split; [reflexivity|].
  unfold valuesOf, sevenRecords, gaugeFamily, counterFamily.
  cbn [map dto.Metric_ sampleOf dto.Metric_Gauge dto.Metric_Counter
       sampleValue dto.Gauge_Value dto.Counter_Value].
  split_Forall.
  rewrite !float64_of_uint64_rounds
    by (split; [apply decimalValue_nonneg; assumption | lia]).
  reflexivity.
Qed.

Lemma stored_values_are_the_nearest_floats_witness :
  let n (s : string) : bytes := list_ascii_of_string s in
  snd (fst (nginx.extractMetrics testClock allLinesOk hostname port)) = None
  /\ map dto.Name (fst (fst (nginx.extractMetrics testClock allLinesOk hostname port)))
     = [ "nginx_active"%string : bytes; "nginx_accepts"%string : bytes;
         "nginx_handled"%string : bytes; "nginx_requests"%string : bytes;
         "nginx_reading"%string : bytes; "nginx_writing"%string : bytes;
         "nginx_waiting"%string : bytes ]
  /\ valuesOf (fst (fst (nginx.extractMetrics testClock allLinesOk hostname port)))
     = map (fun x => [Some (roundNearestEven (decimalValue x))])
           [n "33"; n "1237"; n "89"; n "91"; n "55"; n "767"; n "1234"].
Proof.
  intros n.
  apply (stored_values_are_the_nearest_floats testClock allLinesOk hostname port).
  - decide_Forall.
  - exists outputLine2Ok, (n " "), (n " "), (n " "), (n " "), (n " "), (n " "), (n " "),
      (n "33"), (n "1237"), (n "89"), (n "91"), (n "55"), (n "767"), (n "1234").
    split; [reflexivity|]. split; [vm_compute; reflexivity|].
    split; repeat constructor.
  - repeat constructor; vm_compute; discriminate.
Defined.

(** ** package main *)

Lemma trimLeftByte_spec s c :
  exists k, s = List.repeat c k ++ gostrings.trimLeftByte s c
    /\ match gostrings.trimLeftByte s c with
       | b :: _ => Ascii.eqb b c = false
       | [] => True
       end.
Proof.
  induction s as [|b s IH]; cbn.
  - exists 0%nat. auto.
  - destruct (Ascii.eqb_spec b c) as [-> | Hne].
    + destruct IH as (k & Hs & Hhd). exists (S k). cbn. split; [congruence | exact Hhd].
    + exists 0%nat. split; [reflexivity|]. apply Ascii.eqb_neq. exact Hne.
Qed.

Lemma FormatUint_d n : 0 <= n -> strconv.FormatUint n = fmt.d n.
Proof.
  intros Hn. unfold strconv.FormatUint, fmt.d.
  destruct n as [|p|p]; [reflexivity | reflexivity | lia].
Qed.

(** X17: [checkArgs] without a url builds "http://host:port/path" from
    the options, the path being the status path without its leading
    slashes.  When the parser accepts the URL the status is OK and the
    host and port kept for the labels are the hostname option and the
    port in decimal, the same text as in the URL; when it refuses, the
    status is critical, the error shows the URL built, and the host and
    port variables are left as they were. *)
Theorem checkArgs_builds_the_url Parse plugin v :
  main.url plugin = [] ->
  0 <= main.port plugin ->
  let r := main.checkArgs Parse plugin v in
  exists k path,
    main.statusPath plugin = List.repeat "/"%char k ++ path
    /\ startsWithSlash path = false
    /\ main.nginxUrl (snd r)
       = "http://"%string ++ main.hostname plugin ++ ":"%string
           ++ strconv.FormatUint (main.port plugin) ++ "/"%string ++ path
    /\ match Parse (main.nginxUrl (snd r)) with
       | inl _ =>
         fst r = (sensu.CheckStateOK, None)
         /\ main.nginxHostname (snd r) = main.hostname plugin
         /\ main.nginxPort (snd r) = strconv.FormatUint (main.port plugin)
       | inr _ =>
         fst r = (sensu.CheckStateCritical,
                  Some (nginx.Errorf_s
                          "invalid url built from hostname, port and status-path: "
                          (main.nginxUrl (snd r))))
         /\ main.nginxHostname (snd r) = main.nginxHostname v
         /\ main.nginxPort (snd r) = main.nginxPort v
       end.
Proof.
  intros Hu Hp r.
  destruct (trimLeftByte_spec (main.statusPath plugin) "/"%char) as (k & Hs & Hhd).
  exists k, (gostrings.trimLeftByte (main.statusPath plugin) "/"%char).
  split; [exact Hs|]. split.
  { unfold startsWithSlash.
    destruct (gostrings.trimLeftByte (main.statusPath plugin) "/"%char);
      [reflexivity | exact Hhd]. }
  subst r. unfold main.checkArgs. rewrite Hu. cbn [nonEmpty].
  rewrite (FormatUint_d _ Hp).
  cbv zeta. cbn [main.nginxUrl].
  destruct (Parse _) eqn:HP; cbn [fst snd main.nginxUrl main.nginxHostname main.nginxPort];
    rewrite HP; repeat split; reflexivity.
Qed.

Lemma checkArgs_builds_the_url_witness :
  let r := main.checkArgs testParser testConfig noVars in
  exists k path,
    main.statusPath testConfig = List.repeat "/"%char k ++ path
    /\ startsWithSlash path = false
    /\ main.nginxUrl (snd r)
       = "http://"%string ++ main.hostname testConfig ++ ":"%string
           ++ strconv.FormatUint (main.port testConfig) ++ "/"%string ++ path
    /\ match testParser (main.nginxUrl (snd r)) with
       | inl _ =>
         fst r = (sensu.CheckStateOK, None)
         /\ main.nginxHostname (snd r) = main.hostname testConfig
         /\ main.nginxPort (snd r) = strconv.FormatUint (main.port testConfig)
       | inr _ =>
         fst r = (sensu.CheckStateCritical,
                  Some (nginx.Errorf_s
                          "invalid url built from hostname, port and status-path: "
                          (main.nginxUrl (snd r))))
         /\ main.nginxHostname (snd r) = main.nginxHostname noVars
         /\ main.nginxPort (snd r) = main.nginxPort noVars
       end.
Proof.
  apply (checkArgs_builds_the_url testParser testConfig noVars).
  - reflexivity.
  - vm_compute. discriminate.
Defined.

Lemma checkArgs_example :
  main.checkArgs testParser testConfig noVars
  = ((0, None),
     {| main.nginxUrl := list_ascii_of_string "http://localhost:81/nginx_status";
        main.nginxHostname := list_ascii_of_string "localhost";
        main.nginxPort := list_ascii_of_string "81" |}).
Proof. vm_compute. reflexivity. Qed.

(** X18: [checkArgs] with a url trims the white space around it and
    ignores the hostname, port and status-path options: two configs whose
    urls differ by white space around give the same result.  The host and
    port kept for the labels are those of the parsed URL; when the parser
    refuses the URL the status is critical and the two variables are left
    as they were. *)
Theorem checkArgs_trims_the_url Parse plugin plugin' v lead u trail :
  u <> [] ->
  IsSpaceString lead = true -> IsSpaceString trail = true ->
  main.url plugin = lead ++ u ++ trail ->
  main.url plugin' = u ->
  main.checkArgs Parse plugin v = main.checkArgs Parse plugin' v
  /\ main.nginxUrl (snd (main.checkArgs Parse plugin v)) = gostrings.TrimSpace u
  /\ match Parse (gostrings.TrimSpace u) with
     | inl parsedUrl =>
       main.checkArgs Parse plugin v
       = ((sensu.CheckStateOK, None),
          {| main.nginxUrl := gostrings.TrimSpace u;
             main.nginxHostname := url.Hostname parsedUrl;
             main.nginxPort := url.Port parsedUrl |})
     | inr err =>
       main.checkArgs Parse plugin v
       = ((sensu.CheckStateCritical,
           Some (nginx.Errorf_s "invalid url provided: " err)),
          {| main.nginxUrl := gostrings.TrimSpace u;
             main.nginxHostname := main.nginxHostname v;
             main.nginxPort := main.nginxPort v |})
     end.
Proof.
  intros Hu Hlead Htrail Hp Hp'.
  assert (Hne : nonEmpty (lead ++ u ++ trail) = true).
  { destruct lead; [|reflexivity]. destruct u; [congruence | reflexivity]. }
  assert (Hne' : nonEmpty u = true) by (destruct u; [congruence | reflexivity]).
  unfold main.checkArgs. rewrite Hp, Hp', Hne, Hne'.
  rewrite (TrimSpace_padding lead u trail Hlead Htrail).
  cbv zeta. cbn [main.nginxUrl main.nginxHostname main.nginxPort].
  destruct (Parse (gostrings.TrimSpace u)); cbn [fst snd main.nginxUrl];
    repeat split; reflexivity.
Qed.

Lemma checkArgs_trims_the_url_witness :
  let u : bytes := "http://example/status"%string in
  let plugin (x : bytes) :=
    {| main.hostname := "localhost"%string; main.port := 81;
       main.statusPath := "nginx_status"%string; main.url := x;
       main.timeout := 10 |} in
  main.checkArgs testParser (plugin (" "%string ++ u ++ "  "%string)) noVars
  = main.checkArgs testParser (plugin u) noVars.
Proof.
  intros u plugin.
  apply (checkArgs_trims_the_url testParser (plugin (" "%string ++ u ++ "  "%string))
           (plugin u) noVars " "%string u "  "%string);
    [discriminate | reflexivity | reflexivity | reflexivity | reflexivity].
Defined.

(** X19: a url of white space only is not taken as absent: the hostname,
    port and status-path options are not used, the empty text is parsed
    and the host and port are those of its parse. *)
Theorem checkArgs_blank_url Parse plugin v :
  main.url plugin <> [] ->
  IsSpaceString (main.url plugin) = true ->
  main.nginxUrl (snd (main.checkArgs Parse plugin v)) = []
  /\ match Parse [] with
     | inl parsedUrl =>
       main.checkArgs Parse plugin v
       = ((sensu.CheckStateOK, None),
          {| main.nginxUrl := [];
             main.nginxHostname := url.Hostname parsedUrl;
             main.nginxPort := url.Port parsedUrl |})
     | inr err =>
       main.checkArgs Parse plugin v
       = ((sensu.CheckStateCritical,
           Some (nginx.Errorf_s "invalid url provided: " err)),
          {| main.nginxUrl := [];
             main.nginxHostname := main.nginxHostname v;
             main.nginxPort := main.nginxPort v |})
     end.
Proof.
  intros Hne Hsp.
  assert (Ht : gostrings.TrimSpace (main.url plugin) = []).
  { pose proof (TrimSpace_padding (main.url plugin) [] [] Hsp eq_refl) as H.
    rewrite app_nil_r in H. exact H. }
  unfold main.checkArgs.
  destruct (main.url plugin) as [|c u] eqn:Hu; [congruence|].
  cbn [nonEmpty]. rewrite Ht. cbv zeta. cbn [main.nginxUrl main.nginxHostname main.nginxPort].
  destruct (Parse []); cbn [fst snd main.nginxUrl]; split; reflexivity.
Qed.

Lemma checkArgs_blank_url_witness :
  let plugin :=
    {| main.hostname := "localhost"%string; main.port := 81;
       main.statusPath := "nginx_status"%string; main.url := " "%string;
       main.timeout := 10 |} in
  main.nginxUrl (snd (main.checkArgs testParser plugin noVars)) = []
  /\ match testParser [] with
     | inl parsedUrl =>
       main.checkArgs testParser plugin noVars
       = ((sensu.CheckStateOK, None),
          {| main.nginxUrl := [];
             main.nginxHostname := url.Hostname parsedUrl;
             main.nginxPort := url.Port parsedUrl |})
     | inr err =>
       main.checkArgs testParser plugin noVars
       = ((sensu.CheckStateCritical,
           Some (nginx.Errorf_s "invalid url provided: " err)),
          {| main.nginxUrl := [];
             main.nginxHostname := main.nginxHostname noVars;
             main.nginxPort := main.nginxPort noVars |})
     end.
Proof.
  intros plugin.
  apply (checkArgs_blank_url testParser plugin noVars);
    [discriminate | reflexivity].
Defined.

(** X20: [printMetrics] prints the encodings of the families in order.
    When every family encodes, the output grows by all of them and no error
    is returned; at the first family that does not, its error is returned,
    what was printed for the families before it stays printed and nothing
    is printed for it or for those after it. *)
Theorem printMetrics_prints_in_order Encode ms out :
  (Forall (fun family => snd (Encode family) = None) ms ->
   main.printMetrics Encode ms out = (None, out ++ encodings Encode ms))
  /\ (forall before family after e,
        ms = before ++ family :: after ->
        Forall (fun family => snd (Encode family) = None) before ->
        snd (Encode family) = Some e ->
        main.printMetrics Encode ms out = (Some e, out ++ encodings Encode before)).
Proof.
  split.
  - intros H. revert out. induction H as [|f ms Hf Hms IH]; intros out.
    + cbn. rewrite app_nil_r. reflexivity.
    + cbn [main.printMetrics]. destruct (Encode f) as [buf err] eqn:E.
      cbn in Hf. subst err. rewrite IH.
      unfold encodings. cbn [map concat]. rewrite E. cbn [fst].
      rewrite app_assoc. reflexivity.
  - intros before family after e -> H He. revert out.
    induction H as [|f ms Hf Hms IH]; intros out.
    + cbn. destruct (Encode family) as [buf err]. cbn in He. subst err.
      rewrite app_nil_r. reflexivity.
    + cbn [app main.printMetrics]. destruct (Encode f) as [buf err] eqn:E.
      cbn in Hf. subst err. rewrite IH.
      unfold encodings. cbn [map concat]. rewrite E. cbn [fst].
      rewrite app_assoc. reflexivity.
Qed.

Lemma printMetrics_prints_in_order_witness :
  let named (n : string) : dto.MetricFamily :=
    {| dto.Name := n; dto.Help := []; dto.Type_ := dto.MetricType_GAUGE;
       dto.Metric_ := [] |} in
  main.printMetrics testEncoder [named "a"; named "b"; named ""; named "c"] []
  = (Some (list_ascii_of_string "no name"),
     [] ++ encodings testEncoder [named "a"; named "b"]).
Proof.
  intros named.
  apply (proj2 (printMetrics_prints_in_order testEncoder
                  [named "a"; named "b"; named ""; named "c"] [])
           [named "a"; named "b"] (named "") [named "c"]).
  - reflexivity.
  - repeat constructor.
  - reflexivity.
Defined.

Lemma GetMetrics_outcome rt w u h p t :
  (exists e, fst (nginx.GetMetrics rt w u h p t) = ([], Some e))
  \/ (exists ms, fst (nginx.GetMetrics rt w u h p t) = (ms, None)
        /\ length ms = 7%nat).
Proof.
  unfold nginx.GetMetrics.
  destruct (nginx.loadData rt u t) as [data [err|]].
  - left. exists err. reflexivity.
  - destruct (extractMetrics_outcome w data h p)
      as [_ [[e He] | (a & b & c & d & e & f & g & He)]].
    + left. exists e. exact He.
    + right. eexists. split; [exact He | reflexivity].
Qed.

Lemma printMetrics_cases Encode ms : forall out,
  (Forall (fun family => snd (Encode family) = None) ms
   /\ main.printMetrics Encode ms out = (None, out ++ encodings Encode ms))
  \/ (exists before family after e,
        ms = before ++ family :: after
        /\ Forall (fun family => snd (Encode family) = None) before
        /\ snd (Encode family) = Some e
        /\ main.printMetrics Encode ms out = (Some e, out ++ encodings Encode before)).
Proof.
  induction ms as [|f ms IH]; intros out.
  - left. split; [constructor|]. cbn. rewrite app_nil_r. reflexivity.
  - cbn [main.printMetrics]. destruct (Encode f) as [buf [e|]] eqn:E.
    + right. exists [], f, ms, e. cbn. rewrite E, app_nil_r. auto.
    + destruct (IH (out ++ buf)) as [[Hall Hp] | (before & family & after & e & -> & Hb & He & Hp)].
      * left. split; [constructor; [rewrite E; reflexivity | exact Hall]|].
        rewrite Hp. unfold encodings. cbn [map concat]. rewrite E. cbn [fst].
        rewrite app_assoc. reflexivity.
      * right. exists (f :: before), family, after, e.
        split; [reflexivity|]. split; [constructor; [rewrite E; reflexivity | exact Hb]|].
        split; [exact He|].
        rewrite Hp. unfold encodings. cbn [map concat]. rewrite E. cbn [fst].
        rewrite app_assoc. reflexivity.
Qed.

(** X21: [executeCheck] never returns an error: a failure is reported by
    the status.  The status is OK when the metrics were obtained (seven
    families) and every family encoded, and the output is then the seven
    encodings; otherwise it is critical, and the output ends with "error
    generating nginx metrics: " or, after the encodings of the families
    that preceded the failing one, "error printing metrics: ", and the
    error. *)
Theorem executeCheck_reports_by_status Get Encode plugin v w out :
  let r := main.executeCheck Get Encode plugin v w out in
  let g := nginx.GetMetrics Get w (main.nginxUrl v) (main.nginxHostname v)
             (main.nginxPort v)
             (time.Duration_mul (main.timeout plugin) time.Second) in
  snd (fst (fst r)) = None
  /\ snd (fst r) = snd g
  /\ ((fst (fst (fst r)) = sensu.CheckStateOK
       /\ exists ms,
            fst g = (ms, None) /\ length ms = 7%nat
            /\ Forall (fun family => snd (Encode family) = None) ms
            /\ snd r = out ++ encodings Encode ms)
      \/ (fst (fst (fst r)) = sensu.CheckStateCritical
          /\ exists e,
               (fst g = ([], Some e)
                /\ snd r = out ++ nginx.Errorf_s "error generating nginx metrics: " e)
               \/ (exists ms before family after,
                     fst g = (ms, None) /\ ms = before ++ family :: after
                     /\ Forall (fun family => snd (Encode family) = None) before
                     /\ snd (Encode family) = Some e
                     /\ snd r = out ++ encodings Encode before
                                  ++ nginx.Errorf_s "error printing metrics: " e))).
Proof.
  cbv zeta. unfold main.executeCheck.
  destruct (GetMetrics_outcome Get w (main.nginxUrl v) (main.nginxHostname v)
              (main.nginxPort v)
              (time.Duration_mul (main.timeout plugin) time.Second))
    as [(e & He) | (ms & He & Hlen)];
    destruct (nginx.GetMetrics _ _ _ _ _ _) as [[ms' err] w'];
    cbn [fst snd] in He; injection He as -> ->; cbn [fst snd].
  - split; [reflexivity|]. split; [reflexivity|]. right.
    split; [reflexivity|]. exists e. left. auto.
  - destruct (printMetrics_cases Encode ms out)
      as [[Hall Hp] | (before & family & after & e & Hms & Hb & Hf & Hp)];
      rewrite Hp; cbn [fst snd].
    + split; [reflexivity|]. split; [reflexivity|]. left.
      split; [reflexivity|]. exists ms. auto.
    + split; [reflexivity|]. split; [reflexivity|]. right.
      split; [reflexivity|]. exists e. right.
      exists ms, before, family, after. rewrite <- app_assoc. auto 10.
Qed.

(** X22: the timeout option, a uint32 number of seconds, converts to a
    duration without overflow: the product with [time.Second] is exact
    and below 2^63. *)
Theorem timeout_fits_a_duration plugin :
  0 <= main.timeout plugin < 2 ^ 32 ->
  time.Duration_mul (main.timeout plugin) time.Second
  = main.timeout plugin * 1000000000
  /\ 0 <= time.Duration_mul (main.timeout plugin) time.Second < 2 ^ 63.
Proof.
  intros H. unfold time.Duration_mul, time.Second.
  rewrite Z.mod_small by lia. lia.
Qed.

Lemma timeout_fits_a_duration_witness :
  let plugin :=
    {| main.hostname := []; main.port := 81; main.statusPath := [];
       main.url := []; main.timeout := 4294967295 |} in
  time.Duration_mul (main.timeout plugin) time.Second
  = main.timeout plugin * 1000000000
  /\ 0 <= time.Duration_mul (main.timeout plugin) time.Second < 2 ^ 63.
Proof.
  intros plugin. apply (timeout_fits_a_duration plugin). cbn. lia.
Defined.

Lemma sevenRecords_labels ts h p a b c d e f g :
  Forall (fun fam => Forall (fun m => dto.Label m = labelsOf h p) (dto.Metric_ fam))
         (sevenRecords ts h p a b c d e f g).
Proof. repeat constructor. Qed.

(** X23: the labels of the metrics are the host and port [checkArgs]
    kept.  When [checkArgs] has succeeded and [GetMetrics] is called with
    the variables it set, every sample of the seven records is labelled
    with the host and the port of the parsed URL when a url was given, and
    with the hostname option and the port in decimal otherwise. *)
Theorem labels_are_the_checked_host_and_port Parse Get plugin v0 v w t ms w' :
  main.checkArgs Parse plugin v0 = ((sensu.CheckStateOK, None), v) ->
  nginx.GetMetrics Get w (main.nginxUrl v) (main.nginxHostname v) (main.nginxPort v) t
  = ((ms, None), w') ->
  exists host port,
    (if nonEmpty (main.url plugin)
     then exists parsedUrl,
            Parse (gostrings.TrimSpace (main.url plugin)) = inl parsedUrl
            /\ host = url.Hostname parsedUrl /\ port = url.Port parsedUrl
     else host = main.hostname plugin
          /\ port = strconv.FormatUint (main.port plugin))
    /\ length ms = 7%nat
    /\ Forall (fun fam =>
         Forall (fun m =>
           dto.Label m
           = [ {| dto.LabelPair_Name := "host"%string; dto.LabelPair_Value := host |};
               {| dto.LabelPair_Name := "port"%string; dto.LabelPair_Value := port |} ])
           (dto.Metric_ fam)) ms.
Proof.
  intros Hc Hg.
  exists (main.nginxHostname v), (main.nginxPort v). split.
  - unfold main.checkArgs in Hc.
    destruct (nonEmpty (main.url plugin)); cbv zeta in Hc; cbn [main.nginxUrl] in Hc.
    + destruct (Parse _) as [parsedUrl | err] eqn:HP; [|discriminate Hc].
      injection Hc as <-. exists parsedUrl. auto.
    + destruct (Parse _) as [parsedUrl | err] eqn:HP; [|discriminate Hc].
      injection Hc as <-. auto.
  - unfold nginx.GetMetrics in Hg.
    destruct (nginx.loadData Get (main.nginxUrl v) t) as [data [err|]]; [discriminate Hg|].
    destruct (extractMetrics_outcome w data (main.nginxHostname v) (main.nginxPort v))
      as [_ [[e He] | (a & b & c & d & e & f & g & He)]];
      rewrite Hg in He; cbn [fst] in He; [discriminate He|].
    injection He as ->. split; [reflexivity|]. apply sevenRecords_labels.
Qed.

Lemma labels_are_the_checked_host_and_port_witness :
  let ms := fst (fst (nginx.extractMetrics testClock allLinesOk
                        (list_ascii_of_string "localhost")
                        (list_ascii_of_string "81"))) in
  exists host port,
    (if nonEmpty (main.url testConfig)
     then exists parsedUrl,
            testParser (gostrings.TrimSpace (main.url testConfig)) = inl parsedUrl
            /\ host = url.Hostname parsedUrl /\ port = url.Port parsedUrl
     else host = main.hostname testConfig
          /\ port = strconv.FormatUint (main.port testConfig))
    /\ length ms = 7%nat
    /\ Forall (fun fam =>
         Forall (fun m =>
           dto.Label m
           = [ {| dto.LabelPair_Name := "host"%string; dto.LabelPair_Value := host |};
               {| dto.LabelPair_Name := "port"%string; dto.LabelPair_Value := port |} ])
           (dto.Metric_ fam)) ms.
Proof.
  intros ms.
  apply (labels_are_the_checked_host_and_port testParser (serverOf 200 allLinesOk)
           testConfig noVars
           {| main.nginxUrl := list_ascii_of_string "http://localhost:81/nginx_status";
              main.nginxHostname := list_ascii_of_string "localhost";
              main.nginxPort := list_ascii_of_string "81" |}
           testClock 10 ms
           (snd (nginx.extractMetrics testClock allLinesOk
                   (list_ascii_of_string "localhost") (list_ascii_of_string "81")))).
  - vm_compute. reflexivity.
  - unfold nginx.GetMetrics. cbn [nginx.loadData serverOf http.StatusCode http.Body
      http.StatusOK Z.eqb Pos.eqb negb main.nginxUrl main.nginxHostname main.nginxPort].
    subst ms.
    rewrite (surjective_pairing (nginx.extractMetrics testClock allLinesOk
               (list_ascii_of_string "localhost") (list_ascii_of_string "81"))) at 1.
    f_equal.
Defined.

(** ** [ParseUint] and the errors of [extractMetrics] *)

Lemma parseLoop_digits s0 : forall s n v,
  strconv.parseLoop s0 s n = (v, None) -> forallb isDigit s = true.
Proof.
  induction s as [|ch s IH]; intros n v H; [reflexivity|].
  cbn [strconv.parseLoop] in H. cbv zeta in H. cbn [forallb]. unfold isDigit at 1.
  destruct ((48 <=? byteZ ch) && (byteZ ch <=? 57)) eqn:Hd.
  - cbn [andb]. destruct (10 <=? byteZ ch - 48); [discriminate H|].
    destruct (strconv.maxUint64 / 10 + 1 <=? n); [discriminate H|].
    destruct (_ || _); [discriminate H|].
    eapply IH. exact H.
  - exfalso.
    destruct ((97 <=? strconv.lower (byteZ ch)) && (strconv.lower (byteZ ch) <=? 122)) eqn:Hl;
      [|discriminate H].
    apply andb_true_iff in Hl as [Hl _]. apply Z.leb_le in Hl.
    destruct (Z.leb_spec 10 (strconv.lower (byteZ ch) - 97 + 10)); [discriminate H | lia].
Qed.

(** X24: [strconv.ParseUint], base 10 and 64 bits, as [extractMetrics]
    calls it: it succeeds exactly on the non-empty strings of ASCII digits
    that write a number of at most 2^64 - 1, and returns that number; on a
    numeral that writes more it returns 2^64 - 1 and the range error. *)
Theorem ParseUint_accepts_the_numerals_that_fit s :
  (forall v, strconv.ParseUint s = (v, None) ->
     isNumeral s = true /\ v = decimalValue s /\ v <= 2 ^ 64 - 1)
  /\ (isNumeral s = true -> decimalValue s <= 2 ^ 64 - 1 ->
      strconv.ParseUint s = (decimalValue s, None))
  /\ (isNumeral s = true -> 2 ^ 64 - 1 < decimalValue s ->
      strconv.ParseUint s
      = (2 ^ 64 - 1,
         Some {| strconv.Func := "ParseUint"%string; strconv.Num := s;
                 strconv.NumErr := strconv.ErrRange |})).
Proof.
  assert (Hnum : forall v, strconv.ParseUint s = (v, None) -> isNumeral s = true).
  { intros v H. unfold strconv.ParseUint in H. destruct s as [|c s]; [discriminate H|].
    unfold isNumeral. cbn [nonEmpty andb]. eapply parseLoop_digits. exact H. }
  split; [|split].
  - intros v H. pose proof (Hnum v H) as HN. split; [exact HN|].
    rewrite (ParseUint_numeral s HN) in H. unfold strconv.maxUint64 in H.
    destruct (Z.leb_spec (decimalValue s) (2 ^ 64 - 1)); [|discriminate H].
    injection H as <-. auto.
  - intros HN Hle. rewrite (ParseUint_numeral s HN). unfold strconv.maxUint64.
    destruct (Z.leb_spec (decimalValue s) (2 ^ 64 - 1)); [reflexivity | lia].
  - intros HN Hgt. rewrite (ParseUint_numeral s HN). unfold strconv.maxUint64.
    destruct (Z.leb_spec (decimalValue s) (2 ^ 64 - 1)); [lia | reflexivity].
Qed.

Lemma ParseUint_accepts_the_numerals_that_fit_witness :
  strconv.ParseUint (list_ascii_of_string "18446744073709551615")
  = (decimalValue (list_ascii_of_string "18446744073709551615"), None).
Proof.
  apply (proj1 (proj2 (ParseUint_accepts_the_numerals_that_fit
                         (list_ascii_of_string "18446744073709551615")))).
  - reflexivity.
  - vm_compute. discriminate.
Defined.

Ltac field_step a prefix :=
  rewrite (ParseUint_numeral a) by assumption;
  let Hle := fresh "Hle" in
  destruct (Z.leb_spec (decimalValue a) strconv.maxUint64) as [Hle | Hle];
  [ | let H := fresh in
      cbn [fst snd]; intros [= <-]; split; [reflexivity|];
      right; right; exists prefix, a;
      split; [unfold fieldMessages; cbn [In]; tauto|];
      split; [assumption|]; split; [unfold strconv.maxUint64 in Hle; lia | reflexivity] ].

(** X25: the errors of [extractMetrics].  When the call fails no record
    is returned, and the error is one of: the count of the lines kept,
    when it is not 4; "unexpected input for line 1", "line 3" or "line 4"
    followed by the first line kept; or, for one of the seven fields, its
    message followed by the range error of [ParseUint] for a numeral above
    2^64 - 1.  The syntax error of [ParseUint] never occurs. *)
Theorem extractMetrics_errors w content h p e :
  snd (fst (nginx.extractMetrics w content h p)) = Some e ->
  fst (fst (nginx.extractMetrics w content h p)) = []
  /\ ((length (nginx.scanLines content) <> 4%nat
       /\ e = nginx.Errorf_s "4 output lines are expected, got "
                (fmt.d (Z.of_nat (length (nginx.scanLines content)))))
      \/ (length (nginx.scanLines content) = 4%nat
          /\ (e = nginx.Errorf_s "unexpected input for line 1: "
                    (nginx.at_ (nginx.scanLines content) 0)
              \/ e = nginx.Errorf_s "unexpected input for line 3: "
                       (nginx.at_ (nginx.scanLines content) 0)
              \/ e = nginx.Errorf_s "unexpected input for line 4: "
                       (nginx.at_ (nginx.scanLines content) 0)))
      \/ (exists prefix num,
            In prefix fieldMessages /\ isNumeral num = true
            /\ 2 ^ 64 - 1 < decimalValue num
            /\ e = rangeError prefix num)).
Proof.
  unfold nginx.extractMetrics, nginx.nowFn, time.Now.
  cbv beta iota zeta. cbn [fst snd].
  generalize (nginx.scanLines content). intros lines.
  destruct (Z.eqb_spec (Z.of_nat (length lines)) 4) as [Hlen | Hlen]; cbn [negb].
  2:{ cbn [fst snd]. intros [= <-]. split; [reflexivity|]. left.
      split; [lia | reflexivity]. }
  destruct lines as [|l1 [|l2 [|l3 [|l4 [|l5 lines]]]]]; cbn [length] in Hlen; try lia.
  clear Hlen. cbn [nginx.at_ nth length].
  destruct (Z.eqb_spec (Z.of_nat (length (regexp.FindStringSubmatch nginx.line1Regex l1))) 2)
    as [H1 | H1]; cbn [negb].
  2:{ cbn [fst snd]. intros [= <-]. split; [reflexivity|]. right. left. auto. }
  destruct (line1Regex_submatch l1 _ eq_refl ltac:(lia)) as (a & Hm1 & Na).
  rewrite Hm1. cbn [nginx.at_ nth].
  field_step a "invalid number of connections: "%string.
  destruct (Z.eqb_spec (Z.of_nat (length (regexp.FindStringSubmatch nginx.line3Regex l3))) 4)
    as [H3 | H3]; cbn [negb].
  2:{ cbn [fst snd]. intros [= <-]. split; [reflexivity|]. right. left. auto. }
  destruct (line3Regex_submatch l3 _ eq_refl ltac:(lia))
    as (b & c & d & Hm3 & Nb & Nc & Nd).
  rewrite Hm3. cbn [nginx.at_ nth].
  field_step b "invalid accepts value: "%string.
  field_step c "invalid handled value: "%string.
  field_step d "invalid requests value: "%string.
  destruct (Z.eqb_spec (Z.of_nat (length (regexp.FindStringSubmatch nginx.line4Regex l4))) 4)
    as [H4 | H4]; cbn [negb].
  2:{ cbn [fst snd]. intros [= <-]. split; [reflexivity|]. right. left. auto. }
  destruct (line4Regex_submatch l4 _ eq_refl ltac:(lia))
    as (e1 & f & g & Hm4 & Ne & Nf & Ng).
  rewrite Hm4. cbn [nginx.at_ nth].
  field_step e1 "invalid reading value: "%string.
  field_step f "invalid writing value: "%string.
  field_step g "invalid waiting value: "%string.
  cbn [fst snd]. discriminate.
Qed.

Lemma extractMetrics_errors_witness :
  let content : bytes := outputLine1Ok ++ NL ++ outputLine2Ok ++ NL in
  fst (fst (nginx.extractMetrics testClock content hostname port)) = [].
Proof.
  intros content.
  apply (extractMetrics_errors testClock content hostname port
           (list_ascii_of_string "4 output lines are expected, got 2")).
  vm_compute. reflexivity.
Defined.
